(** * Scenario search API: query interpretation and ingestion

    A shallow embedding of the Python sources

    - [agents/filter_agent.py]      (phrase rules, query plan, result shape),
    - [agents/scenario_data_fetcher.py] (flattening of the nested report),
    - [orchestrator.py]             (staleness gate, per-run replacement,
                                     query entry point),

    followed by the properties of the specification that were checked
    against them.

    Conventions.  Text is ASCII ([string] / [list ascii]).  A naive
    [datetime] is the number of microseconds since 0001-01-01T00:00:00 of
    the proleptic Gregorian calendar, so comparison and [timedelta]
    arithmetic are those of [Z]; the calendar fields are computed from it.
    Python bounds the year of a [datetime] to 1..9999; here the day count
    is unbounded.  A Python exception that the code lets escape is an
    explicit [Raised] result; one that the code catches is the branch of
    the [except] clause.  The table is kept in memory and always
    answers: the only failure of a store call is an insert that the
    primary key refuses. *)

From Stdlib Require Import ZArith List Bool Lia.
From Stdlib Require Import Ascii String DecimalString.
Import ListNotations.

Local Open Scope list_scope.
Local Open Scope string_scope.
Local Open Scope Z_scope.

Local Set Warnings "-register-all".

(* ================================================================= *)
(** ** Python values that come out of [response.json()] *)

(** A float is carried by what the code observes of it: its truth value
    and its [str()]. *)
Record pyfloat : Type := mkFloat { float_nonzero : bool; float_text : string }.

(** A [dict] keeps insertion order ([next(iter(d))] is the first key), so
    it is an association list; lookup takes the first binding. *)
Inductive json : Type :=
| JNull
| JBool (b : bool)
| JInt (z : Z)
| JFloat (f : pyfloat)
| JStr (s : string)
| JList (l : list json)
| JDict (d : list (string * json)).

Definition pydict : Type := list (string * json).

Fixpoint dict_lookup (k : string) (d : pydict) : option json :=
  match d with
  | [] => None
  | (k', v) :: d' => if String.eqb k' k then Some v else dict_lookup k d'
  end.

(** [d.get(k, default)] *)
Definition dict_get (k : string) (default : json) (d : pydict) : json :=
  match dict_lookup k d with Some v => v | None => default end.

(** [k in d] *)
Definition dict_mem (k : string) (d : pydict) : bool :=
  match dict_lookup k d with Some _ => true | None => false end.

(** Truth value of a Python object ([if x:], [not x]). *)
Definition py_truthy (v : json) : bool :=
  match v with
  | JNull => false
  | JBool b => b
  | JInt z => negb (z =? 0)
  | JFloat f => float_nonzero f
  | JStr s => negb (String.eqb s "")
  | JList l => match l with [] => false | _ => true end
  | JDict d => match d with [] => false | _ => true end
  end.

(** *** [str()] and [repr()] *)

Definition string_of_Z (z : Z) : string := NilZero.string_of_int (Z.to_int z).

Definition hex_digit (n : N) : ascii :=
  ascii_of_N (if (n <? 10)%N then 48 + n else 87 + n)%N.

Fixpoint contains_char (c : ascii) (s : string) : bool :=
  match s with
  | EmptyString => false
  | String c' s' => Ascii.eqb c c' || contains_char c s'
  end.

Definition escape_char (q c : ascii) : string :=
  let n := N_of_ascii c in
  if Ascii.eqb c "\"%char then "\\"
  else if Ascii.eqb c q then String "\"%char (String q EmptyString)
  else if (n =? 10)%N then "\n"
  else if (n =? 13)%N then "\r"
  else if (n =? 9)%N then "\t"
  else if ((n <? 32) || (n =? 127))%N
       then String "\"%char (String "x"%char
              (String (hex_digit (n / 16)) (String (hex_digit (n mod 16)) EmptyString)))
  else String c EmptyString.

Fixpoint escape_string (q : ascii) (s : string) : string :=
  match s with
  | EmptyString => EmptyString
  | String c s' => escape_char q c ++ escape_string q s'
  end.

Definition squote : ascii := ascii_of_N 39.
Definition dquote : ascii := ascii_of_N 34.

(** [repr] of a [str]: single quotes unless the text has a single quote
    and no double quote. *)
Definition repr_str (s : string) : string :=
  let q := if contains_char squote s && negb (contains_char dquote s)
           then dquote else squote in
  String q (escape_string q s ++ String q EmptyString).

Fixpoint join (sep : string) (l : list string) : string :=
  match l with
  | [] => EmptyString
  | [x] => x
  | x :: l' => x ++ sep ++ join sep l'
  end.

Fixpoint py_repr (v : json) : string :=
  match v with
  | JNull => "None"
  | JBool true => "True"
  | JBool false => "False"
  | JInt z => string_of_Z z
  | JFloat f => float_text f
  | JStr s => repr_str s
  | JList l => "[" ++ join ", " (map py_repr l) ++ "]"
  | JDict d =>
      "{" ++ join ", "
        ((fix items (d : list (string * json)) : list string :=
            match d with
            | [] => []
            | (k, x) :: d' => (repr_str k ++ ": " ++ py_repr x) :: items d'
            end) d) ++ "}"
  end.

Definition py_str (v : json) : string :=
  match v with
  | JStr s => s
  | _ => py_repr v
  end.

(** Iterating a Python object with [for x in v]: the elements of a list,
    the keys of a dict, the characters of a string; anything else raises
    [TypeError] ([None]). *)
Fixpoint chars_of (s : string) : list json :=
  match s with
  | EmptyString => []
  | String c s' => JStr (String c EmptyString) :: chars_of s'
  end.

Definition py_iter (v : json) : option (list json) :=
  match v with
  | JList l => Some l
  | JDict d => Some (map (fun kv => JStr (fst kv)) d)
  | JStr s => Some (chars_of s)
  | _ => None
  end.

(* ================================================================= *)
(** ** Naive [datetime] values, calendar fields and formatting *)

Definition datetime : Type := Z.

Definition US_PER_SECOND : Z := 1000000.
Definition US_PER_DAY : Z := 86400 * US_PER_SECOND.

(** [timedelta(days=d, hours=h, seconds=s)] in microseconds. *)
Definition timedelta (days hours seconds : Z) : Z :=
  days * US_PER_DAY + (hours * 3600 + seconds) * US_PER_SECOND.

Definition is_leap (y : Z) : bool :=
  (y mod 4 =? 0) && (negb (y mod 100 =? 0) || (y mod 400 =? 0)).

Definition month_lengths (y : Z) : list Z :=
  [31; if is_leap y then 29 else 28; 31; 30; 31; 30; 31; 31; 30; 31; 30; 31].

Fixpoint sumZ (l : list Z) : Z :=
  match l with
  | [] => 0
  | x :: l' => x + sumZ l'
  end.

(** [calendar.monthrange(y, m)[1]] *)
Definition days_in_month (y m : Z) : Z :=
  nth (Z.to_nat (m - 1)) (month_lengths y) 0.

Definition days_before_year (y : Z) : Z :=
  let p := y - 1 in p * 365 + p / 4 - p / 100 + p / 400.

Definition days_before_month (y m : Z) : Z :=
  sumZ (firstn (Z.to_nat (m - 1)) (month_lengths y)).

(** Days from 0001-01-01 to the given date (the proleptic ordinal minus one). *)
Definition ymd2days (y m d : Z) : Z :=
  days_before_year y + days_before_month y m + (d - 1).

(** Walk the month table: [r] days into the year, starting at month [m]. *)
Fixpoint find_month (lens : list Z) (m r : Z) : Z * Z :=
  match lens with
  | [] => (m, r)
  | l :: rest => if r <? l then (m, r) else find_month rest (m + 1) (r - l)
  end.

(** The calendar date of a day count, by 400-, 100-, 4- and 1-year cycles. *)
Definition days2ymd (n : Z) : Z * Z * Z :=
  let n400 := n / 146097 in
  let r400 := n mod 146097 in
  let n100 := r400 / 36524 in
  let r100 := r400 mod 36524 in
  let n4 := r100 / 1461 in
  let r4 := r100 mod 1461 in
  let n1 := r4 / 365 in
  let r1 := r4 mod 365 in
  let y := 400 * n400 + 100 * n100 + 4 * n4 + n1 + 1 in
  if (n1 =? 4) || (n100 =? 4) then (y - 1, 12, 31)
  else let '(m, d0) := find_month (month_lengths y) 1 r1 in (y, m, d0 + 1).

Definition dt_days (t : datetime) : Z := t / US_PER_DAY.
Definition dt_year (t : datetime) : Z := fst (fst (days2ymd (dt_days t))).
Definition dt_month (t : datetime) : Z := snd (fst (days2ymd (dt_days t))).
Definition dt_day (t : datetime) : Z := snd (days2ymd (dt_days t)).
Definition dt_us_of_day (t : datetime) : Z := t mod US_PER_DAY.
Definition dt_hour (t : datetime) : Z := dt_us_of_day t / (3600 * US_PER_SECOND).
Definition dt_minute (t : datetime) : Z := (dt_us_of_day t / (60 * US_PER_SECOND)) mod 60.
Definition dt_second (t : datetime) : Z := (dt_us_of_day t / US_PER_SECOND) mod 60.
Definition dt_microsecond (t : datetime) : Z := t mod US_PER_SECOND.

(** [datetime.datetime(y, m, d, h, mi, s)].  Every call in the sources
    passes the fields of an existing [datetime] (or a month length), so
    the [ValueError] of an impossible date cannot occur. *)
Definition mk_datetime (y m d h mi s : Z) : datetime :=
  ymd2days y m d * US_PER_DAY + (h * 3600 + mi * 60 + s) * US_PER_SECOND.

(** [(a - b).days] and [(a - b).total_seconds()], the latter in
    microseconds: the sources only compare it with [86400]. *)
Definition td_days (delta : Z) : Z := delta / US_PER_DAY.

Fixpoint zeros (n : nat) : string :=
  match n with
  | O => EmptyString
  | S n' => String "0"%char (zeros n')
  end.

(** [s.rjust(width, '0')]: zeros in front, up to [width] characters. *)
Definition zero_pad (width : nat) (s : string) : string :=
  zeros (width - String.length s) ++ s.

Definition pad_num (width : nat) (z : Z) : string := zero_pad width (string_of_Z z).

(** [t.isoformat()] *)
Definition isoformat (t : datetime) : string :=
  pad_num 4 (dt_year t) ++ "-" ++ pad_num 2 (dt_month t) ++ "-" ++ pad_num 2 (dt_day t)
  ++ "T" ++ pad_num 2 (dt_hour t) ++ ":" ++ pad_num 2 (dt_minute t) ++ ":"
  ++ pad_num 2 (dt_second t)
  ++ (if dt_microsecond t =? 0 then "" else "." ++ pad_num 6 (dt_microsecond t)).

Definition month_names : list string :=
  ["January"; "February"; "March"; "April"; "May"; "June"; "July"; "August";
   "September"; "October"; "November"; "December"].

(** [t.strftime('%B')] *)
Definition month_name (t : datetime) : string :=
  nth (Z.to_nat (dt_month t - 1)) month_names "".

(** [t.strftime('%B %Y')] and [t.strftime('%B %d, %Y')].  [%d] has two
    digits; [%Y] is the year as the C library prints it, without leading
    zeros (glibc). *)
Definition strftime_B_Y (t : datetime) : string :=
  month_name t ++ " " ++ string_of_Z (dt_year t).
Definition strftime_B_d_Y (t : datetime) : string :=
  month_name t ++ " " ++ pad_num 2 (dt_day t) ++ ", " ++ string_of_Z (dt_year t).

(** 2024-04-15T10:30:00, used in the examples below. *)
Definition sample_now : datetime := mk_datetime 2024 4 15 10 30 0.

(* ================================================================= *)
(** ** Regular expressions: the fragment of [re] used by the patterns *)

Module Re.

(** A character is an [ascii]; the classes below are those of Python's
    [re] on characters of code below 128, the text the patterns of the
    agent are written for.  On other characters Python's [\w], [\s] and
    case folding follow Unicode; statements that depend on the class of
    a character are made for ASCII text. *)

Inductive charclass : Type :=
| CSpace            (* \s *)
| CDigit            (* \d *)
| CAlpha.           (* [A-Za-z] *)

Inductive regex : Type :=
| REps
| RChar (c : ascii)                 (* a literal, matched ignoring case *)
| RClass (p : charclass)
| RSeq (r1 r2 : regex)
| RAlt (r1 r2 : regex)              (* r1|r2, left first *)
| ROpt (r : regex)                  (* r?, greedy *)
| RPlus (p : charclass)             (* p+, greedy, over one class *)
| RWordB                            (* \b *)
| RGroup (n : nat) (r : regex).     (* the n-th capturing group *)

Definition code (c : ascii) : N := N_of_ascii c.

Definition is_upper (c : ascii) : bool := ((65 <=? code c) && (code c <=? 90))%N.
Definition is_lower (c : ascii) : bool := ((97 <=? code c) && (code c <=? 122))%N.
Definition is_digit (c : ascii) : bool := ((48 <=? code c) && (code c <=? 57))%N.
Definition is_space (c : ascii) : bool :=
  (((9 <=? code c) && (code c <=? 13)) || ((28 <=? code c) && (code c <=? 32)))%N.
(** \w *)
Definition is_word (c : ascii) : bool :=
  is_upper c || is_lower c || is_digit c || (code c =? 95)%N.

Definition lower (c : ascii) : ascii :=
  if is_upper c then ascii_of_N (code c + 32) else c.

Definition in_class (p : charclass) (c : ascii) : bool :=
  match p with
  | CSpace => is_space c
  | CDigit => is_digit c
  | CAlpha => is_upper c || is_lower c
  end.

(** A match object: the text of each group that took part, latest first. *)
Definition captures : Type := list (nat * string).

(** [m.group(n)] for a group that took part in the match. *)
Fixpoint group (n : nat) (m : captures) : option string :=
  match m with
  | [] => None
  | (i, s) :: m' => if Nat.eqb i n then Some s else group n m'
  end.

Definition cont : Type := option ascii -> list ascii -> captures -> option captures.

Definition word_before (prev : option ascii) : bool :=
  match prev with Some c => is_word c | None => false end.
Definition word_after (s : list ascii) : bool :=
  match s with c :: _ => is_word c | [] => false end.

(** The characters consumed between input [s] and its suffix [s']. *)
Definition consumed (s s' : list ascii) : string :=
  string_of_list_ascii (firstn (List.length s - List.length s') s).

(** Greedy repetition of a class, giving characters back on failure. *)
Fixpoint star (p : charclass) (prev : option ascii) (s : list ascii)
         (caps : captures) (k : cont) {struct s} : option captures :=
  match s with
  | c :: s' =>
      if in_class p c then
        match star p (Some c) s' caps k with
        | Some m => Some m
        | None => k prev s caps
        end
      else k prev s caps
  | [] => k prev s caps
  end.

(** Backtracking matcher in continuation style: [prev] is the character
    before the current position, [s] the rest of the input. *)
Fixpoint rmatch (r : regex) (prev : option ascii) (s : list ascii)
         (caps : captures) (k : cont) {struct r} : option captures :=
  match r with
  | REps => k prev s caps
  | RChar c =>
      match s with
      | x :: s' => if Ascii.eqb (lower x) (lower c) then k (Some x) s' caps else None
      | [] => None
      end
  | RClass p =>
      match s with
      | x :: s' => if in_class p x then k (Some x) s' caps else None
      | [] => None
      end
  | RSeq r1 r2 => rmatch r1 prev s caps (fun p' s' c' => rmatch r2 p' s' c' k)
  | RAlt r1 r2 =>
      match rmatch r1 prev s caps k with
      | Some m => Some m
      | None => rmatch r2 prev s caps k
      end
  | ROpt r1 =>
      match rmatch r1 prev s caps k with
      | Some m => Some m
      | None => k prev s caps
      end
  | RPlus p =>
      match s with
      | x :: s' => if in_class p x then star p (Some x) s' caps k else None
      | [] => None
      end
  | RWordB => if xorb (word_before prev) (word_after s) then k prev s caps else None
  | RGroup n r1 =>
      rmatch r1 prev s caps (fun p' s' c' => k p' s' ((n, consumed s s') :: c'))
  end.

(** Leftmost match: try each start position in turn. *)
Fixpoint search_from (r : regex) (prev : option ascii) (s : list ascii)
  : option captures :=
  match rmatch r prev s [] (fun _ _ m => Some m) with
  | Some m => Some m
  | None =>
      match s with
      | [] => None
      | c :: s' => search_from r (Some c) s'
      end
  end.

(** [re.search(pattern, query, re.IGNORECASE)] *)
Definition search (r : regex) (q : string) : option captures :=
  search_from r None (list_ascii_of_string q).

(** A literal word as a sequence of characters. *)
Fixpoint lit (s : string) : regex :=
  match s with
  | EmptyString => REps
  | String c EmptyString => RChar c
  | String c s' => RSeq (RChar c) (lit s')
  end.

Fixpoint seq (rs : list regex) : regex :=
  match rs with
  | [] => REps
  | [r] => r
  | r :: rs' => RSeq r (seq rs')
  end.

End Re.

Import Re.

(* ================================================================= *)
(** ** Records, the record store and the outside world *)

(** A flattened scenario, as [extract_scenario_details] builds it.  The
    three ids and the status go through [str()]; the names and the
    timestamp are stored as the upstream JSON has them. *)
Record scenario : Type := mkScenario {
  runId : string;
  scenarioId : string;
  scenarioName : json;
  flowId : string;
  flowName : json;
  processId : string;
  processName : json;
  createdTimestamp : json;
  rowRunStatus : string
}.

(** A row of table [scenarios]: a scenario and the local write time. *)
Record row : Type := mkRow {
  scen : scenario;
  last_updated_timestamp : datetime
}.

(** A clause of the query builder, in the order the calls are chained. *)
Inductive clause : Type :=
| Gte (column value : string)
| Lte (column value : string)
| Eq (column value : string)
| Order (column : string) (desc : bool)
| Limit (n : nat).

Definition query : Type := list clause.

(** What [supabase_query.execute()] gives: rows as dicts, or an exception
    with its message. *)
Inductive exec_result : Type :=
| ExecData (data : list pydict)
| ExecRaised (msg : string).

(** Calls that leave the process. *)
Inductive event : Type :=
| EvGetRuns
| EvGetReport (run_id : string)
| EvSelectLatest
| EvDelete (run_id : string)
| EvInsert (batch : list row) (accepted : bool)
| EvQuery (q : query).

Definition is_write (ev : event) : bool :=
  match ev with
  | EvDelete _ | EvInsert _ _ => true
  | _ => false
  end.

Definition is_query (ev : event) : bool :=
  match ev with
  | EvQuery _ => true
  | _ => false
  end.

(** What the program does not decide: the clock, the upstream API, the
    date parser of [dateutil], the read side of the store and the
    iteration order of a Python [set]. *)
Record env : Type := mkEnv {
  utc_clock : nat -> datetime;            (* n-th reading, in UTC *)
  utc_offset : Z;                         (* local time minus UTC *)
  runs_response : option json;            (* get_runs(); None on failure *)
  report_response : string -> option json;(* get_report_by_run_id(run_id) *)
  parser_parse : string -> option datetime; (* None: parser.parse raises *)
  execute : query -> list row -> exec_result;
  set_iter : list string -> list string   (* order of [for x in set(l)] *)
}.

(** The state threaded through a run: clock readings taken so far, the
    table, and the calls made (latest first). *)
Record world : Type := mkWorld {
  ticks : nat;
  store : list row;
  trace : list event
}.

Definition M (A : Type) : Type := world -> A * world.

Definition ret {A : Type} (a : A) : M A := fun w => (a, w).

Definition bind {A B : Type} (c : M A) (k : A -> M B) : M B :=
  fun w => let '(a, w') := c w in k a w'.

Declare Scope monad_scope.
Notation "x <- c ;; k" := (bind c (fun x => k))
  (at level 61, c at next level, right associativity) : monad_scope.
Notation "' pat <- c ;; k" := (bind c (fun x => let 'pat := x in k))
  (at level 61, pat pattern, c at next level, right associativity) : monad_scope.
Notation "c ;;; k" := (bind c (fun _ => k))
  (at level 61, right associativity) : monad_scope.
Local Open Scope monad_scope.

Definition emit (ev : event) : M unit :=
  fun w => (tt, mkWorld (ticks w) (store w) (ev :: trace w)).

Definition get_store : M (list row) := fun w => (store w, w).

Definition put_store (st : list row) : M unit :=
  fun w => (tt, mkWorld (ticks w) st (trace w)).

(** [datetime.datetime.utcnow()] and [datetime.datetime.now()] *)
Definition utcnow (e : env) : M datetime :=
  fun w => (utc_clock e (ticks w), mkWorld (S (ticks w)) (store w) (trace w)).

Definition now (e : env) : M datetime :=
  fun w => (utc_clock e (ticks w) + utc_offset e,
            mkWorld (S (ticks w)) (store w) (trace w)).

(** The result of a function that lets an exception escape. *)
Inductive outcome (A : Type) : Type :=
| Returned (a : A)
| Raised (exn : string).
Arguments Returned {A} a.
Arguments Raised {A} exn.

(* ================================================================= *)
(** ** [agents/filter_agent.py]: class [FilterAgent] *)

Definition time_range : Type := (option datetime * option datetime)%type.

(** The handlers get the match object; only the last one reads it. *)
Definition handler : Type := env -> captures -> M time_range.

Definition _get_today_range : handler := fun e _ =>
  now_ <- utcnow e ;;
  let start_time := mk_datetime (dt_year now_) (dt_month now_) (dt_day now_) 0 0 0 in
  let end_time := now_ in
  ret (Some start_time, Some end_time).

Definition _get_yesterday_range : handler := fun e _ =>
  now_ <- utcnow e ;;
  let yesterday := now_ - timedelta 1 0 0 in
  let start_time :=
    mk_datetime (dt_year yesterday) (dt_month yesterday) (dt_day yesterday) 0 0 0 in
  let end_time :=
    mk_datetime (dt_year yesterday) (dt_month yesterday) (dt_day yesterday) 23 59 59 in
  ret (Some start_time, Some end_time).

Definition _get_last_week_range : handler := fun e _ =>
  now_ <- utcnow e ;;
  let today_start := mk_datetime (dt_year now_) (dt_month now_) (dt_day now_) 0 0 0 in
  let start_time := today_start - timedelta 7 0 0 in
  let end_time := today_start - timedelta 0 0 1 in
  ret (Some start_time, Some end_time).

Definition _get_last_month_range : handler := fun e _ =>
  now_ <- utcnow e ;;
  let '(prev_month, prev_year) :=
    if dt_month now_ =? 1 then (12, dt_year now_ - 1)
    else (dt_month now_ - 1, dt_year now_) in
  let last_day := days_in_month prev_year prev_month in
  let start_time := mk_datetime prev_year prev_month 1 0 0 0 in
  let end_time := mk_datetime prev_year prev_month last_day 23 59 59 in
  ret (Some start_time, Some end_time).

Definition _get_last_24_hours_range : handler := fun e _ =>
  now_ <- utcnow e ;;
  let start_time := now_ - timedelta 0 24 0 in
  let end_time := now_ in
  ret (Some start_time, Some end_time).

(** The whole body is inside [try]: a group that is absent or a date
    text that [parser.parse] rejects ends in [return None, None]. *)
Definition _get_explicit_date_range : handler := fun e m =>
  match group 1 m, group 2 m with
  | Some start_date_str, Some end_date_str =>
      match parser_parse e start_date_str with
      | None => ret (None, None)
      | Some start_time =>
          match parser_parse e end_date_str with
          | None => ret (None, None)
          | Some end_time =>
              ret (Some (mk_datetime (dt_year start_time) (dt_month start_time)
                                     (dt_day start_time) 0 0 0),
                   Some (mk_datetime (dt_year end_time) (dt_month end_time)
                                     (dt_day end_time) 23 59 59))
          end
      end
  | _, _ => ret (None, None)
  end.

Definition ws : regex := RPlus CSpace.

(** [\btoday\b] and the like *)
Definition re_today : regex := seq [RWordB; lit "today"; RWordB].
Definition re_yesterday : regex := seq [RWordB; lit "yesterday"; RWordB].
Definition re_last_week : regex := seq [RWordB; lit "last"; ws; lit "week"; RWordB].
Definition re_last_month : regex := seq [RWordB; lit "last"; ws; lit "month"; RWordB].
Definition re_last_24_hours : regex :=
  seq [RWordB; lit "last"; ws; lit "24"; ws; lit "hours"; RWordB].

(** [[A-Za-z]+\s+\d{1,2}(?:st|nd|rd|th)?(?:,?\s+\d{4})?] *)
Definition re_date : regex :=
  seq [RPlus CAlpha; ws;
       RClass CDigit; ROpt (RClass CDigit);
       ROpt (RAlt (lit "st") (RAlt (lit "nd") (RAlt (lit "rd") (lit "th"))));
       ROpt (seq [ROpt (RChar ","); ws;
                  RClass CDigit; RClass CDigit; RClass CDigit; RClass CDigit])].

(** [from\s+(...)\s+to\s+(...)] *)
Definition re_explicit : regex :=
  seq [lit "from"; ws; RGroup 1 re_date; ws; lit "to"; ws; RGroup 2 re_date].

(** [self.time_patterns]: a dict literal, iterated in the order written. *)
Definition time_patterns : list (regex * handler) :=
  [ (re_today, _get_today_range);
    (re_yesterday, _get_yesterday_range);
    (re_last_week, _get_last_week_range);
    (re_last_month, _get_last_month_range);
    (re_last_24_hours, _get_last_24_hours_range);
    (re_explicit, _get_explicit_date_range) ].

Definition re_passed : regex := seq [RWordB; lit "passed"; RWordB].
Definition re_failed : regex := seq [RWordB; lit "failed"; RWordB].

Definition status_patterns : list (regex * string) :=
  [ (re_passed, "Passed"); (re_failed, "Failed") ].

Fixpoint first_time_match (e : env) (rules : list (regex * handler)) (q : string)
  : M time_range :=
  match rules with
  | [] => ret (None, None)
  | (pattern, func) :: rules' =>
      match search pattern q with
      | Some m => func e m
      | None => first_time_match e rules' q
      end
  end.

Definition _extract_time_filter (e : env) (q : string) : M time_range :=
  first_time_match e time_patterns q.

Fixpoint first_status_match (rules : list (regex * string)) (q : string)
  : option string :=
  match rules with
  | [] => None
  | (pattern, status) :: rules' =>
      match search pattern q with
      | Some _ => Some status
      | None => first_status_match rules' q
      end
  end.

Definition _extract_status_filter (q : string) : option string :=
  first_status_match status_patterns q.

(** [row.get(key, "")] for the nine display columns. *)
Definition format_row (r : pydict) : json :=
  JDict [ ("Run ID", dict_get "runId" (JStr "") r);
          ("Scenario ID", dict_get "scenarioId" (JStr "") r);
          ("Scenario", dict_get "scenarioName" (JStr "") r);
          ("Process ID", dict_get "processId" (JStr "") r);
          ("Process", dict_get "processName" (JStr "") r);
          ("Flow ID", dict_get "flowId" (JStr "") r);
          ("Flow", dict_get "flowName" (JStr "") r);
          ("Status", dict_get "rowRunStatus" (JStr "") r);
          ("Timestamp", dict_get "createdTimestamp" (JStr "") r) ].

Definition _format_results (results : list pydict) : list json :=
  map format_row results.

(** Truth value of an optional string ([if status:]). *)
Definition opt_str_truthy (s : option string) : bool :=
  match s with Some x => negb (String.eqb x "") | None => false end.

(** Truth value of an optional datetime: a [datetime] is always true. *)
Definition opt_dt_truthy (t : option datetime) : bool :=
  match t with Some _ => true | None => false end.

Definition _build_query (start_time end_time : option datetime)
           (status : option string) : query :=
  (match start_time with
   | Some t => [Gte "createdTimestamp" (isoformat t)]
   | None => []
   end ++
   match end_time with
   | Some t => [Lte "createdTimestamp" (isoformat t)]
   | None => []
   end ++
   match status with
   | Some st => if opt_str_truthy status then [Eq "rowRunStatus" st] else []
   | None => []
   end ++
   [Order "createdTimestamp" true] ++
   if negb (opt_dt_truthy start_time) && negb (opt_dt_truthy end_time)
   then [Limit 20] else [])%list.

(** The limit and the ordering a built query ends up with. *)
Fixpoint limit_of (q : query) : option nat :=
  match q with
  | [] => None
  | Limit n :: _ => Some n
  | _ :: q' => limit_of q'
  end.

Fixpoint order_of (q : query) : option (string * bool) :=
  match q with
  | [] => None
  | Order c d :: _ => Some (c, d)
  | _ :: q' => order_of q'
  end.

(** The time phrase of the "No scenarios found" message; each test reads
    the clock again. *)
Definition time_description (e : env) (start_time end_time : datetime) : M string :=
  t1 <- utcnow e ;;
  if dt_days start_time =? dt_days t1 then ret "today"
  else
    t2 <- utcnow e ;;
    if td_days (t2 - start_time) =? 1 then ret "yesterday"
    else
      t3 <- utcnow e ;;
      if td_days (t3 - start_time) =? 7 then ret "for the last week"
      else if (dt_day start_time =? 1) && (28 <? dt_day end_time)
      then ret ("for " ++ strftime_B_Y start_time)
      else
        t4 <- utcnow e ;;
        if t4 - start_time <=? 86400 * US_PER_SECOND then ret "in the last 24 hours"
        else ret ("between " ++ strftime_B_d_Y start_time ++ " and "
                             ++ strftime_B_d_Y end_time).

Definition no_results_message (e : env) (start_time end_time : option datetime)
           (status : option string) : M string :=
  let message := "No scenarios found" in
  let message :=
    match status with
    | Some st => if opt_str_truthy status
                 then message ++ " with status '" ++ st ++ "'" else message
    | None => message
    end in
  match start_time, end_time with
  | Some s, Some t =>
      d <- time_description e s t ;;
      ret (message ++ " " ++ d)
  | _, _ => ret message
  end.

(** [FilterAgent.process_query]; the result is the returned dict. *)
Definition agent_process_query (e : env) (q : string) : M pydict :=
  '(start_time, end_time) <- _extract_time_filter e q ;;
  let status := _extract_status_filter q in
  let supabase_query := _build_query start_time end_time status in
  st <- get_store ;;
  emit (EvQuery supabase_query) ;;;
  match execute e supabase_query st with
  | ExecRaised msg =>
      ret [ ("success", JBool false);
            ("message", JStr ("Error processing query: " ++ msg)) ]
  | ExecData results =>
      match results with
      | _ :: _ =>
          let formatted_results := _format_results results in
          ret [ ("success", JBool true);
                ("results", JList formatted_results);
                ("count", JInt (Z.of_nat (List.length formatted_results))) ]
      | [] =>
          message <- no_results_message e start_time end_time status ;;
          ret [ ("success", JBool false); ("message", JStr message) ]
      end
  end.

(* ================================================================= *)
(** ** [agents/scenario_data_fetcher.py] *)

(** [get_runs()] and [get_report_by_run_id(run_id)]: the request, and
    [None] when it fails. *)
Definition get_runs (e : env) : M (option json) :=
  emit EvGetRuns ;;; ret (runs_response e).

Definition get_report_by_run_id (e : env) (run_id : string) : M (option json) :=
  emit (EvGetReport run_id) ;;; ret (report_response e run_id).

Definition is_none (v : json) : bool :=
  match v with JNull => true | _ => false end.

(** [[str(item.get('runId')) for item in items if item.get('runId') is not None]];
    an item without [.get] raises [AttributeError]. *)
Fixpoint run_ids_of_items (items : list json) : outcome (list string) :=
  match items with
  | [] => Returned []
  | JDict item :: items' =>
      match run_ids_of_items items' with
      | Raised x => Raised x
      | Returned ids =>
          let run_id := dict_get "runId" JNull item in
          Returned (if is_none run_id then ids else py_str run_id :: ids)
      end
  | _ :: _ => Raised "AttributeError"
  end.

Definition extract_run_ids (api_response : json) : outcome (list string) :=
  if negb (py_truthy api_response) then Returned []
  else match api_response with
       | JDict d =>
           match dict_lookup "data" d with
           | Some items =>
               (* len(items), then the comprehension *)
               match py_iter items with
               | Some l => run_ids_of_items l
               | None => Raised "TypeError"
               end
           | None => Returned []
           end
       | JList l => run_ids_of_items l
       | _ => Returned []
       end.

(** [timestamp_map]: a later entry for the same run id replaces an
    earlier one, so new entries go in front. *)
Fixpoint timestamps_of_items (items : list json) (timestamp_map : pydict)
  : outcome pydict :=
  match items with
  | [] => Returned timestamp_map
  | JDict run_data :: items' =>
      let run_id := dict_get "runId" JNull run_data in
      let created_timestamp := dict_get "createdTimestamp" JNull run_data in
      timestamps_of_items items'
        (if negb (is_none run_id) && negb (is_none created_timestamp)
         then (py_str run_id, created_timestamp) :: timestamp_map
         else timestamp_map)
  | _ :: _ => Raised "AttributeError"
  end.

Definition get_run_timestamps (runs_response : json) : outcome pydict :=
  match runs_response with
  | JDict d =>
      match dict_lookup "data" d with
      | Some items =>
          match py_iter items with
          | Some l => timestamps_of_items l []
          | None => Raised "TypeError"
          end
      | None => Returned []
      end
  | _ => Returned []
  end.

(** The status of one scenario: from the first entry of [rowRunStatus]. *)
Definition status_value (scenario_ : pydict) : string :=
  match dict_get "rowRunStatus" (JDict []) scenario_ with
  | JDict ((first_row, v) :: rest) =>
      match dict_lookup first_row ((first_row, v) :: rest) with
      | Some x => if py_truthy x then "Passed" else "Failed"
      | None => "Failed"
      end
  | _ => ""
  end.

Definition scenario_record (run_id : string) (timestamp process_id process_name
                            flow_id flow_name : json) (scenario_ : pydict) : scenario :=
  {| runId := run_id;
     scenarioId := py_str (dict_get "scenarioId" (JStr "") scenario_);
     scenarioName := dict_get "scenarioName" (JStr "") scenario_;
     flowId := py_str flow_id;
     flowName := flow_name;
     processId := py_str process_id;
     processName := process_name;
     createdTimestamp := timestamp;
     rowRunStatus := status_value scenario_ |}.

(** The three nested loops.  Each returns the list built so far and
    whether an exception ended it ([.get] on something that is not a
    dict); the enclosing [try] then keeps what was appended before. *)
Fixpoint scenario_loop (run_id : string) (timestamp process_id process_name
                        flow_id flow_name : json)
         (scenario_details : list json) (scenarios : list scenario)
  : list scenario * bool :=
  match scenario_details with
  | [] => (scenarios, false)
  | JDict scenario_ :: rest =>
      scenario_loop run_id timestamp process_id process_name flow_id flow_name rest
        (scenarios ++ [scenario_record run_id timestamp process_id process_name
                                       flow_id flow_name scenario_])%list
  | _ :: _ => (scenarios, true)
  end.

Fixpoint flow_loop (run_id : string) (timestamp process_id process_name : json)
         (flows : list json) (scenarios : list scenario) : list scenario * bool :=
  match flows with
  | [] => (scenarios, false)
  | JDict flow :: rest =>
      let flow_id := dict_get "flowId" (JStr "") flow in
      let flow_name := dict_get "flowName" (JStr "") flow in
      match dict_lookup "scenarioRunDetails" flow with
      | Some (JList scenario_details) =>
          match scenario_loop run_id timestamp process_id process_name
                              flow_id flow_name scenario_details scenarios with
          | (scenarios', true) => (scenarios', true)
          | (scenarios', false) =>
              flow_loop run_id timestamp process_id process_name rest scenarios'
          end
      | _ => flow_loop run_id timestamp process_id process_name rest scenarios
      end
  | _ :: _ => (scenarios, true)
  end.

Fixpoint process_loop (run_id : string) (timestamp : json)
         (processes : list json) (scenarios : list scenario) : list scenario * bool :=
  match processes with
  | [] => (scenarios, false)
  | JDict process :: rest =>
      let process_id := dict_get "processId" (JStr "") process in
      let process_name := dict_get "processName" (JStr "") process in
      match dict_lookup "flows" process with
      | Some (JList flows) =>
          match flow_loop run_id timestamp process_id process_name flows scenarios with
          | (scenarios', true) => (scenarios', true)
          | (scenarios', false) => process_loop run_id timestamp rest scenarios'
          end
      | _ => process_loop run_id timestamp rest scenarios
      end
  | _ :: _ => (scenarios, true)
  end.

(** The traversal inside [try]: data -> processResults -> run_id ->
    processResults -> processes.  A level of the wrong shape either fails
    an [isinstance]/[in] test or raises inside the [try]; both leave
    [scenarios] empty. *)
Definition extract_body (run_id : string) (timestamp : json) (api_response : json)
  : list scenario :=
  match api_response with
  | JDict top =>
      match dict_lookup "data" top with
      | Some (JDict data) =>
          match dict_lookup "processResults" data with
          | Some (JDict process_results) =>
              match dict_lookup run_id process_results with
              | Some (JDict run_data) =>
                  match dict_lookup "processResults" run_data with
                  | Some processes =>
                      match py_iter processes with
                      | Some l => fst (process_loop run_id timestamp l [])
                      | None => []          (* TypeError, caught *)
                      end
                  | None => []
                  end
              | _ => []
              end
          | _ => []   (* absent; or a list, str, number: no key or TypeError *)
          end
      | _ => []
      end
  | _ => []
  end.

(** [created_timestamp] is the Python argument: [None] when it is not
    passed, and a JSON [null] is the same [None]. *)
Definition extract_scenario_details (e : env) (run_id : string) (api_response : json)
           (created_timestamp : option json) : M (list scenario) :=
  if negb (py_truthy api_response) then ret []
  else
    timestamp <- match created_timestamp with
                 | None | Some JNull => t <- now e ;; ret (JStr (isoformat t))
                 | Some ts => ret ts
                 end ;;
    ret (extract_body run_id timestamp api_response).

(** [timestamp_map.get(run_id)]: a stored [null] is [None] as well. *)
Definition timestamp_for (timestamp_map : pydict) (run_id : string) : option json :=
  match dict_lookup run_id timestamp_map with
  | Some JNull => None
  | r => r
  end.

Fixpoint fetch_loop (e : env) (timestamp_map : pydict) (run_ids : list string)
         (all_scenarios : list scenario) : M (list scenario) :=
  match run_ids with
  | [] => ret all_scenarios
  | run_id :: rest =>
      report_response <- get_report_by_run_id e run_id ;;
      match report_response with
      | None => fetch_loop e timestamp_map rest all_scenarios
      | Some report =>
          if negb (py_truthy report) then fetch_loop e timestamp_map rest all_scenarios
          else
            scenarios <- extract_scenario_details e run_id report
                           (timestamp_for timestamp_map run_id) ;;
            fetch_loop e timestamp_map rest (all_scenarios ++ scenarios)%list
      end
  end.

Definition fetch_all_scenarios (e : env) : M (outcome (list scenario)) :=
  runs_response <- get_runs e ;;
  match runs_response with
  | None => ret (Returned [])
  | Some runs =>
      if negb (py_truthy runs) then ret (Returned [])
      else
        match extract_run_ids runs with
        | Raised x => ret (Raised x)
        | Returned run_ids =>
            match get_run_timestamps runs with
            | Raised x => ret (Raised x)
            | Returned timestamp_map =>
                match run_ids with
                | [] => ret (Returned [])
                | _ :: _ =>
                    all_scenarios <- fetch_loop e timestamp_map run_ids [] ;;
                    ret (Returned all_scenarios)
                end
            end
        end
  end.

(* ================================================================= *)
(** ** [orchestrator.py] *)

(** *** The table [scenarios]

    The table is the list of its rows, with
    [PRIMARY KEY ("runId", "scenarioId")] as [create_table_sql] declares
    it: an [insert] that would repeat a key is refused as a whole and
    raises. *)

Definition key (r : row) : string * string := (runId (scen r), scenarioId (scen r)).

Definition key_eqb (a b : string * string) : bool :=
  String.eqb (fst a) (fst b) && String.eqb (snd a) (snd b).

Definition has_key (k : string * string) (l : list row) : bool :=
  existsb (fun r => key_eqb (key r) k) l.

Fixpoint keys_distinct (l : list row) : bool :=
  match l with
  | [] => true
  | r :: l' => negb (has_key (key r) l') && keys_distinct l'
  end.

Definition in_run (run_id : string) (r : row) : bool := String.eqb (runId (scen r)) run_id.

(** [.delete().eq('runId', run_id)] *)
Definition delete_run (run_id : string) (st : list row) : list row :=
  filter (fun r => negb (in_run run_id r)) st.

(** [.insert(batch)]: [None] when the primary key refuses the batch. *)
Definition insert_batch (batch st : list row) : option (list row) :=
  if keys_distinct batch && forallb (fun r => negb (has_key (key r) st)) batch
  then Some (st ++ batch)%list else None.

(** The rows of one run, in table order. *)
Definition rows_of (run_id : string) (st : list row) : list row :=
  filter (in_run run_id) st.

(** [.select('last_updated_timestamp').order(..., desc=True).limit(1)]:
    the greatest write time, if there is a row. *)
Fixpoint latest (st : list row) : option datetime :=
  match st with
  | [] => None
  | r :: st' =>
      match latest st' with
      | None => Some (last_updated_timestamp r)
      | Some t => Some (Z.max (last_updated_timestamp r) t)
      end
  end.

(** [l[i:i+size] for i in range(0, len(l), size)] *)
Fixpoint chunks_aux {A : Type} (fuel size : nat) (l : list A) : list (list A) :=
  match fuel with
  | O => []
  | S fuel' =>
      match l with
      | [] => []
      | _ :: _ => firstn size l :: chunks_aux fuel' size (skipn size l)
      end
  end.

Definition chunks {A : Type} (size : nat) (l : list A) : list (list A) :=
  chunks_aux (List.length l) size l.

Definition batch_size : nat := 50.

(** *** Database functions *)

Definition get_last_updated_timestamp : M (option datetime) :=
  emit EvSelectLatest ;;;
  st <- get_store ;;
  ret (latest st).

Definition store_delete (run_id : string) : M unit :=
  emit (EvDelete run_id) ;;;
  st <- get_store ;;
  put_store (delete_run run_id st).

(** One [insert]; [false] when it raises. *)
Definition store_insert (batch : list row) : M bool :=
  st <- get_store ;;
  match insert_batch batch st with
  | Some st' => emit (EvInsert batch true) ;;; put_store st' ;;; ret true
  | None => emit (EvInsert batch false) ;;; ret false
  end.

Fixpoint insert_batches (batches : list (list row)) : M bool :=
  match batches with
  | [] => ret true
  | batch :: rest =>
      ok <- store_insert batch ;;
      if ok then insert_batches rest else ret false
  end.

(** The body of [for run_id in run_ids]; the first exception leaves the
    loop for the [except] clause. *)
Fixpoint replace_loop (run_ids : list string) (scenario_data : list row) : M bool :=
  match run_ids with
  | [] => ret true
  | run_id :: rest =>
      store_delete run_id ;;;
      let run_scenarios := rows_of run_id scenario_data in
      ok <- insert_batches (chunks batch_size run_scenarios) ;;
      if ok then replace_loop rest scenario_data else ret false
  end.

(** A scenario as [insert_scenarios] sends it: [last_updated_timestamp]
    set to the time of the call.  ([createdTimestamp] is never a
    [datetime] object here, so it is sent as it is.) *)
Definition stamp (current_time : datetime) (s : scenario) : row :=
  {| scen := s; last_updated_timestamp := current_time |}.

(** [insert_scenarios(scenario_data)].  The text after "Error inserting
    scenarios: " is [str(e)] of the store's exception. *)
Definition insert_scenarios (e : env) (scenario_data : list scenario)
  : M (bool * string) :=
  current_time <- now e ;;
  let scenario_data' := map (stamp current_time) scenario_data in
  let run_ids := set_iter e (map runId scenario_data) in
  ok <- replace_loop run_ids scenario_data' ;;
  if ok
  then ret (true, "Successfully inserted "
                  ++ string_of_Z (Z.of_nat (List.length scenario_data))
                  ++ " scenarios")
  else ret (false, "Error inserting scenarios: duplicate key value").

(** *** Orchestration functions *)

Definition should_run_ingestion (e : env) : M bool :=
  last_updated <- get_last_updated_timestamp ;;
  match last_updated with
  | None => ret true
  | Some last =>
      now_ <- now e ;;
      let time_diff := now_ - last in
      (* time_diff.total_seconds() > 86400 *)
      ret (86400 * US_PER_SECOND <? time_diff)
  end.

Definition ingest_scenarios (e : env) : M (outcome bool) :=
  due <- should_run_ingestion e ;;
  if negb due then ret (Returned false)
  else
    fetched <- fetch_all_scenarios e ;;
    match fetched with
    | Raised x => ret (Raised x)
    | Returned all_scenarios =>
        match all_scenarios with
        | _ :: _ =>
            '(success, _) <- insert_scenarios e all_scenarios ;;
            ret (Returned success)
        | [] => ret (Returned false)
        end
    end.

Definition update_failed : pydict :=
  [ ("success", JBool false);
    ("message", JStr "Failed to update data from source. Please try again later.");
    ("count", JInt 0);
    ("results", JList []) ].

(** [process_query(query)] of the orchestrator.  [ingest_scenarios()] is
    called outside the [try], so what it raises escapes. *)
Definition process_query (e : env) (q : string) : M (outcome pydict) :=
  due <- should_run_ingestion e ;;
  if due then
    ingested <- ingest_scenarios e ;;
    match ingested with
    | Raised x => ret (Raised x)
    | Returned false => ret (Returned update_failed)
    | Returned true =>
        result <- agent_process_query e q ;;
        ret (Returned result)
    end
  else
    result <- agent_process_query e q ;;
    ret (Returned result).

(** *** The loops read on the table alone

    The same loops as functions of the table, without the trace; the
    lemmas below relate them to the monadic ones. *)

Fixpoint insert_batches_on (batches : list (list row)) (st : list row)
  : list row * bool :=
  match batches with
  | [] => (st, true)
  | batch :: rest =>
      match insert_batch batch st with
      | Some st' => insert_batches_on rest st'
      | None => (st, false)
      end
  end.

Definition replace_run_on (run_id : string) (scenario_data st : list row)
  : list row * bool :=
  insert_batches_on (chunks batch_size (rows_of run_id scenario_data))
                    (delete_run run_id st).

Fixpoint replace_loop_on (run_ids : list string) (scenario_data st : list row)
  : list row * bool :=
  match run_ids with
  | [] => (st, true)
  | run_id :: rest =>
      match replace_run_on run_id scenario_data st with
      | (st', true) => replace_loop_on rest scenario_data st'
      | (st', false) => (st', false)
      end
  end.

(* ================================================================= *)
(** ** A concrete environment for the examples *)

Fixpoint take_while (p : ascii -> bool) (l : list ascii) : list ascii :=
  match l with
  | c :: l' => if p c then c :: take_while p l' else []
  | [] => []
  end.

Fixpoint drop_while (p : ascii -> bool) (l : list ascii) : list ascii :=
  match l with
  | c :: l' => if p c then drop_while p l' else l
  | [] => []
  end.

Definition digits_value (l : list ascii) : Z :=
  fold_left (fun acc c => 10 * acc + (Z.of_N (Re.code c) - 48)) l 0.

Definition lower_string (l : list ascii) : string :=
  string_of_list_ascii (map Re.lower l).

Fixpoint month_index (names : list string) (m : Z) (w : string) : option Z :=
  match names with
  | [] => None
  | name :: names' =>
      let full := lower_string (list_ascii_of_string name) in
      if String.eqb w full || String.eqb w (substring 0 3 full)
      then Some m else month_index names' (m + 1) w
  end.

Definition is_alpha (c : ascii) : bool := Re.in_class CAlpha c.

(** A date parser for texts of the shape the explicit pattern captures,
    "<month name> <day>[st|nd|rd|th][[,] <year>]", with 2024 as the
    default year; it rejects unknown month names and impossible days, as
    [parser.parse] does by raising. *)
Definition sample_parse (s : string) : option datetime :=
  let cs := list_ascii_of_string s in
  let word := take_while is_alpha cs in
  let rest := drop_while Re.is_space (drop_while is_alpha cs) in
  let day := take_while Re.is_digit rest in
  let rest := drop_while is_alpha (drop_while Re.is_digit rest) in
  let rest := drop_while Re.is_space
                (drop_while (fun c => Ascii.eqb c ","%char) rest) in
  let year := take_while Re.is_digit rest in
  match month_index month_names 1 (lower_string word) with
  | None => None
  | Some m =>
      let y := match year with [] => 2024 | _ => digits_value year end in
      let d := digits_value day in
      if (1 <=? d) && (d <=? days_in_month y m)
      then Some (mk_datetime y m d 0 0 0) else None
  end.

(** First occurrences, in order: one possible iteration order of a set. *)
Fixpoint dedup (l : list string) : list string :=
  match l with
  | [] => []
  | x :: l' => x :: filter (fun y => negb (String.eqb y x)) (dedup l')
  end.

(** A report whose run entry holds the given process list. *)
Definition report_with_processes (run_id : string) (processes : json) : json :=
  JDict [("data", JDict [("processResults", JDict [(run_id,
    JDict [("processResults", processes)])])])].

Definition process_with_flows (flows : list json) : json :=
  JDict [("processId", JInt 7); ("processName", JStr "Billing"); ("flows", JList flows)].

Definition flow_with_scenarios (scenario_entries : list json) : json :=
  JDict [("flowId", JInt 3); ("flowName", JStr "Invoice");
         ("scenarioRunDetails", JList scenario_entries)].

(** A report with one process, one flow and the given scenario entries. *)
Definition report_of (run_id : string) (scenario_entries : list json) : json :=
  report_with_processes run_id
    (JList [process_with_flows [flow_with_scenarios scenario_entries]]).

Definition scenario_entry (id : Z) (name : string) (row_status : json) : json :=
  JDict [("scenarioId", JInt id); ("scenarioName", JStr name);
         ("rowRunStatus", row_status)].

Definition sample_runs : json :=
  JDict [("data", JList [
    JDict [("runId", JInt 101); ("createdTimestamp", JStr "2024-04-14T08:00:00")];
    JDict [("runId", JInt 102); ("createdTimestamp", JStr "2024-04-15T08:00:00")]])].

Definition sample_report (run_id : string) : option json :=
  if String.eqb run_id "101"
  then Some (report_of "101" [scenario_entry 1 "login" (JDict [("0", JBool true)]);
                              scenario_entry 2 "logout" (JDict [("0", JBool false)])])
  else if String.eqb run_id "102"
  then Some (report_of "102" [scenario_entry 1 "login" (JDict [("0", JBool true)])])
  else None.

(** The clock advances one second per reading, from [sample_now]. *)
Definition sample_env : env :=
  {| utc_clock := fun n => sample_now + Z.of_nat n * US_PER_SECOND;
     utc_offset := 0;
     runs_response := Some sample_runs;
     report_response := sample_report;
     parser_parse := sample_parse;
     execute := fun _ _ => ExecData [];
     set_iter := dedup |}.

(** The same environment with the run listing unreachable. *)
Definition offline_env : env :=
  {| utc_clock := utc_clock sample_env;
     utc_offset := 0;
     runs_response := None;
     report_response := sample_report;
     parser_parse := sample_parse;
     execute := fun _ _ => ExecData [];
     set_iter := dedup |}.

(** A row written at the given time, and a world holding such rows. *)
Definition sample_scenario (run_id scenario_id : string) : scenario :=
  {| runId := run_id; scenarioId := scenario_id; scenarioName := JStr "login";
     flowId := "3"; flowName := JStr "Invoice";
     processId := "7"; processName := JStr "Billing";
     createdTimestamp := JStr "2024-04-14T08:00:00"; rowRunStatus := "Passed" |}.

Definition world_with (rows : list row) : world :=
  {| ticks := 0; store := rows; trace := [] |}.

Definition empty_world : world := {| ticks := 0; store := []; trace := [] |}.

(** *** Which rule a query selects *)

Definition matches (r : regex) (q : string) : bool :=
  match search r q with Some _ => true | None => false end.

(** One of the five phrase rules tested before the explicit range. *)
Definition relative_rule_matches (q : string) : bool :=
  existsb (fun r => matches r q)
          [re_today; re_yesterday; re_last_week; re_last_month; re_last_24_hours].

(** The two dates of an explicit range, when both texts parse. *)
Definition explicit_dates (e : env) (q : string) : option (datetime * datetime) :=
  match search re_explicit q with
  | Some m =>
      match group 1 m, group 2 m with
      | Some s1, Some s2 =>
          match parser_parse e s1, parser_parse e s2 with
          | Some d1, Some d2 => Some (d1, d2)
          | _, _ => None
          end
      | _, _ => None
      end
  | None => None
  end.

(** *** Relations between the world before and after a computation *)

(** [c] takes every world to one related to it by [R]. *)
Definition keeps {A : Type} (R : world -> world -> Prop) (c : M A) : Prop :=
  forall w, R w (snd (c w)).

(** No query was executed in between. *)
Definition same_queries (w w' : world) : Prop :=
  filter is_query (trace w') = filter is_query (trace w).

(** Nothing was written in between. *)
Definition no_write (w w' : world) : Prop :=
  store w' = store w /\ filter is_write (trace w') = filter is_write (trace w).

(** *** One run's replacement, seen from the run

    What the inserts of one run leave of its rows, starting from a table
    without rows of that run, and whether all of them went through. *)

Definition run_outcome (run_id : string) (scenario_data : list row) : list row * bool :=
  insert_batches_on (chunks batch_size (rows_of run_id scenario_data)) [].

(** The same row written at another time. *)
Definition restamp (t : datetime) (r : row) : row := stamp t (scen r).

(** The scenarios of run [r'] after the loop over [ids], from the
    scenarios [v] it had before: [rows r] are the rows the loop leaves for
    run [r] and [ok r] tells whether its inserts went through. *)
Fixpoint view_after (r' : string) (rows : string -> list scenario)
         (ok : string -> bool) (ids : list string) (v : list scenario)
  : list scenario :=
  match ids with
  | [] => v
  | r :: ids' =>
      let v' := if String.eqb r' r then rows r else v in
      if ok r then view_after r' rows ok ids' v' else v'
  end.

(** *** Queries that differ in letter case only *)

Definition same_up_to_case (q1 q2 : string) : Prop :=
  map Re.lower (list_ascii_of_string q1) = map Re.lower (list_ascii_of_string q2).

Definition found (o : option captures) : bool :=
  match o with Some _ => true | None => false end.

(** *** Reports whose entries are all objects *)

Definition is_dict (v : json) : bool :=
  match v with JDict _ => true | _ => false end.

Definition dict_of (v : json) : pydict :=
  match v with JDict d => d | _ => [] end.

(** The records of one flow and of one process, entry by entry. *)
Definition records_of_flow (run_id : string) (timestamp process_id process_name : json)
           (flow : pydict) : list scenario :=
  match dict_lookup "scenarioRunDetails" flow with
  | Some (JList scenario_details) =>
      map (fun entry =>
             scenario_record run_id timestamp process_id process_name
               (dict_get "flowId" (JStr "") flow) (dict_get "flowName" (JStr "") flow)
               (dict_of entry))
          scenario_details
  | _ => []
  end.

Definition records_of_process (run_id : string) (timestamp : json) (process : pydict)
  : list scenario :=
  match dict_lookup "flows" process with
  | Some (JList flows) =>
      flat_map (fun flow =>
                  records_of_flow run_id timestamp
                    (dict_get "processId" (JStr "") process)
                    (dict_get "processName" (JStr "") process) (dict_of flow))
               flows
  | _ => []
  end.

Definition well_formed_flow (flow : json) : bool :=
  match flow with
  | JDict f =>
      match dict_lookup "scenarioRunDetails" f with
      | Some (JList scenario_details) => forallb is_dict scenario_details
      | _ => true
      end
  | _ => false
  end.

Definition well_formed_process (process : json) : bool :=
  match process with
  | JDict p =>
      match dict_lookup "flows" p with
      | Some (JList flows) => forallb well_formed_flow flows
      | _ => true
      end
  | _ => false
  end.

(** What every flattened record of a run carries. *)
Definition record_of_run (run_id : string) (timestamp : json) (s : scenario) : Prop :=
  runId s = run_id /\ createdTimestamp s = timestamp /\
  (rowRunStatus s = "Passed" \/ rowRunStatus s = "Failed" \/ rowRunStatus s = "").

(** Continuations that agree, in finding a match, on inputs equal up to
    case and on any captures. *)
Definition cont_case (k k' : cont) : Prop :=
  forall p p' s s' c c',
    option_map Re.lower p = option_map Re.lower p' ->
    map Re.lower s = map Re.lower s' ->
    found (k p s c) = found (k' p' s' c').

(** A run whose report was fetched and is not empty. *)
Definition report_fetched (e : env) (run_id : string) : Prop :=
  exists report, report_response e run_id = Some report /\ py_truthy report = true.

(** *** Records without a repeated (runId, scenarioId) *)

Definition scenario_keys_distinct (scenario_data : list scenario) : bool :=
  keys_distinct (map (stamp 0) scenario_data).

(** The records of one run among the collected ones. *)
Definition scenarios_of (run_id : string) (scenario_data : list scenario)
  : list scenario :=
  filter (fun s => String.eqb (runId s) run_id) scenario_data.

(** *** Computations that only read the clock *)

Definition only_ticks (w w' : world) : Prop :=
  store w' = store w /\ trace w' = trace w.

(** *** A word standing on its own in a query *)

(** The character before the position reached after reading [pre]. *)
Definition prev_after (prev : option ascii) (pre : list ascii) : option ascii :=
  fold_left (fun _ c => Some c) pre prev.

(** [q] reads, up to letter case, [pre ++ word ++ post] with no word
    character next to [word] on either side. *)
Definition has_whole_word (word : string) (q : string) : Prop :=
  exists pre post,
    map Re.lower (list_ascii_of_string q)
    = map Re.lower (pre ++ list_ascii_of_string word ++ post)%list
    /\ word_before (prev_after None pre) = false
    /\ word_after post = false.

(** *** The timestamp a run's records are stamped with *)

(** The timestamp handed in for the run, or the local time of the call
    when none is (absent, or a JSON [null]). *)
Definition effective_timestamp (e : env) (created_timestamp : option json) (w : world)
  : json :=
  match created_timestamp with
  | None | Some JNull => JStr (isoformat (utc_clock e (ticks w) + utc_offset e))
  | Some ts => ts
  end.

(** *** A report read in document order

    The scenario entries of a process list in the order of the document,
    each with the flow and the process it stands in.  [Bad] marks a
    process, flow or scenario entry that is not an object: the place
    where [.get] raises. *)

Inductive item (A : Type) : Type :=
| Good (a : A)
| Bad.
Arguments Good {A} a.
Arguments Bad {A}.

Definition item_map {A B : Type} (f : A -> B) (i : item A) : item B :=
  match i with
  | Good a => Good (f a)
  | Bad => Bad
  end.

(** What stands before the first [Bad], and whether there is one. *)
Fixpoint before_bad {A : Type} (l : list (item A)) : list A * bool :=
  match l with
  | [] => ([], false)
  | Bad :: _ => ([], true)
  | Good a :: l' => let '(r, b) := before_bad l' in (a :: r, b)
  end.

Definition item_of_entry (entry : json) : item pydict :=
  match entry with
  | JDict d => Good d
  | _ => Bad
  end.

(** (flow, entry) for the entries of one flow. *)
Definition items_of_flow (flow : json) : list (item (pydict * pydict)) :=
  match flow with
  | JDict f =>
      match dict_lookup "scenarioRunDetails" f with
      | Some (JList scenario_details) =>
          map (fun entry => item_map (fun d => (f, d)) (item_of_entry entry))
              scenario_details
      | _ => []
      end
  | _ => [Bad]
  end.

(** (process, flow, entry) for the entries of one process. *)
Definition items_of_process (process : json)
  : list (item (pydict * (pydict * pydict))) :=
  match process with
  | JDict p =>
      match dict_lookup "flows" p with
      | Some (JList flows) =>
          map (item_map (fun fe => (p, fe))) (flat_map items_of_flow flows)
      | _ => []
      end
  | _ => [Bad]
  end.

(** The entries that are flattened: those before the first element that
    is not an object. *)
Definition flattened (processes : list json) : list (pydict * (pydict * pydict)) :=
  fst (before_bad (flat_map items_of_process processes)).

Definition record_in_flow (run_id : string) (timestamp process_id process_name : json)
           (fe : pydict * pydict) : scenario :=
  scenario_record run_id timestamp process_id process_name
    (dict_get "flowId" (JStr "") (fst fe)) (dict_get "flowName" (JStr "") (fst fe))
    (snd fe).

Definition record_of_entry (run_id : string) (timestamp : json)
           (pfe : pydict * (pydict * pydict)) : scenario :=
  record_in_flow run_id timestamp
    (dict_get "processId" (JStr "") (fst pfe))
    (dict_get "processName" (JStr "") (fst pfe)) (snd pfe).

(** The process list of a report, reached through
    data -> processResults -> run id -> processResults; empty when a
    level is missing or cannot be iterated. *)
Definition processes_of (run_id : string) (api_response : json) : list json :=
  match api_response with
  | JDict top =>
      match dict_lookup "data" top with
      | Some (JDict data) =>
          match dict_lookup "processResults" data with
          | Some (JDict process_results) =>
              match dict_lookup run_id process_results with
              | Some (JDict run_data) =>
                  match dict_lookup "processResults" run_data with
                  | Some processes =>
                      match py_iter processes with
                      | Some l => l
                      | None => []
                      end
                  | None => []
                  end
              | _ => []
              end
          | _ => []
          end
      | _ => []
      end
  | _ => []
  end.

(** The status of a scenario entry as its first [rowRunStatus] row says:
    [true] is [Passed], [false] is [Failed], any other value by its
    truth; no first row, no status. *)
Definition first_row_status (entry : pydict) : string :=
  match dict_lookup "rowRunStatus" entry with
  | Some (JDict ((_, JBool true) :: _)) => "Passed"
  | Some (JDict ((_, JBool false) :: _)) => "Failed"
  | Some (JDict ((_, v) :: _)) => if py_truthy v then "Passed" else "Failed"
  | _ => ""
  end.

(** *** The parts of the "No scenarios found" message *)

Definition status_phrase (status : option string) : string :=
  match status with
  | Some st => " with status '" ++ st ++ "'"
  | None => ""
  end.

(** The six time phrases with their tests, in the order they are tried;
    [clock k] is the [k]-th reading of the UTC clock made for the
    message (each test that needs the time reads it anew). *)
Definition time_phrases (clock : nat -> datetime) (s t : datetime)
  : list (bool * string) :=
  [ (dt_days s =? dt_days (clock 0%nat), " today");
    (td_days (clock 1%nat - s) =? 1, " yesterday");
    (td_days (clock 2%nat - s) =? 7, " for the last week");
    ((dt_day s =? 1) && (28 <? dt_day t), " for " ++ strftime_B_Y s);
    (clock 3%nat - s <=? 86400 * US_PER_SECOND, " in the last 24 hours") ].

Fixpoint first_phrase (phrases : list (bool * string)) (otherwise : string)
  : string :=
  match phrases with
  | [] => otherwise
  | (test, phrase) :: rest => if test then phrase else first_phrase rest otherwise
  end.

(** The time part of the message: the first phrase whose test holds, or
    the two dates; nothing unless both bounds are present.  The readings
    of the clock are those from the state [w] on. *)
Definition time_phrase (e : env) (w : world) (start_time end_time : option datetime)
  : string :=
  match start_time, end_time with
  | Some s, Some t =>
      first_phrase (time_phrases (fun k => utc_clock e (k + ticks w)%nat) s t)
                   (" between " ++ strftime_B_d_Y s ++ " and " ++ strftime_B_d_Y t)
  | _, _ => ""
  end.

(** *** Text within ASCII

    On such text the character classes of the patterns are those of
    Python's [re]; beyond it Python's classes follow Unicode. *)
Definition ascii_text (q : string) : Prop :=
  Forall (fun c => (Re.code c < 128)%N) (list_ascii_of_string q).

(** An environment whose run listing has [null] for [data]. *)
Definition null_listing_env : env :=
  {| utc_clock := utc_clock sample_env;
     utc_offset := 0;
     runs_response := Some (JDict [("data", JNull)]);
     report_response := sample_report;
     parser_parse := sample_parse;
     execute := fun _ _ => ExecData [];
     set_iter := dedup |}.

(** [run_scheduled_job()]: the scheduler's call of [ingest_scenarios()],
    inside a [try] whose handler logs what was raised; it returns [None]
    either way. *)
Definition run_scheduled_job (e : env) : M (outcome unit) :=
  success <- ingest_scenarios e ;;
  match success with
  | Returned _ => ret (Returned tt)
  | Raised _ => ret (Returned tt)
  end.

(* ================================================================= *)
(** * Properties *)

(** ** Sanity checks of the embedding *)

Example isoformat_sample : isoformat sample_now = "2024-04-15T10:30:00".
Proof. vm_compute. reflexivity. Qed.

Example days2ymd_leap_end : days2ymd (ymd2days 2024 12 31) = (2024, 12, 31).
Proof. vm_compute. reflexivity. Qed.

Example days2ymd_cycle_end : days2ymd 146096 = (400, 12, 31).
Proof. vm_compute. reflexivity. Qed.

Example search_today : search re_today "What failed TODAY?" <> None.
Proof. vm_compute. discriminate. Qed.

Example search_explicit :
  search re_explicit "Show me scenarios from April 1 to April 10"
  = Some [(2%nat, "April 10"); (1%nat, "April 1")].
Proof. vm_compute. reflexivity. Qed.

Example search_explicit_year :
  search re_explicit "from march 3rd, 2023   to May 21st 2023 please"
  = Some [(2%nat, "May 21st 2023"); (1%nat, "march 3rd, 2023")].
Proof. vm_compute. reflexivity. Qed.

Example search_word_boundary : search re_today "todays" = None.
Proof. vm_compute. reflexivity. Qed.

Example sample_parse_april : sample_parse "April 10" = Some (mk_datetime 2024 4 10 0 0 0).
Proof. vm_compute. reflexivity. Qed.

Example sample_parse_bad : sample_parse "Foo 1" = None.
Proof. vm_compute. reflexivity. Qed.

Example extract_explicit :
  fst (_extract_time_filter sample_env "from April 1 to April 10" empty_world)
  = (Some (mk_datetime 2024 4 1 0 0 0), Some (mk_datetime 2024 4 10 23 59 59)).
Proof. vm_compute. reflexivity. Qed.

Example extract_yesterday :
  fst (_extract_time_filter sample_env "Show me all failed scenarios from yesterday"
         empty_world)
  = (Some (mk_datetime 2024 4 14 0 0 0), Some (mk_datetime 2024 4 14 23 59 59)).
Proof. vm_compute. reflexivity. Qed.

Example fetch_sample :
  match fst (fetch_all_scenarios sample_env empty_world) with
  | Returned l => map (fun s => (runId s, scenarioId s, rowRunStatus s)) l
  | Raised _ => []
  end = [("101", "1", "Passed"); ("101", "2", "Failed"); ("102", "1", "Passed")].
Proof. vm_compute. reflexivity. Qed.

(* ================================================================= *)
(** ** The calendar: [days2ymd] inverts [ymd2days] *)

Lemma find_month_spec : forall lens m r m' d0,
  0 <= r < sumZ lens ->
  (forall l, In l lens -> 0 < l) ->
  find_month lens m r = (m', d0) ->
  m <= m' < m + Z.of_nat (List.length lens) /\
  0 <= d0 < nth (Z.to_nat (m' - m)) lens 0 /\
  sumZ (firstn (Z.to_nat (m' - m)) lens) + d0 = r.
Proof.
  induction lens as [|l lens IH]; intros m r m' d0 Hr Hpos Hf.
  - simpl in Hr. lia.
  - simpl in Hf. destruct (r <? l) eqn:E.
    + inversion Hf; subst. apply Z.ltb_lt in E.
      replace (m' - m') with 0 by lia. simpl. split; [lia|]. split; lia.
    + apply Z.ltb_ge in E.
      assert (Hl : 0 < l) by (apply Hpos; left; reflexivity).
      apply IH in Hf; [| simpl in Hr; lia | intros; apply Hpos; right; assumption].
      destruct Hf as (H1 & H2 & H3).
      replace (Z.to_nat (m' - m)) with (S (Z.to_nat (m' - (m + 1)))) by lia.
      simpl. split; [cbn [List.length]; lia|]. split; [assumption | lia].
Qed.

Lemma days_before_year_cycles : forall a b c d,
  0 <= b <= 3 -> 0 <= c <= 24 -> 0 <= d <= 3 ->
  days_before_year (400 * a + 100 * b + 4 * c + d + 1)
  = 146097 * a + 36524 * b + 1461 * c + 365 * d.
Proof.
  intros a b c d Hb Hc Hd. unfold days_before_year.
  replace (400 * a + 100 * b + 4 * c + d + 1 - 1) with (400 * a + 100 * b + 4 * c + d) by lia.
  Z.div_mod_to_equations. lia.
Qed.

Lemma is_leap_cycles : forall a b c d,
  0 <= b <= 3 -> 0 <= c <= 24 -> 0 <= d <= 3 ->
  is_leap (400 * a + 100 * b + 4 * c + d + 1)
  = (d =? 3) && (negb (c =? 24) || (b =? 3)).
Proof.
  intros a b c d Hb Hc Hd. unfold is_leap.
  set (y := 400 * a + 100 * b + 4 * c + d + 1).
  assert (E4 : (y mod 4 =? 0) = (d =? 3)).
  { apply eq_true_iff_eq. rewrite !Z.eqb_eq. subst y.
    split; intro; Z.div_mod_to_equations; lia. }
  assert (E100 : (y mod 100 =? 0) = (d =? 3) && (c =? 24)).
  { apply eq_true_iff_eq. rewrite andb_true_iff, !Z.eqb_eq. subst y.
    split; intro; Z.div_mod_to_equations; lia. }
  assert (E400 : (y mod 400 =? 0) = (d =? 3) && (c =? 24) && (b =? 3)).
  { apply eq_true_iff_eq. rewrite !andb_true_iff, !Z.eqb_eq. subst y.
    split; intro; Z.div_mod_to_equations; lia. }
  rewrite E4, E100, E400.
  destruct (d =? 3), (c =? 24), (b =? 3); reflexivity.
Qed.

Lemma sum_month_lengths : forall y, sumZ (month_lengths y) = if is_leap y then 366 else 365.
Proof. intros y. unfold month_lengths. destruct (is_leap y); reflexivity. Qed.

Lemma month_lengths_pos : forall y l, In l (month_lengths y) -> 0 < l.
Proof.
  intros y l H. unfold month_lengths in H. destruct (is_leap y); simpl in H;
    repeat (destruct H as [H | H]; [subst; lia |]); contradiction.
Qed.

Theorem days2ymd_spec : forall n,
  let '(y, m, d) := days2ymd n in
  1 <= m <= 12 /\ 1 <= d <= days_in_month y m /\ ymd2days y m d = n.
Proof.
  intros n. unfold days2ymd.
  set (a := n / 146097). set (r400 := n mod 146097).
  set (b := r400 / 36524). set (r100 := r400 mod 36524).
  set (c := r100 / 1461). set (r4 := r100 mod 1461).
  set (d := r4 / 365). set (r1 := r4 mod 365).
  assert (Hn : n = 146097 * a + r400 /\ 0 <= r400 < 146097)
    by (subst a r400; Z.div_mod_to_equations; lia).
  assert (H400 : r400 = 36524 * b + r100 /\ 0 <= r100 < 36524 /\ 0 <= b <= 4)
    by (subst b r100; Z.div_mod_to_equations; lia).
  assert (H100 : r100 = 1461 * c + r4 /\ 0 <= r4 < 1461 /\ 0 <= c <= 24)
    by (subst c r4; Z.div_mod_to_equations; lia).
  assert (H4 : r4 = 365 * d + r1 /\ 0 <= r1 < 365 /\ 0 <= d <= 4)
    by (subst d r1; Z.div_mod_to_equations; lia).
  clearbody a r400 b r100 c r4 d r1.
  destruct ((d =? 4) || (b =? 4)) eqn:Esp.
  - (* last day of a leap year *)
    assert (Hy : exists a' b' c', 0 <= b' <= 3 /\ 0 <= c' <= 24 /\
              400 * a + 100 * b + 4 * c + d + 1 - 1 = 400 * a' + 100 * b' + 4 * c' + 3 + 1 /\
              (c' <> 24 \/ b' = 3) /\
              n = 146097 * a' + 36524 * b' + 1461 * c' + 365 * 3 + 365).
    { apply orb_true_iff in Esp. destruct Esp as [E | E]; apply Z.eqb_eq in E.
      - exists a, b, c. assert (b <= 3) by lia. assert (c <= 23) by lia. lia.
      - exists a, 3, 24. lia. }
    destruct Hy as (a' & b' & c' & Hb' & Hc' & Hy & Hlp & Hn').
    rewrite Hy. unfold ymd2days, days_in_month, days_before_month.
    rewrite days_before_year_cycles by lia.
    unfold month_lengths. rewrite is_leap_cycles by lia.
    replace ((3 =? 3) && (negb (c' =? 24) || (b' =? 3))) with true.
    2:{ simpl. destruct Hlp as [H | H].
        - apply Z.eqb_neq in H. rewrite H. reflexivity.
        - subst. rewrite orb_true_r. reflexivity. }
    change (Z.to_nat (12 - 1)) with 11%nat. cbn [nth firstn sumZ]. lia.
  - apply orb_false_iff in Esp. destruct Esp as [Ed Eb].
    apply Z.eqb_neq in Ed. apply Z.eqb_neq in Eb.
    set (y := 400 * a + 100 * b + 4 * c + d + 1).
    destruct (find_month (month_lengths y) 1 r1) as [m d0] eqn:Ef.
    apply find_month_spec in Ef.
    2:{ rewrite sum_month_lengths. destruct (is_leap y); lia. }
    2:{ apply month_lengths_pos. }
    destruct Ef as (Hm & Hd0 & Hsum).
    replace (Z.of_nat (List.length (month_lengths y))) with 12 in Hm by reflexivity.
    unfold ymd2days, days_in_month, days_before_month.
    split; [lia|]. split; [lia|].
    assert (Hy : days_before_year y = 146097 * a + 36524 * b + 1461 * c + 365 * d)
      by (subst y; apply days_before_year_cycles; lia).
    rewrite Hy. lia.
Qed.

Lemma mk_datetime_midnight : forall t,
  mk_datetime (dt_year t) (dt_month t) (dt_day t) 0 0 0 = dt_days t * US_PER_DAY.
Proof.
  intros t. unfold mk_datetime, dt_year, dt_month, dt_day.
  pose proof (days2ymd_spec (dt_days t)) as H.
  destruct (days2ymd (dt_days t)) as [[y m] d]. simpl.
  destruct H as (_ & _ & H). rewrite H. lia.
Qed.

Lemma mk_datetime_end_of_day : forall t,
  mk_datetime (dt_year t) (dt_month t) (dt_day t) 23 59 59
  = dt_days t * US_PER_DAY + 86399 * US_PER_SECOND.
Proof.
  intros t. unfold mk_datetime, dt_year, dt_month, dt_day.
  pose proof (days2ymd_spec (dt_days t)) as H.
  destruct (days2ymd (dt_days t)) as [[y m] d]. simpl.
  destruct H as (_ & _ & H). rewrite H. lia.
Qed.

Lemma midnight_le : forall t, dt_days t * US_PER_DAY <= t.
Proof.
  intros t. unfold dt_days, US_PER_DAY, US_PER_SECOND.
  Z.div_mod_to_equations. lia.
Qed.

Lemma dt_days_mul : forall n, dt_days (n * US_PER_DAY) = n.
Proof.
  intros n. unfold dt_days, US_PER_DAY, US_PER_SECOND.
  Z.div_mod_to_equations. lia.
Qed.

Lemma dt_month_range : forall t, 1 <= dt_month t <= 12.
Proof.
  intros t. unfold dt_month.
  pose proof (days2ymd_spec (dt_days t)) as H.
  destruct (days2ymd (dt_days t)) as [[y m] d]. simpl. tauto.
Qed.

Lemma days_in_month_ge_28 : forall y m, 1 <= m <= 12 -> 28 <= days_in_month y m.
Proof.
  intros y m Hm. unfold days_in_month, month_lengths.
  assert (H : exists k, (k < 12)%nat /\ Z.to_nat (m - 1) = k)
    by (exists (Z.to_nat (m - 1)); lia).
  destruct H as (k & Hk & ->).
  do 12 (destruct k as [|k]; [destruct (is_leap y); simpl; lia|]). lia.
Qed.

(* ================================================================= *)
(** ** Time filter extraction *)

Lemma first_time_match_skip : forall e before rest q,
  (forall r, In r before -> search (fst r) q = None) ->
  first_time_match e (before ++ rest) q = first_time_match e rest q.
Proof.
  induction before as [|[pat h] before IH]; intros rest q Hnone.
  - reflexivity.
  - cbn [app first_time_match].
    pose proof (Hnone (pat, h) (or_introl eq_refl)) as Hp.
    cbn [fst] in Hp. rewrite Hp.
    apply IH. intros r Hr. apply Hnone. right. assumption.
Qed.

Lemma first_time_match_first : forall e before pat h after q m,
  (forall r, In r before -> search (fst r) q = None) ->
  search pat q = Some m ->
  first_time_match e (before ++ (pat, h) :: after) q = h e m.
Proof.
  intros e before pat h after q m Hnone Hm.
  rewrite first_time_match_skip by assumption.
  cbn [first_time_match]. rewrite Hm. reflexivity.
Qed.

Ltac search_cases q :=
  destruct (search re_today q) eqn:Etoday;
  [| destruct (search re_yesterday q) eqn:Eyesterday;
     [| destruct (search re_last_week q) eqn:Eweek;
        [| destruct (search re_last_month q) eqn:Emonth;
           [| destruct (search re_last_24_hours q) eqn:Eday ]]]].

(** The rule that answers, case by case. *)
Lemma first_match_cases : forall (e : env) (q : string),
  (forall m, search re_today q = Some m ->
     _extract_time_filter e q = _get_today_range e m) /\
  (forall m, search re_today q = None -> search re_yesterday q = Some m ->
     _extract_time_filter e q = _get_yesterday_range e m) /\
  (forall m, search re_today q = None -> search re_yesterday q = None ->
     search re_last_week q = Some m ->
     _extract_time_filter e q = _get_last_week_range e m) /\
  (forall m, search re_today q = None -> search re_yesterday q = None ->
     search re_last_week q = None -> search re_last_month q = Some m ->
     _extract_time_filter e q = _get_last_month_range e m) /\
  (forall m, search re_today q = None -> search re_yesterday q = None ->
     search re_last_week q = None -> search re_last_month q = None ->
     search re_last_24_hours q = Some m ->
     _extract_time_filter e q = _get_last_24_hours_range e m) /\
  (forall m, search re_today q = None -> search re_yesterday q = None ->
     search re_last_week q = None -> search re_last_month q = None ->
     search re_last_24_hours q = None -> search re_explicit q = Some m ->
     _extract_time_filter e q = _get_explicit_date_range e m) /\
  (search re_today q = None -> search re_yesterday q = None ->
     search re_last_week q = None -> search re_last_month q = None ->
     search re_last_24_hours q = None -> search re_explicit q = None ->
     _extract_time_filter e q = ret (None, None)).
Proof.
  intros e q. unfold _extract_time_filter, time_patterns.
  repeat split; intros; cbn [first_time_match];
    repeat match goal with H : search _ q = _ |- _ => rewrite H; clear H end;
    reflexivity.
Qed.

(** C6.  The phrase rules are tested in the order today, yesterday, last
    week, last month, last 24 hours, explicit range, and the first one
    that matches decides the range, whatever later rules match too. *)
Theorem rule_precedence : forall (e : env) (q : string),
  (forall m, search re_today q = Some m ->
     _extract_time_filter e q = _get_today_range e m) /\
  (forall m, search re_today q = None -> search re_yesterday q = Some m ->
     _extract_time_filter e q = _get_yesterday_range e m) /\
  (forall m, search re_today q = None -> search re_yesterday q = None ->
     search re_last_week q = Some m ->
     _extract_time_filter e q = _get_last_week_range e m) /\
  (forall m, search re_today q = None -> search re_yesterday q = None ->
     search re_last_week q = None -> search re_last_month q = Some m ->
     _extract_time_filter e q = _get_last_month_range e m) /\
  (forall m, search re_today q = None -> search re_yesterday q = None ->
     search re_last_week q = None -> search re_last_month q = None ->
     search re_last_24_hours q = Some m ->
     _extract_time_filter e q = _get_last_24_hours_range e m) /\
  (forall m, search re_today q = None -> search re_yesterday q = None ->
     search re_last_week q = None -> search re_last_month q = None ->
     search re_last_24_hours q = None -> search re_explicit q = Some m ->
     _extract_time_filter e q = _get_explicit_date_range e m) /\
  (search re_today q = None -> search re_yesterday q = None ->
     search re_last_week q = None -> search re_last_month q = None ->
     search re_last_24_hours q = None -> search re_explicit q = None ->
     _extract_time_filter e q = ret (None, None)).
Proof.
  intros e q. unfold _extract_time_filter.
  repeat split; intros.
  - apply (first_time_match_first e [] re_today _get_today_range); [| assumption].
    intros r [].
  - apply (first_time_match_first e (firstn 1 time_patterns)
             re_yesterday _get_yesterday_range); [| assumption].
    intros r [Hr | []]; subst r; assumption.
  - apply (first_time_match_first e (firstn 2 time_patterns)
             re_last_week _get_last_week_range); [| assumption].
    intros r [Hr | [Hr | []]]; subst r; assumption.
  - apply (first_time_match_first e (firstn 3 time_patterns)
             re_last_month _get_last_month_range); [| assumption].
    intros r [Hr | [Hr | [Hr | []]]]; subst r; assumption.
  - apply (first_time_match_first e (firstn 4 time_patterns)
             re_last_24_hours _get_last_24_hours_range); [| assumption].
    intros r [Hr | [Hr | [Hr | [Hr | []]]]]; subst r; assumption.
  - apply (first_time_match_first e (firstn 5 time_patterns)
             re_explicit _get_explicit_date_range); [| assumption].
    intros r [Hr | [Hr | [Hr | [Hr | [Hr | []]]]]]; subst r; assumption.
  - rewrite <- (app_nil_r time_patterns).
    rewrite first_time_match_skip; [reflexivity |].
    intros r [Hr | [Hr | [Hr | [Hr | [Hr | [Hr | []]]]]]]; subst r; assumption.
Qed.

(** A query with both "today" and "last week": the today rule decides. *)
Lemma rule_precedence_witness :
  search re_today "what failed today and last week" = Some [] /\
  search re_last_week "what failed today and last week" = Some [] /\
  _extract_time_filter sample_env "what failed today and last week"
  = _get_today_range sample_env [].
Proof.
  split; [reflexivity|]. split; [reflexivity|].
  apply (proj1 (rule_precedence sample_env "what failed today and last week")).
  reflexivity.
Defined.

(** The texts captured by the explicit pattern need not be dates, and a
    query can match an earlier rule as well. *)
Example explicit_capture_unparsed :
  search re_explicit "today from Foo 1 to Bar 2" = Some [(2%nat, "Bar 2"); (1%nat, "Foo 1")].
Proof. vm_compute. reflexivity. Qed.

(** C9, as stated, fails: the query below matches the explicit pattern
    with date texts that do not parse, and also contains "today", so the
    today rule answers with a present range. *)
Lemma unparsed_range_counterexample :
  ~ (forall (e : env) (q : string) (w : world) m s1 s2,
       search re_explicit q = Some m ->
       group 1 m = Some s1 -> group 2 m = Some s2 ->
       parser_parse e s1 = None \/ parser_parse e s2 = None ->
       fst (_extract_time_filter e q w) = (None, None)).
Proof.
  intros H.
  specialize (H sample_env "today from Foo 1 to Bar 2" empty_world
                [(2%nat, "Bar 2"); (1%nat, "Foo 1")] "Foo 1" "Bar 2"
                eq_refl eq_refl eq_refl (or_introl eq_refl)).
  vm_compute in H. discriminate H.
Qed.

(** C9, amended.  When none of the five earlier phrase rules matches and
    the explicit pattern matches with a date text that cannot be parsed,
    extraction returns the absent range, reads no clock and raises
    nothing. *)
Theorem unparsed_range_is_absent :
  forall (e : env) (q : string) m s1 s2,
    relative_rule_matches q = false ->
    search re_explicit q = Some m ->
    group 1 m = Some s1 -> group 2 m = Some s2 ->
    parser_parse e s1 = None \/ parser_parse e s2 = None ->
    forall w, _extract_time_filter e q w = ((None, None), w).
Proof.
  intros e q m s1 s2 Hrel Hm H1 H2 Hparse w.
  unfold relative_rule_matches, matches in Hrel. cbn [existsb] in Hrel.
  search_cases q; try discriminate Hrel.
  rewrite (proj1 (proj2 (proj2 (proj2 (proj2 (proj2
            (first_match_cases e q)))))) m) by assumption.
  unfold _get_explicit_date_range. rewrite H1, H2.
  destruct Hparse as [Hp | Hp].
  - rewrite Hp. reflexivity.
  - rewrite Hp. destruct (parser_parse e s1); reflexivity.
Qed.

Lemma unparsed_range_is_absent_witness :
  _extract_time_filter sample_env "scenarios from Foo 1 to April 2" empty_world
  = ((None, None), empty_world).
Proof.
  apply (unparsed_range_is_absent sample_env "scenarios from Foo 1 to April 2"
           [(2%nat, "April 2"); (1%nat, "Foo 1")] "Foo 1" "April 2").
  - reflexivity.
  - reflexivity.
  - reflexivity.
  - reflexivity.
  - left. reflexivity.
Defined.

(** The five relative handlers return a present, ordered range. *)
Lemma today_range_ordered : forall e m w s t,
  fst (_get_today_range e m w) = (Some s, Some t) -> s <= t.
Proof.
  intros e m w s t H. unfold _get_today_range, bind, utcnow, ret in H.
  cbn [fst] in H. inversion H; subst. rewrite mk_datetime_midnight. apply midnight_le.
Qed.

Lemma yesterday_range_ordered : forall e m w s t,
  fst (_get_yesterday_range e m w) = (Some s, Some t) -> s <= t.
Proof.
  intros e m w s t H. unfold _get_yesterday_range, bind, utcnow, ret in H.
  cbn [fst] in H. inversion H; subst.
  rewrite mk_datetime_midnight, mk_datetime_end_of_day.
  unfold US_PER_SECOND. lia.
Qed.

Lemma last_week_range_ordered : forall e m w s t,
  fst (_get_last_week_range e m w) = (Some s, Some t) -> s <= t.
Proof.
  intros e m w s t H. unfold _get_last_week_range, bind, utcnow, ret in H.
  cbn [fst] in H. inversion H; subst.
  unfold timedelta, US_PER_DAY, US_PER_SECOND. lia.
Qed.

Lemma last_month_range_ordered : forall e m w s t,
  fst (_get_last_month_range e m w) = (Some s, Some t) -> s <= t.
Proof.
  intros e m w s t H. unfold _get_last_month_range, bind, utcnow, ret in H.
  set (now_ := utc_clock e (ticks w)) in H.
  pose proof (dt_month_range now_) as Hm.
  assert (Hlast : forall y mo, 1 <= mo <= 12 ->
            mk_datetime y mo 1 0 0 0 <= mk_datetime y mo (days_in_month y mo) 23 59 59).
  { intros y mo Hmo. pose proof (days_in_month_ge_28 y mo Hmo).
    unfold mk_datetime, ymd2days, US_PER_DAY, US_PER_SECOND. lia. }
  destruct (dt_month now_ =? 1) eqn:E; cbn [fst] in H; inversion H; subst.
  - apply Hlast. lia.
  - apply Z.eqb_neq in E. apply Hlast. lia.
Qed.

Lemma last_24_hours_range_ordered : forall e m w s t,
  fst (_get_last_24_hours_range e m w) = (Some s, Some t) -> s <= t.
Proof.
  intros e m w s t H. unfold _get_last_24_hours_range, bind, utcnow, ret in H.
  cbn [fst] in H. inversion H; subst.
  unfold timedelta, US_PER_DAY, US_PER_SECOND. lia.
Qed.

(** C2, as stated, fails: "from April 10 to April 1" gives the range from
    April 10, 00:00:00 to April 1, 23:59:59. *)
Lemma reversed_range_counterexample :
  ~ (forall (e : env) (q : string) (w : world) s t,
       fst (_extract_time_filter e q w) = (Some s, Some t) -> s <= t).
Proof.
  intros H.
  specialize (H sample_env "from April 10 to April 1" empty_world
                (mk_datetime 2024 4 10 0 0 0) (mk_datetime 2024 4 1 23 59 59) eq_refl).
  vm_compute in H. apply H. reflexivity.
Qed.

(** C2, amended.  A present range that comes from one of the five
    relative rules satisfies [start <= end].  A present range from the
    explicit rule starts at 00:00:00 of the first parsed date and ends at
    23:59:59 of the second, so it satisfies [start <= end] exactly when
    the first date is not after the second. *)
Theorem range_ordered_by_rule :
  forall (e : env) (q : string) (w : world) s t,
    fst (_extract_time_filter e q w) = (Some s, Some t) ->
    if relative_rule_matches q then s <= t
    else exists d1 d2,
        explicit_dates e q = Some (d1, d2) /\
        s = dt_days d1 * US_PER_DAY /\
        t = dt_days d2 * US_PER_DAY + 86399 * US_PER_SECOND /\
        (s <= t <-> dt_days d1 <= dt_days d2).
Proof.
  intros e q w s t H.
  pose proof (first_match_cases e q) as (P1 & P2 & P3 & P4 & P5 & P6 & P7).
  unfold relative_rule_matches, matches. cbn [existsb].
  search_cases q; cbn [orb].
  - rewrite (P1 _ eq_refl) in H. eapply today_range_ordered; eassumption.
  - rewrite (P2 _ eq_refl eq_refl) in H. eapply yesterday_range_ordered; eassumption.
  - rewrite (P3 _ eq_refl eq_refl eq_refl) in H.
    eapply last_week_range_ordered; eassumption.
  - rewrite (P4 _ eq_refl eq_refl eq_refl eq_refl) in H.
    eapply last_month_range_ordered; eassumption.
  - rewrite (P5 _ eq_refl eq_refl eq_refl eq_refl eq_refl) in H.
    eapply last_24_hours_range_ordered; eassumption.
  - unfold explicit_dates.
    destruct (search re_explicit q) as [m|] eqn:Em.
    + rewrite (P6 _ eq_refl eq_refl eq_refl eq_refl eq_refl eq_refl) in H.
      unfold _get_explicit_date_range in H.
      destruct (group 1 m) as [s1|]; [| discriminate H].
      destruct (group 2 m) as [s2|]; [| discriminate H].
      destruct (parser_parse e s1) as [d1|]; [| discriminate H].
      destruct (parser_parse e s2) as [d2|]; [| discriminate H].
      unfold ret in H. cbn [fst] in H. inversion H; subst.
      exists d1, d2. rewrite mk_datetime_midnight, mk_datetime_end_of_day.
      repeat split; try reflexivity; unfold US_PER_DAY, US_PER_SECOND; intros; lia.
    + rewrite (P7 eq_refl eq_refl eq_refl eq_refl eq_refl eq_refl) in H.
      discriminate H.
Qed.

Lemma range_ordered_by_rule_witness :
  mk_datetime 2024 4 14 0 0 0 <= mk_datetime 2024 4 14 23 59 59.
Proof.
  apply (range_ordered_by_rule sample_env "all failed scenarios from yesterday"
           empty_world (mk_datetime 2024 4 14 0 0 0) (mk_datetime 2024 4 14 23 59 59)).
  vm_compute. reflexivity.
Defined.

(** Extraction returns both bounds or none. *)
Lemma extract_time_filter_both_or_none : forall e q w,
  fst (_extract_time_filter e q w) = (None, None) \/
  exists s t, fst (_extract_time_filter e q w) = (Some s, Some t).
Proof.
  intros e q w.
  pose proof (first_match_cases e q) as (P1 & P2 & P3 & P4 & P5 & P6 & P7).
  search_cases q.
  - rewrite (P1 _ eq_refl). right. eexists _, _. reflexivity.
  - rewrite (P2 _ eq_refl eq_refl). right. eexists _, _. reflexivity.
  - rewrite (P3 _ eq_refl eq_refl eq_refl). right. eexists _, _. reflexivity.
  - rewrite (P4 _ eq_refl eq_refl eq_refl eq_refl). right.
    unfold _get_last_month_range, bind, utcnow, ret.
    destruct (dt_month (utc_clock e (ticks w)) =? 1); eexists _, _; reflexivity.
  - rewrite (P5 _ eq_refl eq_refl eq_refl eq_refl eq_refl). right.
    eexists _, _. reflexivity.
  - destruct (search re_explicit q) as [m|] eqn:Em.
    + rewrite (P6 _ eq_refl eq_refl eq_refl eq_refl eq_refl eq_refl).
      unfold _get_explicit_date_range.
      destruct (group 1 m); [| left; reflexivity].
      destruct (group 2 m); [| left; reflexivity].
      destruct (parser_parse e s); [| left; reflexivity].
      destruct (parser_parse e s0); [| left; reflexivity].
      right. eexists _, _. reflexivity.
    + rewrite (P7 eq_refl eq_refl eq_refl eq_refl eq_refl eq_refl).
      left. reflexivity.
Qed.

(* ================================================================= *)
(** ** Query plan and result shape *)

(** C7.  The built query has [limit(20)] exactly when neither bound of a
    time range is given, has no limit otherwise, and is always ordered by
    [createdTimestamp] descending. *)
Theorem limit_only_without_range :
  forall (start_time end_time : option datetime) (status : option string),
    limit_of (_build_query start_time end_time status)
    = match start_time, end_time with
      | None, None => Some 20%nat
      | _, _ => None
      end
    /\ order_of (_build_query start_time end_time status)
       = Some ("createdTimestamp", true).
Proof.
  intros start_time end_time status. unfold _build_query.
  destruct start_time as [s|], end_time as [t|]; cbn [opt_dt_truthy negb andb].
  - destruct status as [st|]; [destruct (opt_str_truthy (Some st)) |];
      split; reflexivity.
  - destruct status as [st|]; [destruct (opt_str_truthy (Some st)) |];
      split; reflexivity.
  - destruct status as [st|]; [destruct (opt_str_truthy (Some st)) |];
      split; reflexivity.
  - destruct status as [st|]; [destruct (opt_str_truthy (Some st)) |];
      split; reflexivity.
Qed.

(** The plan [process_query] builds from a query string. *)
Lemma plan_of_query_limit : forall e q w,
  let r := fst (_extract_time_filter e q w) in
  limit_of (_build_query (fst r) (snd r) (_extract_status_filter q))
  = match fst r with None => Some 20%nat | Some _ => None end.
Proof.
  intros e q w r.
  destruct (extract_time_filter_both_or_none e q w) as [H | (s & t & H)];
    subst r; rewrite H; cbn [fst snd].
  - unfold _build_query. destruct (_extract_status_filter q) as [st|];
      [destruct (opt_str_truthy (Some st)) |]; reflexivity.
  - unfold _build_query. destruct (_extract_status_filter q) as [st|];
      [destruct (opt_str_truthy (Some st)) |]; reflexivity.
Qed.

Lemma no_results_message_prefix : forall e s t status w,
  exists rest, fst (no_results_message e s t status w) = "No scenarios found" ++ rest.
Proof.
  intros e s t status w. unfold no_results_message.
  set (message := match status with
                  | Some st => if opt_str_truthy status
                               then "No scenarios found" ++ " with status '" ++ st ++ "'"
                               else "No scenarios found"
                  | None => "No scenarios found"
                  end).
  assert (Hm : exists r, message = "No scenarios found" ++ r).
  { subst message. destruct status as [st|].
    - destruct (opt_str_truthy (Some st)).
      + eexists. reflexivity.
      + exists "". reflexivity.
    - exists "". reflexivity. }
  destruct Hm as (r & Hm). rewrite Hm.
  destruct s as [s|]; [destruct t as [t|] |].
  - unfold bind, ret. destruct (time_description e s t w) as [d w'].
    cbn [fst]. exists (r ++ " " ++ d). reflexivity.
  - exists r. reflexivity.
  - exists r. reflexivity.
Qed.

(* ================================================================= *)
(** ** Flattening a report *)

Lemma dict_lookup_head : forall k v d, dict_lookup k ((k, v) :: d) = Some v.
Proof. intros k v d. cbn [dict_lookup]. rewrite String.eqb_refl. reflexivity. Qed.

Lemma status_value_first_row : forall scenario_,
  status_value scenario_
  = match dict_lookup "rowRunStatus" scenario_ with
    | Some (JDict ((_, v) :: _)) => if py_truthy v then "Passed" else "Failed"
    | _ => ""
    end.
Proof.
  intros scenario_. unfold status_value, dict_get.
  destruct (dict_lookup "rowRunStatus" scenario_) as [[ | | | | | | [|[k v] rest]]|];
    try reflexivity.
  rewrite dict_lookup_head. reflexivity.
Qed.

Lemma extract_body_report_with_processes : forall run_id ts processes,
  extract_body run_id ts (report_with_processes run_id processes)
  = match py_iter processes with
    | Some l => fst (process_loop run_id ts l [])
    | None => []
    end.
Proof.
  intros run_id ts processes. unfold extract_body, report_with_processes.
  cbn [dict_lookup String.eqb Ascii.eqb Bool.eqb].
  rewrite String.eqb_refl. reflexivity.
Qed.

Example status_passed :
  map rowRunStatus
    (fst (extract_scenario_details sample_env "9"
            (report_of "9" [scenario_entry 1 "login" (JDict [("0", JBool true)])])
            (Some (JStr "2024-04-14T08:00:00")) empty_world))
  = ["Passed"].
Proof. vm_compute. reflexivity. Qed.

Example status_failed :
  map rowRunStatus
    (fst (extract_scenario_details sample_env "9"
            (report_of "9" [scenario_entry 1 "login"
                              (JDict [("0", JBool false); ("1", JBool true)])])
            (Some (JStr "2024-04-14T08:00:00")) empty_world))
  = ["Failed"].
Proof. vm_compute. reflexivity. Qed.

Example status_empty :
  map rowRunStatus
    (fst (extract_scenario_details sample_env "9"
            (report_of "9" [scenario_entry 1 "login" (JDict [])])
            (Some (JStr "2024-04-14T08:00:00")) empty_world))
  = [""].
Proof. vm_compute. reflexivity. Qed.


(* ================================================================= *)
(** ** The staleness gate *)

(** [latest] is the greatest write time in the table. *)
Lemma latest_is_max : forall st t,
  latest st = Some t ->
  (exists r, In r st /\ last_updated_timestamp r = t) /\
  (forall r, In r st -> last_updated_timestamp r <= t).
Proof.
  induction st as [|r st IH]; intros t H.
  - discriminate H.
  - cbn [latest] in H. destruct (latest st) as [t'|] eqn:E.
    + inversion H; subst. destruct (IH t' eq_refl) as ((r' & Hin & Hr') & Hmax). split.
      * destruct (Z.max_spec (last_updated_timestamp r) t') as [[_ Hm] | [_ Hm]];
          rewrite Hm.
        -- exists r'. split; [right; assumption | assumption].
        -- exists r. split; [left; reflexivity | reflexivity].
      * intros x [Hx | Hx].
        -- subst. lia.
        -- specialize (Hmax x Hx). lia.
    + inversion H; subst. destruct st as [|r' st'].
      * split.
        -- exists r. split; [left; reflexivity | reflexivity].
        -- intros x [Hx | []]. subst. lia.
      * cbn [latest] in E. destruct (latest st'); discriminate E.
Qed.

Lemma latest_none : forall st, latest st = None <-> st = [].
Proof.
  intros [|r st]; split; intros H; try reflexivity; try discriminate H.
  cbn [latest] in H. destruct (latest st); discriminate H.
Qed.

(** The gate as a function of the table and the clock. *)
Lemma should_run_ingestion_eq : forall e w,
  fst (should_run_ingestion e w)
  = match latest (store w) with
    | None => true
    | Some t => 86400 * US_PER_SECOND <? utc_clock e (ticks w) + utc_offset e - t
    end.
Proof.
  intros e w. unfold should_run_ingestion, get_last_updated_timestamp, bind, emit,
    get_store, ret. cbn [fst snd store ticks].
  destruct (latest (store w)); reflexivity.
Qed.

(** C3.  [should_run_ingestion] is true on an empty table, true when the
    freshest [last_updated_timestamp] is 25 hours before the clock
    reading, and false when it is 1 hour before. *)
Theorem staleness_gate :
  forall (e : env) (w : world),
    let now_ := utc_clock e (ticks w) + utc_offset e in
    (store w = [] -> fst (should_run_ingestion e w) = true) /\
    (latest (store w) = Some (now_ - timedelta 0 25 0) ->
       fst (should_run_ingestion e w) = true) /\
    (latest (store w) = Some (now_ - timedelta 0 1 0) ->
       fst (should_run_ingestion e w) = false).
Proof.
  intros e w now_. rewrite should_run_ingestion_eq. repeat split; intros H.
  - rewrite H. reflexivity.
  - rewrite H. subst now_. apply Z.ltb_lt.
    unfold timedelta, US_PER_DAY, US_PER_SECOND. lia.
  - rewrite H. subst now_. apply Z.ltb_ge.
    unfold timedelta, US_PER_DAY, US_PER_SECOND. lia.
Qed.

Lemma staleness_gate_witness :
  fst (should_run_ingestion sample_env empty_world) = true /\
  fst (should_run_ingestion sample_env
         (world_with [stamp (sample_now - timedelta 2 0 0) (sample_scenario "101" "1");
                      stamp (sample_now - timedelta 0 25 0) (sample_scenario "101" "2")]))
  = true /\
  fst (should_run_ingestion sample_env
         (world_with [stamp (sample_now - timedelta 0 1 0) (sample_scenario "101" "1");
                      stamp (sample_now - timedelta 0 25 0) (sample_scenario "101" "2")]))
  = false.
Proof.
  split; [| split].
  - apply (proj1 (staleness_gate sample_env empty_world)). reflexivity.
  - apply (proj1 (proj2 (staleness_gate sample_env _))). vm_compute. reflexivity.
  - apply (proj2 (proj2 (staleness_gate sample_env _))). vm_compute. reflexivity.
Defined.

(* ================================================================= *)
(** ** What a pass leaves untouched *)

Lemma bind_fst : forall {A B} (c : M A) (k : A -> M B) w,
  fst (bind c k w) = fst (k (fst (c w)) (snd (c w))).
Proof. intros A B c k w. unfold bind. destruct (c w). reflexivity. Qed.

Lemma bind_snd : forall {A B} (c : M A) (k : A -> M B) w,
  snd (bind c k w) = snd (k (fst (c w)) (snd (c w))).
Proof. intros A B c k w. unfold bind. destruct (c w). reflexivity. Qed.

Section Preservation.

Variable R : world -> world -> Prop.
Hypothesis R_refl : forall w, R w w.
Hypothesis R_trans : forall w1 w2 w3, R w1 w2 -> R w2 w3 -> R w1 w3.

Lemma keeps_ret : forall {A} (a : A), keeps R (ret a).
Proof. intros A a w. apply R_refl. Qed.

Lemma keeps_bind : forall {A B} (c : M A) (k : A -> M B),
  keeps R c -> (forall a, keeps R (k a)) -> keeps R (bind c k).
Proof.
  intros A B c k Hc Hk w. rewrite bind_snd.
  eapply R_trans; [apply Hc | apply Hk].
Qed.

End Preservation.

Lemma same_queries_refl : forall w, same_queries w w.
Proof. intros w. reflexivity. Qed.

Lemma same_queries_trans : forall w1 w2 w3,
  same_queries w1 w2 -> same_queries w2 w3 -> same_queries w1 w3.
Proof. unfold same_queries. intros w1 w2 w3 H1 H2. congruence. Qed.

Lemma no_write_refl : forall w, no_write w w.
Proof. intros w. split; reflexivity. Qed.

Lemma no_write_trans : forall w1 w2 w3,
  no_write w1 w2 -> no_write w2 w3 -> no_write w1 w3.
Proof. unfold no_write. intros w1 w2 w3 [H1 H1'] [H2 H2']. split; congruence. Qed.

Lemma keeps_emit_queries : forall ev, is_query ev = false -> keeps same_queries (emit ev).
Proof.
  intros ev H w. unfold same_queries, emit. cbn [snd trace filter]. rewrite H. reflexivity.
Qed.

Lemma keeps_emit_no_write : forall ev, is_write ev = false -> keeps no_write (emit ev).
Proof.
  intros ev H w. unfold no_write, emit. cbn [snd trace store filter]. rewrite H.
  split; reflexivity.
Qed.

Create HintDb keeps_db.

Ltac keeps_step refl trans emit_ok :=
  lazymatch goal with
  | |- keeps _ (ret _) => apply keeps_ret; exact refl
  | |- keeps _ (bind _ _) => apply (keeps_bind _ trans); [| intros ? ]
  | |- keeps _ (emit _) => apply emit_ok; reflexivity
  | |- keeps _ (match ?x with _ => _ end) => destruct x
  | |- _ => solve [auto with keeps_db]
  end.

Ltac keeps_queries :=
  repeat keeps_step same_queries_refl same_queries_trans keeps_emit_queries.

Ltac keeps_no_write :=
  repeat keeps_step no_write_refl no_write_trans keeps_emit_no_write.

Lemma get_store_queries : keeps same_queries get_store.
Proof. intros w. reflexivity. Qed.
Lemma put_store_queries : forall st, keeps same_queries (put_store st).
Proof. intros st w. reflexivity. Qed.
Lemma utcnow_queries : forall e, keeps same_queries (utcnow e).
Proof. intros e w. reflexivity. Qed.
Lemma now_queries : forall e, keeps same_queries (now e).
Proof. intros e w. reflexivity. Qed.
Lemma get_store_no_write : keeps no_write get_store.
Proof. intros w. split; reflexivity. Qed.
Lemma utcnow_no_write : forall e, keeps no_write (utcnow e).
Proof. intros e w. split; reflexivity. Qed.
Lemma now_no_write : forall e, keeps no_write (now e).
Proof. intros e w. split; reflexivity. Qed.

#[local] Hint Resolve get_store_queries put_store_queries utcnow_queries now_queries
  get_store_no_write utcnow_no_write now_no_write : keeps_db.

Lemma should_run_ingestion_queries : forall e, keeps same_queries (should_run_ingestion e).
Proof. intros e. unfold should_run_ingestion, get_last_updated_timestamp. keeps_queries. Qed.

Lemma should_run_ingestion_no_write : forall e, keeps no_write (should_run_ingestion e).
Proof. intros e. unfold should_run_ingestion, get_last_updated_timestamp. keeps_no_write. Qed.

Lemma extract_scenario_details_queries : forall e run_id report ts,
  keeps same_queries (extract_scenario_details e run_id report ts).
Proof. intros e run_id report ts. unfold extract_scenario_details. keeps_queries. Qed.

Lemma extract_scenario_details_no_write : forall e run_id report ts,
  keeps no_write (extract_scenario_details e run_id report ts).
Proof. intros e run_id report ts. unfold extract_scenario_details. keeps_no_write. Qed.

#[local] Hint Resolve should_run_ingestion_queries should_run_ingestion_no_write
  extract_scenario_details_queries extract_scenario_details_no_write : keeps_db.

Lemma fetch_loop_queries : forall e tm run_ids acc,
  keeps same_queries (fetch_loop e tm run_ids acc).
Proof.
  intros e tm run_ids. induction run_ids as [|run_id rest IH]; intros acc;
    cbn [fetch_loop]; unfold get_report_by_run_id; keeps_queries.
Qed.

Lemma fetch_loop_no_write : forall e tm run_ids acc,
  keeps no_write (fetch_loop e tm run_ids acc).
Proof.
  intros e tm run_ids. induction run_ids as [|run_id rest IH]; intros acc;
    cbn [fetch_loop]; unfold get_report_by_run_id; keeps_no_write.
Qed.

#[local] Hint Resolve fetch_loop_queries fetch_loop_no_write : keeps_db.

Lemma fetch_all_scenarios_queries : forall e, keeps same_queries (fetch_all_scenarios e).
Proof. intros e. unfold fetch_all_scenarios, get_runs. keeps_queries. Qed.

Lemma fetch_all_scenarios_no_write : forall e, keeps no_write (fetch_all_scenarios e).
Proof. intros e. unfold fetch_all_scenarios, get_runs. keeps_no_write. Qed.

Lemma store_insert_queries : forall batch, keeps same_queries (store_insert batch).
Proof. intros batch. unfold store_insert. keeps_queries. Qed.

#[local] Hint Resolve fetch_all_scenarios_queries fetch_all_scenarios_no_write
  store_insert_queries : keeps_db.

Lemma insert_batches_queries : forall batches, keeps same_queries (insert_batches batches).
Proof.
  induction batches as [|batch rest IH]; cbn [insert_batches]; keeps_queries.
Qed.

#[local] Hint Resolve insert_batches_queries : keeps_db.

Lemma replace_loop_queries : forall run_ids data,
  keeps same_queries (replace_loop run_ids data).
Proof.
  induction run_ids as [|run_id rest IH]; intros data; cbn [replace_loop];
    unfold store_delete; keeps_queries.
Qed.

#[local] Hint Resolve replace_loop_queries : keeps_db.

Lemma insert_scenarios_queries : forall e data, keeps same_queries (insert_scenarios e data).
Proof. intros e data. unfold insert_scenarios. keeps_queries. Qed.

#[local] Hint Resolve insert_scenarios_queries : keeps_db.

Lemma ingest_scenarios_queries : forall e, keeps same_queries (ingest_scenarios e).
Proof. intros e. unfold ingest_scenarios. keeps_queries. Qed.

Lemma fetch_without_listing : forall e w,
  runs_response e = None -> fst (fetch_all_scenarios e w) = Returned [].
Proof.
  intros e w H. unfold fetch_all_scenarios, get_runs, bind, emit, ret.
  cbn [fst snd]. rewrite H. reflexivity.
Qed.

Lemma ingest_without_listing : forall e w,
  runs_response e = None ->
  fst (ingest_scenarios e w) = Returned false /\ no_write w (snd (ingest_scenarios e w)).
Proof.
  intros e w H. unfold ingest_scenarios.
  rewrite bind_fst, bind_snd.
  pose proof (should_run_ingestion_no_write e w) as Hgate.
  destruct (should_run_ingestion e w) as [due w1]. cbn [fst snd] in *.
  destruct due; cbn [negb].
  - rewrite bind_fst, bind_snd.
    pose proof (fetch_without_listing e w1 H) as Hfetch.
    pose proof (fetch_all_scenarios_no_write e w1) as Hnw.
    destruct (fetch_all_scenarios e w1) as [fetched w2]. cbn [fst snd] in *.
    subst fetched. split; [reflexivity |].
    eapply no_write_trans; eassumption.
  - split; [reflexivity | assumption].
Qed.

Example offline_trace :
  trace (snd (process_query offline_env "show failed scenarios" empty_world))
  = [EvGetRuns; EvSelectLatest; EvSelectLatest].
Proof. vm_compute. reflexivity. Qed.

Example online_query :
  map is_write (trace (snd (process_query sample_env "show failed scenarios" empty_world)))
  = [false; true; true; true; true; false; false; false; false; false].
Proof. vm_compute. reflexivity. Qed.

(* ================================================================= *)
(** ** Per-run replacement *)

Lemma forallb_ext_in : forall {A} (f g : A -> bool) l,
  (forall x, In x l -> f x = g x) -> forallb f l = forallb g l.
Proof.
  intros A f g l. induction l as [|a l IH]; intros H.
  - reflexivity.
  - cbn [forallb]. rewrite (H a (or_introl eq_refl)).
    rewrite IH; [reflexivity |]. intros x Hx. apply H. right. assumption.
Qed.

Lemma has_key_app : forall k a b, has_key k (a ++ b) = has_key k a || has_key k b.
Proof. intros k a b. unfold has_key. apply existsb_app. Qed.

Lemma has_key_other_run : forall run_id st x,
  (forall y, In y st -> in_run run_id y = false) ->
  in_run run_id x = true ->
  has_key (key x) st = false.
Proof.
  intros run_id st x Hst Hx. destruct (has_key (key x) st) eqn:E; [| reflexivity].
  unfold has_key in E. apply existsb_exists in E. destruct E as (y & Hy & Hk).
  unfold key_eqb, key in Hk. cbn [fst snd] in Hk.
  apply andb_true_iff in Hk. destruct Hk as [Hk _]. apply String.eqb_eq in Hk.
  specialize (Hst y Hy). unfold in_run in *. rewrite Hk, Hx in Hst. discriminate Hst.
Qed.

Lemma insert_batch_frame : forall run_id st batch acc,
  (forall y, In y st -> in_run run_id y = false) ->
  (forall x, In x batch -> in_run run_id x = true) ->
  insert_batch batch (st ++ acc)
  = match insert_batch batch acc with
    | Some acc' => Some (st ++ acc')%list
    | None => None
    end.
Proof.
  intros run_id st batch acc Hst Hb. unfold insert_batch.
  rewrite (forallb_ext_in (fun r => negb (has_key (key r) (st ++ acc)))
                          (fun r => negb (has_key (key r) acc)) batch).
  - destruct (keys_distinct batch && forallb _ batch); [| reflexivity].
    rewrite app_assoc. reflexivity.
  - intros x Hx. rewrite has_key_app.
    rewrite (has_key_other_run run_id st x Hst (Hb x Hx)). reflexivity.
Qed.

Lemma insert_batches_on_frame : forall run_id st batches,
  (forall y, In y st -> in_run run_id y = false) ->
  (forall b, In b batches -> forall x, In x b -> in_run run_id x = true) ->
  forall acc,
    insert_batches_on batches (st ++ acc)
    = ((st ++ fst (insert_batches_on batches acc))%list,
       snd (insert_batches_on batches acc)).
Proof.
  intros run_id st batches Hst. induction batches as [|b rest IH]; intros Hb acc.
  - reflexivity.
  - cbn [insert_batches_on].
    rewrite (insert_batch_frame run_id st b acc Hst (Hb b (or_introl eq_refl))).
    destruct (insert_batch b acc) as [acc'|].
    + apply IH. intros b' Hb'. apply Hb. right. assumption.
    + reflexivity.
Qed.

Lemma insert_batch_in : forall batch st st' x,
  insert_batch batch st = Some st' -> In x st' -> In x st \/ In x batch.
Proof.
  intros batch st st' x H Hx. unfold insert_batch in H.
  destruct (keys_distinct batch && _); [| discriminate H].
  inversion H; subst. apply in_app_or. assumption.
Qed.

Lemma insert_batches_on_in : forall batches acc x,
  In x (fst (insert_batches_on batches acc)) ->
  In x acc \/ exists b, In b batches /\ In x b.
Proof.
  induction batches as [|b rest IH]; intros acc x Hx.
  - left. assumption.
  - cbn [insert_batches_on] in Hx. destruct (insert_batch b acc) as [acc'|] eqn:E.
    + apply IH in Hx. destruct Hx as [Hx | (b' & Hb' & Hx)].
      * destruct (insert_batch_in _ _ _ _ E Hx) as [H | H].
        -- left. assumption.
        -- right. exists b. split; [left; reflexivity | assumption].
      * right. exists b'. split; [right; assumption | assumption].
    + left. assumption.
Qed.

Lemma chunks_aux_in : forall {A} fuel size (l : list A) b x,
  In b (chunks_aux fuel size l) -> In x b -> In x l.
Proof.
  intros A fuel size. induction fuel as [|fuel IH]; intros l b x Hb Hx.
  - contradiction.
  - cbn [chunks_aux] in Hb. destruct l as [|a l']; [contradiction |].
    rewrite <- (firstn_skipn size (a :: l')). apply in_or_app.
    destruct Hb as [Hb | Hb].
    + subst b. left. assumption.
    + right. eapply IH; eassumption.
Qed.

Lemma chunks_in : forall {A} size (l : list A) b x,
  In b (chunks size l) -> In x b -> In x l.
Proof. intros A size l b x. unfold chunks. apply chunks_aux_in. Qed.

Lemma rows_of_in_run : forall run_id l x, In x (rows_of run_id l) -> in_run run_id x = true.
Proof. intros run_id l x H. unfold rows_of in H. apply filter_In in H. tauto. Qed.

Lemma run_outcome_in_run : forall run_id data x,
  In x (fst (run_outcome run_id data)) -> in_run run_id x = true.
Proof.
  intros run_id data x H. unfold run_outcome in H.
  apply insert_batches_on_in in H. destruct H as [[] | (b & Hb & Hx)].
  eapply rows_of_in_run. eapply chunks_in; eassumption.
Qed.

Lemma delete_run_not_in_run : forall run_id st y,
  In y (delete_run run_id st) -> in_run run_id y = false.
Proof.
  intros run_id st y H. unfold delete_run in H. apply filter_In in H.
  destruct H as [_ H]. apply negb_true_iff in H. assumption.
Qed.

Lemma replace_run_on_eq : forall run_id data st,
  replace_run_on run_id data st
  = ((delete_run run_id st ++ fst (run_outcome run_id data))%list,
     snd (run_outcome run_id data)).
Proof.
  intros run_id data st. unfold replace_run_on, run_outcome.
  rewrite <- (app_nil_r (delete_run run_id st)) at 1.
  apply (insert_batches_on_frame run_id).
  - apply delete_run_not_in_run.
  - intros b Hb x Hx. eapply rows_of_in_run. eapply chunks_in; eassumption.
Qed.

Lemma filter_all : forall {A} (f : A -> bool) l,
  (forall x, In x l -> f x = true) -> filter f l = l.
Proof.
  intros A f l. induction l as [|a l IH]; intros H.
  - reflexivity.
  - cbn [filter]. rewrite (H a (or_introl eq_refl)). f_equal.
    apply IH. intros x Hx. apply H. right. assumption.
Qed.

Lemma filter_none : forall {A} (f : A -> bool) l,
  (forall x, In x l -> f x = false) -> filter f l = [].
Proof.
  intros A f l. induction l as [|a l IH]; intros H.
  - reflexivity.
  - cbn [filter]. rewrite (H a (or_introl eq_refl)).
    apply IH. intros x Hx. apply H. right. assumption.
Qed.

Lemma in_run_other : forall r r' x,
  String.eqb r' r = false -> in_run r x = true -> in_run r' x = false.
Proof.
  intros r r' x Hne Hx. unfold in_run in *. apply String.eqb_eq in Hx. subst r.
  rewrite String.eqb_sym. assumption.
Qed.

Lemma rows_of_delete_run : forall r r' st,
  rows_of r' (delete_run r st) = if String.eqb r' r then [] else rows_of r' st.
Proof.
  intros r r' st. destruct (String.eqb r' r) eqn:E.
  - apply String.eqb_eq in E. subst r'. apply filter_none.
    apply delete_run_not_in_run.
  - unfold rows_of, delete_run. induction st as [|x st IH]; [reflexivity |].
    cbn [filter]. destruct (in_run r x) eqn:Ex; cbn [negb].
    + rewrite (in_run_other r r' x E Ex). assumption.
    + cbn [filter]. rewrite IH. reflexivity.
Qed.

(** After the replacement of run [r], run [r] holds what its inserts
    left and every other run holds what it held. *)
Lemma rows_of_replace_run_on : forall r r' data st,
  rows_of r' (fst (replace_run_on r data st))
  = if String.eqb r' r then fst (run_outcome r data) else rows_of r' st.
Proof.
  intros r r' data st. rewrite replace_run_on_eq. cbn [fst].
  unfold rows_of at 1. rewrite filter_app. fold (rows_of r' (delete_run r st)).
  rewrite rows_of_delete_run. destruct (String.eqb r' r) eqn:E.
  - apply String.eqb_eq in E. subst r'. cbn [app]. apply filter_all.
    apply run_outcome_in_run.
  - rewrite filter_none; [apply app_nil_r |].
    intros x Hx. apply (in_run_other r r' x E). eapply run_outcome_in_run. eassumption.
Qed.

(** *** The write time does not decide what is accepted *)

Lemma key_restamp : forall t x, key (restamp t x) = key x.
Proof. reflexivity. Qed.

Lemma has_key_restamp : forall t k l, has_key k (map (restamp t) l) = has_key k l.
Proof.
  intros t k l. unfold has_key. induction l as [|x l IH]; [reflexivity |].
  cbn [map existsb]. rewrite key_restamp, IH. reflexivity.
Qed.

Lemma keys_distinct_restamp : forall t l,
  keys_distinct (map (restamp t) l) = keys_distinct l.
Proof.
  intros t l. induction l as [|x l IH]; [reflexivity |].
  cbn [map keys_distinct]. rewrite key_restamp, has_key_restamp, IH. reflexivity.
Qed.

Lemma forallb_map_comp : forall {A B} (f : B -> bool) (g : A -> B) l,
  forallb f (map g l) = forallb (fun x => f (g x)) l.
Proof.
  intros A B f g l. induction l as [|a l IH]; [reflexivity |].
  cbn [map forallb]. rewrite IH. reflexivity.
Qed.

Lemma insert_batch_restamp : forall t batch st,
  insert_batch (map (restamp t) batch) (map (restamp t) st)
  = option_map (map (restamp t)) (insert_batch batch st).
Proof.
  intros t batch st. unfold insert_batch.
  rewrite keys_distinct_restamp, forallb_map_comp.
  rewrite (forallb_ext_in
             (fun x => negb (has_key (key (restamp t x)) (map (restamp t) st)))
             (fun r => negb (has_key (key r) st)) batch).
  - destruct (keys_distinct batch && _); [| reflexivity].
    cbn [option_map]. rewrite map_app. reflexivity.
  - intros x _. rewrite key_restamp, has_key_restamp. reflexivity.
Qed.

Lemma insert_batches_on_restamp : forall t batches acc,
  insert_batches_on (map (map (restamp t)) batches) (map (restamp t) acc)
  = (map (restamp t) (fst (insert_batches_on batches acc)),
     snd (insert_batches_on batches acc)).
Proof.
  intros t batches. induction batches as [|b rest IH]; intros acc.
  - reflexivity.
  - cbn [map insert_batches_on]. rewrite insert_batch_restamp.
    destruct (insert_batch b acc) as [acc'|]; cbn [option_map].
    + apply IH.
    + reflexivity.
Qed.

Lemma chunks_aux_map : forall {A B} (f : A -> B) fuel size l,
  chunks_aux fuel size (map f l) = map (map f) (chunks_aux fuel size l).
Proof.
  intros A B f fuel size. induction fuel as [|fuel IH]; intros l.
  - reflexivity.
  - cbn [chunks_aux]. destruct l as [|a l']; [reflexivity |].
    change (f a :: map f l') with (map f (a :: l')).
    rewrite firstn_map, skipn_map, IH. reflexivity.
Qed.

Lemma chunks_map : forall {A B} (f : A -> B) size l,
  chunks size (map f l) = map (map f) (chunks size l).
Proof. intros A B f size l. unfold chunks. rewrite length_map. apply chunks_aux_map. Qed.

Lemma rows_of_restamp : forall t run_id l,
  rows_of run_id (map (restamp t) l) = map (restamp t) (rows_of run_id l).
Proof.
  intros t run_id l. unfold rows_of. induction l as [|x l IH]; [reflexivity |].
  cbn [map filter]. change (in_run run_id (restamp t x)) with (in_run run_id x).
  destruct (in_run run_id x); cbn [map]; rewrite IH; reflexivity.
Qed.

Lemma run_outcome_restamp : forall t run_id data,
  run_outcome run_id (map (restamp t) data)
  = (map (restamp t) (fst (run_outcome run_id data)), snd (run_outcome run_id data)).
Proof.
  intros t run_id data. unfold run_outcome.
  rewrite rows_of_restamp, chunks_map.
  apply (insert_batches_on_restamp t _ []).
Qed.

Lemma map_stamp_restamp : forall t t0 (scenario_data : list scenario),
  map (stamp t) scenario_data = map (restamp t) (map (stamp t0) scenario_data).
Proof. intros t t0 l. rewrite map_map. reflexivity. Qed.

Lemma map_scen_restamp : forall t l, map scen (map (restamp t) l) = map scen l.
Proof. intros t l. rewrite map_map. reflexivity. Qed.

(** What the inserts of a run leave, up to the write time, and whether
    they go through, are the same at every write time. *)
Lemma run_outcome_stamp : forall t t0 run_id (scenario_data : list scenario),
  map scen (fst (run_outcome run_id (map (stamp t) scenario_data)))
  = map scen (fst (run_outcome run_id (map (stamp t0) scenario_data)))
  /\ snd (run_outcome run_id (map (stamp t) scenario_data))
     = snd (run_outcome run_id (map (stamp t0) scenario_data)).
Proof.
  intros t t0 run_id l. rewrite (map_stamp_restamp t t0), run_outcome_restamp.
  cbn [fst snd]. rewrite map_scen_restamp. split; reflexivity.
Qed.

(** *** The loop over the run ids, run by run *)

Lemma replace_loop_on_view : forall r' rows ok data,
  (forall r, rows r = map scen (fst (run_outcome r data))) ->
  (forall r, ok r = snd (run_outcome r data)) ->
  forall ids st,
    map scen (rows_of r' (fst (replace_loop_on ids data st)))
    = view_after r' rows ok ids (map scen (rows_of r' st))
    /\ snd (replace_loop_on ids data st) = forallb ok ids.
Proof.
  intros r' rows ok data Hrows Hok ids.
  induction ids as [|r ids IH]; intros st.
  - split; reflexivity.
  - cbn [replace_loop_on view_after forallb].
    pose proof (rows_of_replace_run_on r r' data st) as Hv.
    rewrite replace_run_on_eq in *. cbn [fst] in Hv.
    rewrite Hok, Hrows.
    destruct (snd (run_outcome r data)).
    + destruct (IH (delete_run r st ++ fst (run_outcome r data))%list) as [IH1 IH2].
      rewrite IH1, IH2, Hv. cbn [andb].
      destruct (String.eqb r' r); split; reflexivity.
    + cbn [fst snd andb]. rewrite Hv.
      destruct (String.eqb r' r); split; reflexivity.
Qed.

Lemma view_after_idempotent : forall r' rows ok ids v,
  view_after r' rows ok ids (view_after r' rows ok ids v) = view_after r' rows ok ids v.
Proof.
  intros r' rows ok ids. induction ids as [|r ids IH]; intros v.
  - reflexivity.
  - cbn [view_after]. destruct (String.eqb r' r); destruct (ok r);
      try reflexivity; apply IH.
Qed.

(** *** The monadic loops act on the table as the loops above *)

Lemma store_insert_eq : forall batch w,
  store_insert batch w
  = match insert_batch batch (store w) with
    | Some st' => (true, mkWorld (ticks w) st' (EvInsert batch true :: trace w))
    | None => (false, mkWorld (ticks w) (store w) (EvInsert batch false :: trace w))
    end.
Proof.
  intros batch w. unfold store_insert, bind, get_store.
  destruct (insert_batch batch (store w)); reflexivity.
Qed.

Lemma store_delete_eq : forall run_id w,
  store_delete run_id w
  = (tt, mkWorld (ticks w) (delete_run run_id (store w)) (EvDelete run_id :: trace w)).
Proof. reflexivity. Qed.

Lemma insert_batches_store : forall batches w,
  store (snd (insert_batches batches w)) = fst (insert_batches_on batches (store w))
  /\ fst (insert_batches batches w) = snd (insert_batches_on batches (store w))
  /\ ticks (snd (insert_batches batches w)) = ticks w.
Proof.
  induction batches as [|b rest IH]; intros w.
  - repeat split; reflexivity.
  - cbn [insert_batches insert_batches_on].
    rewrite bind_fst, bind_snd, store_insert_eq.
    destruct (insert_batch b (store w)) as [st'|]; cbn [fst snd].
    + apply (IH (mkWorld (ticks w) st' (EvInsert b true :: trace w))).
    + repeat split; reflexivity.
Qed.

Lemma replace_loop_store : forall run_ids data w,
  store (snd (replace_loop run_ids data w)) = fst (replace_loop_on run_ids data (store w))
  /\ fst (replace_loop run_ids data w) = snd (replace_loop_on run_ids data (store w))
  /\ ticks (snd (replace_loop run_ids data w)) = ticks w.
Proof.
  induction run_ids as [|r rest IH]; intros data w.
  - repeat split; reflexivity.
  - cbn [replace_loop replace_loop_on]. unfold replace_run_on.
    rewrite !bind_fst, !bind_snd, !store_delete_eq. cbn [fst snd].
    set (w1 := mkWorld (ticks w) (delete_run r (store w)) (EvDelete r :: trace w)).
    destruct (insert_batches_store (chunks batch_size (rows_of r data)) w1)
      as (Hs & Hf & Ht).
    change (store w1) with (delete_run r (store w)) in Hs, Hf.
    change (ticks w1) with (ticks w) in Ht.
    destruct (insert_batches (chunks batch_size (rows_of r data)) w1) as [ok w2].
    cbn [fst snd] in *.
    destruct (insert_batches_on (chunks batch_size (rows_of r data))
                                (delete_run r (store w))) as [st2 ok2].
    cbn [fst snd] in *. subst ok2 st2.
    destruct ok.
    + destruct (IH data w2) as (H1 & H2 & H3). repeat split; congruence.
    + unfold ret. cbn [fst snd]. repeat split; congruence.
Qed.

Lemma now_eq : forall e w,
  now e w = (utc_clock e (ticks w) + utc_offset e,
             mkWorld (S (ticks w)) (store w) (trace w)).
Proof. reflexivity. Qed.

Lemma insert_scenarios_store : forall e scenario_data w,
  store (snd (insert_scenarios e scenario_data w))
  = fst (replace_loop_on (set_iter e (map runId scenario_data))
                         (map (stamp (utc_clock e (ticks w) + utc_offset e)) scenario_data)
                         (store w))
  /\ ticks (snd (insert_scenarios e scenario_data w)) = S (ticks w).
Proof.
  intros e sd w. unfold insert_scenarios. rewrite !bind_snd, !now_eq. cbn [fst snd].
  set (w1 := mkWorld (S (ticks w)) (store w) (trace w)).
  set (data := map (stamp (utc_clock e (ticks w) + utc_offset e)) sd).
  destruct (replace_loop_store (set_iter e (map runId sd)) data w1) as (Hs & _ & Ht).
  change (store w1) with (store w) in Hs. change (ticks w1) with (S (ticks w)) in Ht.
  destruct (replace_loop (set_iter e (map runId sd)) data w1) as [ok w2].
  cbn [fst snd] in *. destruct ok; unfold ret; cbn [snd]; split; assumption.
Qed.

(** The scenarios a run holds after [insert_scenarios], from those it
    held before; the write time plays no part. *)
Lemma insert_scenarios_view : forall e scenario_data w r',
  map scen (rows_of r' (store (snd (insert_scenarios e scenario_data w))))
  = view_after r'
      (fun r => map scen (fst (run_outcome r (map (stamp 0) scenario_data))))
      (fun r => snd (run_outcome r (map (stamp 0) scenario_data)))
      (set_iter e (map runId scenario_data))
      (map scen (rows_of r' (store w))).
Proof.
  intros e sd w r'.
  destruct (insert_scenarios_store e sd w) as [Hs _]. rewrite Hs.
  apply replace_loop_on_view.
  - intros r. symmetry. apply run_outcome_stamp.
  - intros r. symmetry. apply run_outcome_stamp.
Qed.

(** C1, as stated, fails: the rows of the second pass carry the write
    time of the second pass. *)
Lemma reingest_counterexample :
  ~ (forall (e : env) (scenario_data : list scenario) (w : world) (run_id : string),
       In run_id (map runId scenario_data) ->
       let w1 := snd (insert_scenarios e scenario_data w) in
       let w2 := snd (insert_scenarios e scenario_data w1) in
       rows_of run_id (store w2) = rows_of run_id (store w1)).
Proof.
  intros H.
  specialize (H sample_env [sample_scenario "101" "1"] empty_world "101"
                (or_introl eq_refl)).
  vm_compute in H. discriminate H.
Qed.

(** C1, amended.  After a second [insert_scenarios] of the same records,
    every run holds the same rows as after the first, in the same order
    and number, in every column except [last_updated_timestamp]. *)
Theorem reingest_same_scenarios :
  forall (e : env) (scenario_data : list scenario) (w : world) (run_id : string),
    let w1 := snd (insert_scenarios e scenario_data w) in
    let w2 := snd (insert_scenarios e scenario_data w1) in
    map scen (rows_of run_id (store w2)) = map scen (rows_of run_id (store w1)).
Proof.
  intros e sd w run_id w1 w2. subst w2 w1.
  rewrite (insert_scenarios_view e sd (snd (insert_scenarios e sd w)) run_id).
  rewrite (insert_scenarios_view e sd w run_id).
  apply view_after_idempotent.
Qed.

Example ingest_twice :
  let w1 := snd (insert_scenarios sample_env
                   [sample_scenario "101" "1"; sample_scenario "102" "1";
                    sample_scenario "101" "2"] empty_world) in
  let w2 := snd (insert_scenarios sample_env
                   [sample_scenario "101" "1"; sample_scenario "102" "1";
                    sample_scenario "101" "2"] w1) in
  map key (store w1) = [("101", "1"); ("101", "2"); ("102", "1")] /\
  map key (store w2) = [("101", "1"); ("101", "2"); ("102", "1")] /\
  map last_updated_timestamp (store w1) = [sample_now; sample_now; sample_now] /\
  map last_updated_timestamp (store w2)
  = [sample_now + US_PER_SECOND; sample_now + US_PER_SECOND; sample_now + US_PER_SECOND].
Proof. vm_compute. repeat split; reflexivity. Qed.

(** A repeated key inside one run: the insert is refused, the run is left
    empty, and a second pass ends in the same state. *)
Example ingest_duplicate_key :
  let data := [sample_scenario "101" "1"; sample_scenario "101" "1"] in
  let r1 := insert_scenarios sample_env data empty_world in
  let r2 := insert_scenarios sample_env data (snd r1) in
  fst (fst r1) = false /\ store (snd r1) = [] /\
  fst (fst r2) = false /\ store (snd r2) = [].
Proof. vm_compute. repeat split; reflexivity. Qed.

(* ================================================================= *)
(** ** The relative ranges, bound by bound *)

Lemma dt_days_minus_days : forall t n,
  dt_days (t - timedelta n 0 0) = dt_days t - n.
Proof.
  intros t n. unfold dt_days, timedelta, US_PER_DAY, US_PER_SECOND.
  Z.div_mod_to_equations. lia.
Qed.

Lemma dt_fields_days : forall t,
  ymd2days (dt_year t) (dt_month t) (dt_day t) = dt_days t /\ 1 <= dt_day t.
Proof.
  intros t. unfold dt_year, dt_month, dt_day.
  pose proof (days2ymd_spec (dt_days t)) as H.
  destruct (days2ymd (dt_days t)) as [[y m] d]. cbn [fst snd]. split; [tauto | lia].
Qed.

Lemma days_before_year_succ : forall y,
  days_before_year (y + 1) = days_before_year y + (if is_leap y then 366 else 365).
Proof.
  intros y. unfold days_before_year, is_leap.
  replace (y + 1 - 1) with y by lia.
  destruct (y mod 4 =? 0) eqn:E4; destruct (y mod 100 =? 0) eqn:E100;
    destruct (y mod 400 =? 0) eqn:E400; cbn [andb orb negb];
    repeat match goal with
    | H : (_ =? _) = true |- _ => apply Z.eqb_eq in H
    | H : (_ =? _) = false |- _ => apply Z.eqb_neq in H
    end; Z.div_mod_to_equations; lia.
Qed.

(** The day after the last day of a month is the first day of the next. *)
Lemma month_end_next_day : forall y m,
  1 <= m <= 12 ->
  let '(pm, py) := if m =? 1 then (12, y - 1) else (m - 1, y) in
  ymd2days py pm (days_in_month py pm) + 1 = ymd2days y m 1.
Proof.
  intros y m Hm. destruct (m =? 1) eqn:E.
  - apply Z.eqb_eq in E. subst m.
    pose proof (days_before_year_succ (y - 1)) as Hy.
    replace (y - 1 + 1) with y in Hy by lia.
    unfold ymd2days, days_in_month, days_before_month, month_lengths. rewrite Hy.
    destruct (is_leap (y - 1)); vm_compute Z.to_nat; cbn [nth firstn sumZ]; lia.
  - apply Z.eqb_neq in E.
    assert (Hc : m = 2 \/ m = 3 \/ m = 4 \/ m = 5 \/ m = 6 \/ m = 7 \/ m = 8 \/
                 m = 9 \/ m = 10 \/ m = 11 \/ m = 12) by lia.
    unfold ymd2days, days_in_month, days_before_month, month_lengths.
    repeat (destruct Hc as [Hc | Hc];
            [subst m; destruct (is_leap y); vm_compute Z.to_nat;
             cbn [nth firstn sumZ]; lia |]).
    subst m; destruct (is_leap y); vm_compute Z.to_nat; cbn [nth firstn sumZ]; lia.
Qed.

(** X1.  The range of "today" starts at 00:00:00 of the UTC day of the
    clock reading and ends at the reading itself, less than a day later. *)
Theorem today_range_bounds : forall (e : env) m (w : world),
  let now_ := utc_clock e (ticks w) in
  fst (_get_today_range e m w) = (Some (dt_days now_ * US_PER_DAY), Some now_)
  /\ dt_days now_ * US_PER_DAY <= now_ < dt_days now_ * US_PER_DAY + US_PER_DAY.
Proof.
  intros e m w now_. split.
  - unfold _get_today_range, bind, utcnow, ret. cbn [fst].
    fold now_. rewrite mk_datetime_midnight. reflexivity.
  - unfold dt_days, US_PER_DAY, US_PER_SECOND. Z.div_mod_to_equations. lia.
Qed.

(** X2.  The range of "yesterday" is the whole UTC day before the clock
    reading: it starts at its 00:00:00 and ends 86399 seconds later. *)
Theorem yesterday_range_exact : forall (e : env) m (w : world),
  let now_ := utc_clock e (ticks w) in
  let start := (dt_days now_ - 1) * US_PER_DAY in
  fst (_get_yesterday_range e m w) = (Some start, Some (start + 86399 * US_PER_SECOND))
  /\ dt_days start = dt_days now_ - 1
  /\ dt_days (start + 86399 * US_PER_SECOND) = dt_days now_ - 1.
Proof.
  intros e m w now_ start. split; [| split].
  - unfold _get_yesterday_range, bind, utcnow, ret. cbn [fst]. fold now_.
    rewrite mk_datetime_midnight, mk_datetime_end_of_day, dt_days_minus_days.
    reflexivity.
  - subst start. apply dt_days_mul.
  - subst start. unfold dt_days, US_PER_DAY, US_PER_SECOND.
    Z.div_mod_to_equations. lia.
Qed.

(** X3.  The range of "last week" is the seven whole UTC days before the
    day of the clock reading: from 00:00:00 seven days back to one second
    before today's 00:00:00. *)
Theorem last_week_range_exact : forall (e : env) m (w : world),
  let now_ := utc_clock e (ticks w) in
  let today_start := dt_days now_ * US_PER_DAY in
  fst (_get_last_week_range e m w)
  = (Some (today_start - 7 * US_PER_DAY), Some (today_start - US_PER_SECOND))
  /\ dt_days (today_start - 7 * US_PER_DAY) = dt_days now_ - 7
  /\ dt_days (today_start - US_PER_SECOND) = dt_days now_ - 1.
Proof.
  intros e m w now_ today_start. split; [| split].
  - unfold _get_last_week_range, bind, utcnow, ret. cbn [fst]. fold now_.
    rewrite mk_datetime_midnight. fold today_start.
    unfold timedelta. f_equal; f_equal; lia.
  - subst today_start. unfold dt_days, US_PER_DAY, US_PER_SECOND.
    Z.div_mod_to_equations. lia.
  - subst today_start. unfold dt_days, US_PER_DAY, US_PER_SECOND.
    Z.div_mod_to_equations. lia.
Qed.

(** X4.  The range of "last month" starts at 00:00:00 of day 1 of the
    month before the clock reading's month (December of the year before
    when the reading is in January) and ends one second before the first
    instant of the reading's own month, hence before the reading. *)
Theorem last_month_range_exact : forall (e : env) m (w : world),
  let now_ := utc_clock e (ticks w) in
  let y := dt_year now_ in
  let mo := dt_month now_ in
  let prev_month := if mo =? 1 then 12 else mo - 1 in
  let prev_year := if mo =? 1 then y - 1 else y in
  exists t,
    fst (_get_last_month_range e m w)
    = (Some (mk_datetime prev_year prev_month 1 0 0 0), Some t)
    /\ t + US_PER_SECOND = mk_datetime y mo 1 0 0 0
    /\ mk_datetime y mo 1 0 0 0 <= now_.
Proof.
  intros e m w now_ y mo prev_month prev_year.
  pose proof (dt_month_range now_) as Hm. fold mo in Hm.
  pose proof (month_end_next_day y mo Hm) as Hnext.
  pose proof (dt_fields_days now_) as [Hd Hd1]. fold y mo in Hd.
  pose proof (midnight_le now_) as Hmid.
  unfold _get_last_month_range, bind, utcnow, ret. cbn [fst]. fold now_ y mo.
  subst prev_month prev_year.
  destruct (mo =? 1); eexists; (split; [reflexivity |]); split;
    unfold mk_datetime in *; unfold ymd2days in *; unfold US_PER_DAY, US_PER_SECOND in *;
    lia.
Qed.

(* ================================================================= *)
(** ** Matching ignores letter case *)

Lemma in_class_lower : forall p x, in_class p (Re.lower x) = in_class p x.
Proof.
  intros p x. destruct p; destruct x as [[] [] [] [] [] [] [] []]; reflexivity.
Qed.

Lemma is_word_lower : forall x, Re.is_word (Re.lower x) = Re.is_word x.
Proof. intros x. destruct x as [[] [] [] [] [] [] [] []]; reflexivity. Qed.

Lemma in_class_case : forall p x y, Re.lower x = Re.lower y -> in_class p x = in_class p y.
Proof.
  intros p x y H. rewrite <- (in_class_lower p x), <- (in_class_lower p y), H.
  reflexivity.
Qed.

Lemma word_before_case : forall p p',
  option_map Re.lower p = option_map Re.lower p' -> word_before p = word_before p'.
Proof.
  intros [x|] [y|] H; cbn [option_map] in H; try discriminate H; [| reflexivity].
  inversion H as [H']. cbn [word_before].
  rewrite <- (is_word_lower x), <- (is_word_lower y), H'. reflexivity.
Qed.

Lemma word_after_case : forall s s',
  map Re.lower s = map Re.lower s' -> word_after s = word_after s'.
Proof.
  intros [|x s] [|y s'] H; cbn [map] in H; try discriminate H; [reflexivity |].
  inversion H as [[H' Hs']]. cbn [word_after].
  rewrite <- (is_word_lower x), <- (is_word_lower y), H'. reflexivity.
Qed.

Lemma found_orelse : forall (a a' b b' : option captures),
  found a = found a' -> found b = found b' ->
  found (match a with Some m => Some m | None => b end)
  = found (match a' with Some m => Some m | None => b' end).
Proof. intros [?|] [?|] b b' Ha Hb; cbn in *; congruence. Qed.

Lemma star_case : forall cls k k',
  cont_case k k' ->
  forall s s' p p' c c',
    option_map Re.lower p = option_map Re.lower p' ->
    map Re.lower s = map Re.lower s' ->
    found (star cls p s c k) = found (star cls p' s' c' k').
Proof.
  intros cls k k' Hk. induction s as [|x s IH]; intros s' p p' c c' Hp Hs.
  - destruct s' as [|y s']; [| discriminate Hs]. cbn [star]. apply Hk; assumption.
  - destruct s' as [|y s']; [discriminate Hs |].
    cbn [map] in Hs. inversion Hs as [[Hx Hs']]. cbn [star].
    rewrite (in_class_case cls x y Hx). destruct (in_class cls y).
    + apply found_orelse.
      * apply IH; [cbn; f_equal; assumption | assumption].
      * apply Hk; assumption.
    + apply Hk; assumption.
Qed.

Lemma rmatch_case : forall r k k',
  cont_case k k' ->
  forall p p' s s' c c',
    option_map Re.lower p = option_map Re.lower p' ->
    map Re.lower s = map Re.lower s' ->
    found (rmatch r p s c k) = found (rmatch r p' s' c' k').
Proof.
  induction r as [| ch | cls | r1 IH1 r2 IH2 | r1 IH1 r2 IH2 | r1 IH1 | cls | | n r1 IH1];
    intros k k' Hk p p' s s' c c' Hp Hs; cbn [rmatch].
  - apply Hk; assumption.
  - destruct s as [|x s], s' as [|y s']; try discriminate Hs; [reflexivity |].
    cbn [map] in Hs. inversion Hs as [[Hx Hs']]. rewrite Hx.
    destruct (Ascii.eqb (Re.lower y) (Re.lower ch)); [| reflexivity].
    apply Hk; [cbn; f_equal; assumption | assumption].
  - destruct s as [|x s], s' as [|y s']; try discriminate Hs; [reflexivity |].
    cbn [map] in Hs. inversion Hs as [[Hx Hs']].
    rewrite (in_class_case cls x y Hx). destruct (in_class cls y); [| reflexivity].
    apply Hk; [cbn; f_equal; assumption | assumption].
  - apply IH1; [| assumption | assumption].
    intros q q' t t' d d' Hq Ht. apply IH2; assumption.
  - apply found_orelse; [apply IH1 | apply IH2]; assumption.
  - apply found_orelse; [apply IH1 | apply Hk]; assumption.
  - destruct s as [|x s], s' as [|y s']; try discriminate Hs; [reflexivity |].
    cbn [map] in Hs. inversion Hs as [[Hx Hs']].
    rewrite (in_class_case cls x y Hx). destruct (in_class cls y); [| reflexivity].
    apply star_case; [assumption | cbn; f_equal; assumption | assumption].
  - rewrite (word_before_case p p' Hp), (word_after_case s s' Hs).
    destruct (xorb (word_before p') (word_after s')); [| reflexivity].
    apply Hk; assumption.
  - apply IH1; [| assumption | assumption].
    intros q q' t t' d d' Hq Ht. apply Hk; assumption.
Qed.

Lemma search_from_case : forall r s s' p p',
  option_map Re.lower p = option_map Re.lower p' ->
  map Re.lower s = map Re.lower s' ->
  found (search_from r p s) = found (search_from r p' s').
Proof.
  intros r. induction s as [|x s IH]; intros s' p p' Hp Hs.
  - destruct s' as [|y s']; [| discriminate Hs]. cbn [search_from].
    apply found_orelse; [| reflexivity].
    apply rmatch_case; [| assumption | assumption].
    intros ? ? ? ? ? ? _ _. reflexivity.
  - destruct s' as [|y s']; [discriminate Hs |]. cbn [search_from].
    apply found_orelse.
    + apply rmatch_case; [| assumption | assumption].
      intros ? ? ? ? ? ? _ _. reflexivity.
    + cbn [map] in Hs. inversion Hs as [[Hx Hs']].
      apply IH; [cbn; f_equal; assumption | assumption].
Qed.

Lemma matches_case : forall r q1 q2,
  same_up_to_case q1 q2 -> matches r q1 = matches r q2.
Proof.
  intros r q1 q2 H. unfold matches, search.
  apply (search_from_case r _ _ None None eq_refl H).
Qed.

(* ================================================================= *)
(** ** The "No scenarios found" message *)

(** X6.  For the range of "last 24 hours" the message never says "in the
    last 24 hours": when the clock does not run backwards and less than a
    day passes between the readings, the start is a full day before the
    later readings and on the previous date, so the phrase chosen is
    "yesterday". *)
Theorem last_24_hours_described_as_yesterday :
  forall (e : env) m (w w' : world) s t,
    fst (_get_last_24_hours_range e m w) = (Some s, Some t) ->
    utc_clock e (ticks w) <= utc_clock e (ticks w') ->
    utc_clock e (ticks w) <= utc_clock e (S (ticks w')) ->
    utc_clock e (S (ticks w')) < utc_clock e (ticks w) + US_PER_DAY ->
    fst (time_description e s t w') = "yesterday".
Proof.
  intros e m w w' s t H H1 H2 H3.
  unfold _get_last_24_hours_range, bind, utcnow, ret in H. cbn [fst] in H.
  inversion H; subst s t. clear H.
  set (t0 := utc_clock e (ticks w)) in *.
  unfold time_description. rewrite bind_fst.
  unfold utcnow at 1 2. cbn [fst snd].
  assert (E1 : (dt_days (t0 - timedelta 0 24 0) =? dt_days (utc_clock e (ticks w')))
               = false).
  { apply Z.eqb_neq. unfold dt_days, timedelta, US_PER_DAY, US_PER_SECOND in *.
    Z.div_mod_to_equations. lia. }
  rewrite E1. rewrite bind_fst. unfold utcnow at 1 2. cbn [fst snd ticks].
  assert (E2 : (td_days (utc_clock e (S (ticks w')) - (t0 - timedelta 0 24 0)) =? 1)
               = true).
  { apply Z.eqb_eq. unfold td_days, timedelta, US_PER_DAY, US_PER_SECOND in *.
    Z.div_mod_to_equations. lia. }
  rewrite E2. reflexivity.
Qed.

Lemma last_24_hours_described_as_yesterday_witness :
  fst (time_description sample_env (sample_now - timedelta 0 24 0) sample_now
         {| ticks := 1; store := []; trace := [] |})
  = "yesterday".
Proof.
  apply (last_24_hours_described_as_yesterday sample_env [] empty_world
           {| ticks := 1; store := []; trace := [] |}).
  - reflexivity.
  - vm_compute. discriminate.
  - vm_compute. discriminate.
  - vm_compute. reflexivity.
Defined.

Example last_24_hours_message :
  dict_lookup "message"
    (fst (agent_process_query sample_env "what failed in the last 24 hours" empty_world))
  = Some (JStr "No scenarios found with status 'Failed' yesterday").
Proof. vm_compute. reflexivity. Qed.

(* ================================================================= *)
(** ** More on flattening *)

Lemma scenario_record_of_run : forall run_id ts pid pname fid fname scenario_,
  record_of_run run_id ts (scenario_record run_id ts pid pname fid fname scenario_).
Proof.
  intros. unfold record_of_run, scenario_record. cbn [runId createdTimestamp rowRunStatus].
  split; [reflexivity |]. split; [reflexivity |].
  rewrite status_value_first_row.
  destruct (dict_lookup "rowRunStatus" scenario_) as [[ | | | | | | [|[k v] rest]]|];
    try (right; right; reflexivity).
  destruct (py_truthy v); [left | right; left]; reflexivity.
Qed.

Lemma scenario_loop_of_run : forall run_id ts pid pname fid fname entries acc,
  Forall (record_of_run run_id ts) acc ->
  Forall (record_of_run run_id ts)
         (fst (scenario_loop run_id ts pid pname fid fname entries acc)).
Proof.
  intros run_id ts pid pname fid fname entries.
  induction entries as [|entry rest IH]; intros acc Hacc; cbn [scenario_loop].
  - assumption.
  - destruct entry; try assumption.
    apply IH. apply Forall_app. split; [assumption |].
    constructor; [apply scenario_record_of_run | constructor].
Qed.

Lemma flow_loop_of_run : forall run_id ts pid pname flows acc,
  Forall (record_of_run run_id ts) acc ->
  Forall (record_of_run run_id ts) (fst (flow_loop run_id ts pid pname flows acc)).
Proof.
  intros run_id ts pid pname flows.
  induction flows as [|flow rest IH]; intros acc Hacc; cbn [flow_loop].
  - assumption.
  - destruct flow as [ | | | | | | f]; try assumption.
    destruct (dict_lookup "scenarioRunDetails" f) as [[ | | | | | entries | ]|];
      try (apply IH; assumption).
    pose proof (scenario_loop_of_run run_id ts pid pname
                  (dict_get "flowId" (JStr "") f) (dict_get "flowName" (JStr "") f)
                  entries acc Hacc) as Hs.
    destruct (scenario_loop run_id ts pid pname _ _ entries acc) as [acc' [|]];
      cbn [fst] in *; [assumption | apply IH; assumption].
Qed.

Lemma process_loop_of_run : forall run_id ts processes acc,
  Forall (record_of_run run_id ts) acc ->
  Forall (record_of_run run_id ts) (fst (process_loop run_id ts processes acc)).
Proof.
  intros run_id ts processes.
  induction processes as [|process rest IH]; intros acc Hacc; cbn [process_loop].
  - assumption.
  - destruct process as [ | | | | | | p]; try assumption.
    destruct (dict_lookup "flows" p) as [[ | | | | | flows | ]|];
      try (apply IH; assumption).
    pose proof (flow_loop_of_run run_id ts (dict_get "processId" (JStr "") p)
                  (dict_get "processName" (JStr "") p) flows acc Hacc) as Hf.
    destruct (flow_loop run_id ts _ _ flows acc) as [acc' [|]];
      cbn [fst] in *; [assumption | apply IH; assumption].
Qed.

Lemma extract_body_of_run : forall run_id ts api_response,
  Forall (record_of_run run_id ts) (extract_body run_id ts api_response).
Proof.
  intros run_id ts api_response. unfold extract_body.
  repeat match goal with
    | |- Forall _ [] => constructor
    | |- Forall _ (fst (process_loop _ _ _ [])) => apply process_loop_of_run; constructor
    | |- Forall _ (match ?x with _ => _ end) => destruct x
    end.
Qed.

Lemma extract_scenario_details_eq : forall e run_id api_response created_timestamp w,
  fst (extract_scenario_details e run_id api_response created_timestamp w)
  = if negb (py_truthy api_response) then []
    else extract_body run_id (effective_timestamp e created_timestamp w) api_response.
Proof.
  intros e run_id api_response cts w. unfold extract_scenario_details.
  destruct (negb (py_truthy api_response)); [reflexivity |].
  unfold effective_timestamp.
  destruct cts as [[ | | | | | | ]|]; reflexivity.
Qed.

(** X7.  Every record flattened from a run's report carries that run's
    id and the run's timestamp: the one handed in, or the local time of
    the call when none is handed in (absent or null); its status is
    [Passed], [Failed] or empty, whatever the shape of the report. *)
Theorem flattened_records_belong_to_run :
  forall (e : env) (run_id : string) (api_response : json)
         (created_timestamp : option json) (w : world),
    Forall (record_of_run run_id (effective_timestamp e created_timestamp w))
           (fst (extract_scenario_details e run_id api_response created_timestamp w)).
Proof.
  intros e run_id api_response cts w. rewrite extract_scenario_details_eq.
  destruct (negb (py_truthy api_response)).
  - constructor.
  - apply extract_body_of_run.
Qed.

Lemma scenario_loop_dicts : forall run_id ts pid pname fid fname entries acc,
  forallb is_dict entries = true ->
  scenario_loop run_id ts pid pname fid fname entries acc
  = ((acc ++ map (fun entry => scenario_record run_id ts pid pname fid fname
                                 (dict_of entry)) entries)%list, false).
Proof.
  intros run_id ts pid pname fid fname entries.
  induction entries as [|entry rest IH]; intros acc H; cbn [scenario_loop map].
  - rewrite app_nil_r. reflexivity.
  - cbn [forallb] in H. apply andb_true_iff in H. destruct H as [Hd Hrest].
    destruct entry; try discriminate Hd.
    rewrite (IH _ Hrest), <- app_assoc. reflexivity.
Qed.

Lemma flow_loop_well_formed : forall run_id ts pid pname flows acc,
  forallb well_formed_flow flows = true ->
  flow_loop run_id ts pid pname flows acc
  = ((acc ++ flat_map (fun flow => records_of_flow run_id ts pid pname (dict_of flow))
                      flows)%list, false).
Proof.
  intros run_id ts pid pname flows.
  induction flows as [|flow rest IH]; intros acc H; cbn [flow_loop flat_map].
  - rewrite app_nil_r. reflexivity.
  - cbn [forallb] in H. apply andb_true_iff in H. destruct H as [Hf Hrest].
    destruct flow as [ | | | | | | f]; try discriminate Hf.
    cbn [well_formed_flow] in Hf. cbn [dict_of]. unfold records_of_flow at 1.
    destruct (dict_lookup "scenarioRunDetails" f) as [[ | | | | | entries | ]|];
      try (rewrite (IH _ Hrest); reflexivity).
    rewrite (scenario_loop_dicts _ _ _ _ _ _ _ _ Hf), (IH _ Hrest), <- app_assoc.
    reflexivity.
Qed.

Lemma process_loop_well_formed : forall run_id ts processes acc,
  forallb well_formed_process processes = true ->
  process_loop run_id ts processes acc
  = ((acc ++ flat_map (fun process => records_of_process run_id ts (dict_of process))
                      processes)%list, false).
Proof.
  intros run_id ts processes.
  induction processes as [|process rest IH]; intros acc H; cbn [process_loop flat_map].
  - rewrite app_nil_r. reflexivity.
  - cbn [forallb] in H. apply andb_true_iff in H. destruct H as [Hp Hrest].
    destruct process as [ | | | | | | p]; try discriminate Hp.
    cbn [well_formed_process] in Hp. cbn [dict_of]. unfold records_of_process at 1.
    destruct (dict_lookup "flows" p) as [[ | | | | | flows | ]|];
      try (rewrite (IH _ Hrest); reflexivity).
    rewrite (flow_loop_well_formed _ _ _ _ _ _ Hp), (IH _ Hrest), <- app_assoc.
    reflexivity.
Qed.

(** X8.  When every process, flow and scenario entry of a run's report is
    an object, flattening gives one record per scenario entry, in the
    order of the report: the records of each process in turn, and within
    a process those of each flow in turn. *)
Theorem flattening_well_formed_report :
  forall (run_id : string) (ts : json) (processes : list json),
    forallb well_formed_process processes = true ->
    extract_body run_id ts (report_with_processes run_id (JList processes))
    = flat_map (fun process => records_of_process run_id ts (dict_of process)) processes.
Proof.
  intros run_id ts processes H.
  rewrite extract_body_report_with_processes. cbn [py_iter].
  rewrite (process_loop_well_formed _ _ _ [] H). reflexivity.
Qed.

Lemma flattening_well_formed_report_witness :
  extract_body "9" (JStr "t")
    (report_with_processes "9"
       (JList [process_with_flows
                 [flow_with_scenarios [scenario_entry 1 "a" (JDict [("0", JBool true)]);
                                       scenario_entry 2 "b" (JDict [])];
                  JDict [("flowId", JInt 4)]];
               JDict [("processId", JInt 8)]]))
  = flat_map (fun process => records_of_process "9" (JStr "t") (dict_of process))
      [process_with_flows
         [flow_with_scenarios [scenario_entry 1 "a" (JDict [("0", JBool true)]);
                               scenario_entry 2 "b" (JDict [])];
          JDict [("flowId", JInt 4)]];
       JDict [("processId", JInt 8)]].
Proof.
  apply (flattening_well_formed_report "9" (JStr "t")). reflexivity.
Defined.

Lemma scenario_loop_stops : forall run_id ts pid pname fid fname good bad rest acc,
  forallb is_dict good = true -> is_dict bad = false ->
  scenario_loop run_id ts pid pname fid fname (good ++ bad :: rest) acc
  = ((acc ++ map (fun entry => scenario_record run_id ts pid pname fid fname
                                 (dict_of entry)) good)%list, true).
Proof.
  intros run_id ts pid pname fid fname good bad rest.
  induction good as [|entry good IH]; intros acc Hg Hb; cbn [app scenario_loop map].
  - rewrite app_nil_r. destruct bad; try reflexivity. discriminate Hb.
  - cbn [forallb] in Hg. apply andb_true_iff in Hg. destruct Hg as [Hd Hg].
    destruct entry; try discriminate Hd.
    rewrite (IH _ Hg Hb), <- app_assoc. reflexivity.
Qed.

(* ================================================================= *)
(** ** Fetching all runs *)

Lemma extract_scenario_details_run_id : forall e run_id report ts w s,
  In s (fst (extract_scenario_details e run_id report ts w)) -> runId s = run_id.
Proof.
  intros e run_id report ts w s H. rewrite extract_scenario_details_eq in H.
  destruct (negb (py_truthy report)); [contradiction |].
  pose proof (extract_body_of_run run_id (effective_timestamp e ts w) report) as Hall.
  rewrite Forall_forall in Hall. apply (Hall s H).
Qed.

Lemma extract_scenario_details_trace : forall e run_id report ts w,
  trace (snd (extract_scenario_details e run_id report ts w)) = trace w.
Proof.
  intros e run_id report ts w. unfold extract_scenario_details.
  destruct (negb (py_truthy report)); [reflexivity |].
  destruct ts as [[ | | | | | | ]|]; reflexivity.
Qed.

Lemma get_report_by_run_id_eq : forall e run_id w,
  get_report_by_run_id e run_id w
  = (report_response e run_id,
     mkWorld (ticks w) (store w) (EvGetReport run_id :: trace w)).
Proof. reflexivity. Qed.

Lemma get_runs_eq : forall e w,
  get_runs e w = (runs_response e, mkWorld (ticks w) (store w) (EvGetRuns :: trace w)).
Proof. reflexivity. Qed.

Lemma fetch_loop_spec : forall e tm run_ids acc w,
  (forall s, In s (fst (fetch_loop e tm run_ids acc w)) ->
     In s acc \/ (In (runId s) run_ids /\ report_fetched e (runId s)))
  /\ trace (snd (fetch_loop e tm run_ids acc w))
     = (rev (map EvGetReport run_ids) ++ trace w)%list.
Proof.
  intros e tm run_ids. induction run_ids as [|run_id rest IH]; intros acc w.
  - split; [intros s H; left; exact H | reflexivity].
  - cbn [fetch_loop].
    rewrite !bind_fst, !bind_snd, !get_report_by_run_id_eq. cbn [fst snd].
    set (w1 := mkWorld (ticks w) (store w) (EvGetReport run_id :: trace w)).
    assert (Hskip :
      (forall s, In s (fst (fetch_loop e tm rest acc w1)) ->
         In s acc \/ (In (runId s) (run_id :: rest) /\ report_fetched e (runId s)))
      /\ trace (snd (fetch_loop e tm rest acc w1))
         = (rev (map EvGetReport (run_id :: rest)) ++ trace w)%list).
    { destruct (IH acc w1) as [H1 H2]. split.
      - intros s Hs. destruct (H1 s Hs) as [H | [H H']]; [left; exact H |].
        right. split; [right; exact H | exact H'].
      - rewrite H2. cbn [map rev]. rewrite <- app_assoc. reflexivity. }
    destruct (report_response e run_id) as [report|] eqn:Er; [| exact Hskip].
    destruct (negb (py_truthy report)) eqn:Et; [exact Hskip |].
    rewrite bind_fst, bind_snd.
    pose proof (extract_scenario_details_run_id e run_id report
                  (timestamp_for tm run_id) w1) as Hid.
    pose proof (extract_scenario_details_trace e run_id report
                  (timestamp_for tm run_id) w1) as Htr.
    destruct (extract_scenario_details e run_id report (timestamp_for tm run_id) w1)
      as [scenarios w2]. cbn [fst snd] in *.
    destruct (IH (acc ++ scenarios)%list w2) as [H1 H2]. split.
    + intros s Hs. destruct (H1 s Hs) as [H | [H H']].
      * apply in_app_or in H. destruct H as [H | H]; [left; exact H |].
        right. rewrite (Hid s H). split; [left; reflexivity |].
        exists report. split; [exact Er |]. apply negb_false_iff. exact Et.
      * right. split; [right; exact H | exact H'].
    + rewrite H2, Htr. cbn [map rev]. rewrite <- app_assoc. reflexivity.
Qed.

Lemma timestamps_after_run_ids : forall items ids,
  run_ids_of_items items = Returned ids ->
  forall acc, exists tm, timestamps_of_items items acc = Returned tm.
Proof.
  induction items as [|item rest IH]; intros ids H acc.
  - exists acc. reflexivity.
  - cbn [run_ids_of_items] in H. destruct item; try discriminate H.
    destruct (run_ids_of_items rest) as [ids'|]; [| discriminate H].
    cbn [timestamps_of_items]. eapply IH. reflexivity.
Qed.

Lemma get_run_timestamps_after_run_ids : forall runs ids,
  py_truthy runs = true ->
  extract_run_ids runs = Returned ids ->
  exists tm, get_run_timestamps runs = Returned tm.
Proof.
  intros runs ids Ht H. unfold extract_run_ids in H. rewrite Ht in H. cbn [negb] in H.
  unfold get_run_timestamps. destruct runs; try (eexists; reflexivity).
  destruct (dict_lookup "data" d) as [items|]; [| eexists; reflexivity].
  destruct (py_iter items) as [l|]; [| discriminate H].
  eapply timestamps_after_run_ids. exact H.
Qed.

(** X10.  Every record [fetch_all_scenarios] returns belongs to a run of
    the listing whose report request succeeded with a non-empty
    payload. *)
Theorem fetched_records_from_listed_runs :
  forall (e : env) (w : world) (all_scenarios : list scenario) (s : scenario),
    fst (fetch_all_scenarios e w) = Returned all_scenarios ->
    In s all_scenarios ->
    exists runs run_ids,
      runs_response e = Some runs /\
      extract_run_ids runs = Returned run_ids /\
      In (runId s) run_ids /\
      report_fetched e (runId s).
Proof.
  intros e w all_scenarios s H Hs. unfold fetch_all_scenarios in H.
  rewrite !bind_fst, ?bind_snd, !get_runs_eq in H. cbn [fst snd] in H.
  destruct (runs_response e) as [runs|] eqn:Er.
  2:{ unfold ret in H. cbn [fst] in H. inversion H; subst. contradiction. }
  destruct (negb (py_truthy runs)).
  { unfold ret in H. cbn [fst] in H. inversion H; subst. contradiction. }
  destruct (extract_run_ids runs) as [run_ids|] eqn:Ei; [| discriminate H].
  destruct (get_run_timestamps runs) as [tm|]; [| discriminate H].
  destruct run_ids as [|r0 rest].
  { unfold ret in H. cbn [fst] in H. inversion H; subst. contradiction. }
  rewrite bind_fst in H. unfold ret in H. cbn [fst] in H. injection H as H.
  exists runs, (r0 :: rest). split; [reflexivity |]. split; [exact Ei |].
  rewrite <- H in Hs.
  destruct (proj1 (fetch_loop_spec e tm (r0 :: rest) [] _) s Hs) as [[] | H'].
  exact H'.
Qed.

Lemma fetched_records_from_listed_runs_witness :
  let l := match fst (fetch_all_scenarios sample_env empty_world) with
           | Returned l => l
           | Raised _ => []
           end in
  let s := hd (sample_scenario "" "") l in
  exists runs run_ids,
    runs_response sample_env = Some runs /\
    extract_run_ids runs = Returned run_ids /\
    In (runId s) run_ids /\
    report_fetched sample_env (runId s).
Proof.
  intros l s.
  apply (fetched_records_from_listed_runs sample_env empty_world l s).
  - vm_compute. reflexivity.
  - vm_compute. left. reflexivity.
Defined.

(** X11.  Once the listing is read and its run ids extracted,
    [fetch_all_scenarios] returns normally and has requested the report
    of every listed run exactly once, in listing order, after the single
    listing request: a failed or empty report does not stop the loop. *)
Theorem one_report_request_per_listed_run :
  forall (e : env) (w : world) (runs : json) (run_ids : list string),
    runs_response e = Some runs ->
    py_truthy runs = true ->
    extract_run_ids runs = Returned run_ids ->
    trace (snd (fetch_all_scenarios e w))
    = (rev (map EvGetReport run_ids) ++ EvGetRuns :: trace w)%list
    /\ exists all_scenarios, fst (fetch_all_scenarios e w) = Returned all_scenarios.
Proof.
  intros e w runs run_ids Hr Ht Hi.
  destruct (get_run_timestamps_after_run_ids runs run_ids Ht Hi) as [tm Htm].
  unfold fetch_all_scenarios.
  rewrite !bind_fst, !bind_snd, !get_runs_eq. cbn [fst snd].
  rewrite Hr, Ht, Hi, Htm. cbn [negb].
  destruct run_ids as [|r0 rest].
  - split; [reflexivity | eexists; reflexivity].
  - rewrite bind_fst, bind_snd. unfold ret. cbn [fst snd].
    split; [| eexists; reflexivity].
    exact (proj2 (fetch_loop_spec e tm (r0 :: rest) []
                    (mkWorld (ticks w) (store w) (EvGetRuns :: trace w)))).
Qed.

Lemma one_report_request_per_listed_run_witness :
  trace (snd (fetch_all_scenarios sample_env empty_world))
  = [EvGetReport "102"; EvGetReport "101"; EvGetRuns]
  /\ exists all_scenarios,
       fst (fetch_all_scenarios sample_env empty_world) = Returned all_scenarios.
Proof.
  apply (one_report_request_per_listed_run sample_env empty_world sample_runs
           ["101"; "102"]); reflexivity.
Defined.

(* ================================================================= *)
(** ** More on the per-run replacement *)

Lemma key_eqb_eq : forall a b, key_eqb a b = true <-> a = b.
Proof.
  intros [a1 a2] [b1 b2]. unfold key_eqb. cbn [fst snd].
  rewrite andb_true_iff, !String.eqb_eq. split.
  - intros [-> ->]. reflexivity.
  - intros H. inversion H. split; reflexivity.
Qed.

Lemma has_key_true : forall k l,
  has_key k l = true <-> exists r, In r l /\ key r = k.
Proof.
  intros k l. unfold has_key. rewrite existsb_exists.
  split; intros (r & Hr & Hk); exists r; (split; [exact Hr |]); apply key_eqb_eq; exact Hk.
Qed.

Lemma has_key_false : forall k l,
  has_key k l = false <-> forall r, In r l -> key r <> k.
Proof.
  intros k l. split.
  - intros H r Hr Hk. assert (Ht : has_key k l = true)
      by (apply has_key_true; exists r; split; assumption).
    rewrite H in Ht. discriminate Ht.
  - intros H. destruct (has_key k l) eqn:E; [| reflexivity].
    apply has_key_true in E. destruct E as (r & Hr & Hk). exfalso. exact (H r Hr Hk).
Qed.

Lemma keys_distinct_app : forall a b,
  keys_distinct (a ++ b) = true <->
  keys_distinct a = true /\ keys_distinct b = true /\
  (forall y, In y b -> has_key (key y) a = false).
Proof.
  induction a as [|x a IH]; intros b.
  - cbn [app keys_distinct]. split.
    + intros H. split; [reflexivity |]. split; [exact H |].
      intros y _. reflexivity.
    + intros (_ & H & _). exact H.
  - cbn [app keys_distinct]. rewrite !andb_true_iff, !negb_true_iff, IH, has_key_app.
    rewrite orb_false_iff. split.
    + intros ((Hxa & Hxb) & Ha & Hb & Hab). repeat split; try assumption.
      intros y Hy. unfold has_key. cbn [existsb]. apply orb_false_iff. split.
      * destruct (key_eqb (key x) (key y)) eqn:E; [| reflexivity].
        apply key_eqb_eq in E. rewrite has_key_false in Hxb.
        exfalso. apply (Hxb y Hy). symmetry. exact E.
      * exact (Hab y Hy).
    + intros ((Hxa & Ha) & Hb & Hab). repeat split; try assumption.
      * apply has_key_false. intros y Hy Hk.
        specialize (Hab y Hy). unfold has_key in Hab. cbn [existsb] in Hab.
        apply orb_false_iff in Hab. destruct Hab as [Hab _].
        assert (Ht : key_eqb (key x) (key y) = true)
          by (apply key_eqb_eq; symmetry; exact Hk).
        rewrite Ht in Hab. discriminate Hab.
      * intros y Hy. specialize (Hab y Hy). unfold has_key in Hab. cbn [existsb] in Hab.
        apply orb_false_iff in Hab. exact (proj2 Hab).
Qed.

Lemma keys_distinct_filter : forall f l,
  keys_distinct l = true -> keys_distinct (filter f l) = true.
Proof.
  intros f l. induction l as [|x l IH]; intros H; [reflexivity |].
  cbn [keys_distinct] in H. apply andb_true_iff in H. destruct H as [Hx Hl].
  cbn [filter]. destruct (f x); [| exact (IH Hl)].
  cbn [keys_distinct]. apply andb_true_iff. split; [| exact (IH Hl)].
  apply negb_true_iff in Hx. apply negb_true_iff.
  rewrite has_key_false in *. intros r Hr. apply Hx.
  apply filter_In in Hr. exact (proj1 Hr).
Qed.

Lemma insert_batch_some : forall batch st,
  keys_distinct (st ++ batch) = true ->
  insert_batch batch st = Some (st ++ batch)%list.
Proof.
  intros batch st H. apply keys_distinct_app in H. destruct H as (_ & Hb & Hd).
  unfold insert_batch. rewrite Hb. cbn [andb].
  replace (forallb (fun r => negb (has_key (key r) st)) batch) with true; [reflexivity |].
  symmetry. apply forallb_forall. intros y Hy. rewrite (Hd y Hy). reflexivity.
Qed.

Lemma chunks_aux_concat : forall {A} fuel n (l : list A),
  (List.length l <= fuel)%nat -> List.concat (chunks_aux fuel (S n) l) = l.
Proof.
  intros A fuel n. induction fuel as [|fuel IH]; intros l Hl.
  - destruct l; [reflexivity | cbn [List.length] in Hl; lia].
  - cbn [chunks_aux]. destruct l as [|a l']; [reflexivity |].
    cbn [List.concat]. rewrite IH.
    + apply firstn_skipn.
    + rewrite length_skipn. cbn [List.length] in *. lia.
Qed.

Lemma chunks_aux_sizes : forall {A} fuel n (l : list A),
  Forall (fun b => (1 <= List.length b <= S n)%nat) (chunks_aux fuel (S n) l).
Proof.
  intros A fuel n. induction fuel as [|fuel IH]; intros l.
  - constructor.
  - cbn [chunks_aux]. destruct l as [|a l']; constructor.
    + rewrite length_firstn. cbn [List.length]. lia.
    + apply IH.
Qed.

(** X12.  The batches of one run are consecutive slices of its rows:
    put end to end they give the rows back, in order, and each batch has
    at least one and at most 50 rows. *)
Theorem batches_cover_rows : forall (run_scenarios : list row),
  List.concat (chunks batch_size run_scenarios) = run_scenarios
  /\ Forall (fun batch => (1 <= List.length batch <= 50)%nat)
            (chunks batch_size run_scenarios).
Proof.
  intros l. unfold chunks, batch_size. split.
  - apply chunks_aux_concat. lia.
  - apply chunks_aux_sizes.
Qed.

Lemma insert_batches_on_distinct : forall fuel n l acc,
  (List.length l <= fuel)%nat ->
  keys_distinct (acc ++ l) = true ->
  insert_batches_on (chunks_aux fuel (S n) l) acc = ((acc ++ l)%list, true).
Proof.
  induction fuel as [|fuel IH]; intros n l acc Hl Hd.
  - destruct l; [| cbn [List.length] in Hl; lia]. rewrite app_nil_r. reflexivity.
  - cbn [chunks_aux]. destruct l as [|a l']; [rewrite app_nil_r; reflexivity |].
    cbn [insert_batches_on].
    assert (Hsplit : (acc ++ a :: l' = (acc ++ firstn (S n) (a :: l')) ++ skipn (S n) (a :: l'))%list)
      by (rewrite <- app_assoc, firstn_skipn; reflexivity).
    rewrite insert_batch_some.
    + rewrite IH.
      * rewrite <- Hsplit. reflexivity.
      * rewrite length_skipn. cbn [List.length] in *. lia.
      * rewrite <- Hsplit. exact Hd.
    + rewrite Hsplit in Hd. apply keys_distinct_app in Hd. exact (proj1 Hd).
Qed.

Lemma run_outcome_distinct : forall run_id data,
  keys_distinct data = true ->
  run_outcome run_id data = (rows_of run_id data, true).
Proof.
  intros run_id data H. unfold run_outcome, chunks, batch_size.
  apply (insert_batches_on_distinct _ 49 (rows_of run_id data) []); [lia |].
  cbn [app]. unfold rows_of. apply keys_distinct_filter. exact H.
Qed.

Lemma replace_loop_on_rows : forall data,
  (forall r, snd (run_outcome r data) = true) ->
  forall ids st,
    snd (replace_loop_on ids data st) = true
    /\ forall r', rows_of r' (fst (replace_loop_on ids data st))
                  = if existsb (String.eqb r') ids
                    then fst (run_outcome r' data) else rows_of r' st.
Proof.
  intros data Hok ids. induction ids as [|r ids IH]; intros st.
  - split; [reflexivity | intros r'; reflexivity].
  - cbn [replace_loop_on existsb].
    pose proof (rows_of_replace_run_on r) as Hv.
    rewrite replace_run_on_eq in *. rewrite Hok.
    destruct (IH (delete_run r st ++ fst (run_outcome r data))%list) as [IH1 IH2].
    split; [exact IH1 |]. intros r'. rewrite IH2.
    specialize (Hv r' data st). rewrite replace_run_on_eq in Hv. cbn [fst] in Hv.
    rewrite Hv. destruct (String.eqb r' r) eqn:E; cbn [orb].
    + apply String.eqb_eq in E. subst r'. destruct (existsb (String.eqb r) ids); reflexivity.
    + reflexivity.
Qed.

Lemma replace_loop_on_other_runs : forall data ids st r',
  ~ In r' ids ->
  rows_of r' (fst (replace_loop_on ids data st)) = rows_of r' st.
Proof.
  intros data ids. induction ids as [|r ids IH]; intros st r' Hn.
  - reflexivity.
  - cbn [replace_loop_on].
    pose proof (rows_of_replace_run_on r r' data st) as Hv.
    assert (E : String.eqb r' r = false).
    { apply String.eqb_neq. intros ->. apply Hn. left. reflexivity. }
    rewrite E in Hv.
    destruct (replace_run_on r data st) as [st' [|]]; cbn [fst] in *.
    + rewrite IH; [exact Hv |]. intros H. apply Hn. right. exact H.
    + exact Hv.
Qed.

(** X13.  [insert_scenarios] leaves the rows of every run that is not
    among the run ids of the records exactly as they were, whether the
    pass succeeds or stops at a refused insert. *)
Theorem other_runs_untouched :
  forall (e : env) (scenario_data : list scenario) (w : world) (run_id : string),
    ~ In run_id (set_iter e (map runId scenario_data)) ->
    rows_of run_id (store (snd (insert_scenarios e scenario_data w)))
    = rows_of run_id (store w).
Proof.
  intros e sd w run_id H.
  rewrite (proj1 (insert_scenarios_store e sd w)).
  apply replace_loop_on_other_runs. exact H.
Qed.

Lemma other_runs_untouched_witness :
  rows_of "77"
    (store (snd (insert_scenarios sample_env [sample_scenario "101" "1"]
                   (world_with [stamp 5 (sample_scenario "77" "1");
                                stamp 5 (sample_scenario "101" "9")]))))
  = [stamp 5 (sample_scenario "77" "1")].
Proof.
  apply (other_runs_untouched sample_env [sample_scenario "101" "1"]
           (world_with [stamp 5 (sample_scenario "77" "1");
                        stamp 5 (sample_scenario "101" "9")]) "77").
  vm_compute. intros [H | []]. discriminate H.
Defined.

Lemma insert_scenarios_ok : forall e scenario_data w,
  fst (fst (insert_scenarios e scenario_data w))
  = snd (replace_loop_on (set_iter e (map runId scenario_data))
                         (map (stamp (utc_clock e (ticks w) + utc_offset e)) scenario_data)
                         (store w)).
Proof.
  intros e sd w. unfold insert_scenarios. rewrite !bind_fst, ?bind_snd, !now_eq.
  cbn [fst snd].
  set (w1 := mkWorld (S (ticks w)) (store w) (trace w)).
  set (data := map (stamp (utc_clock e (ticks w) + utc_offset e)) sd).
  destruct (replace_loop_store (set_iter e (map runId sd)) data w1) as (_ & Hf & _).
  change (store w1) with (store w) in Hf. rewrite <- Hf.
  destruct (fst (replace_loop (set_iter e (map runId sd)) data w1)); reflexivity.
Qed.

Lemma keys_distinct_stamp : forall t scenario_data,
  keys_distinct (map (stamp t) scenario_data) = scenario_keys_distinct scenario_data.
Proof.
  intros t sd. unfold scenario_keys_distinct.
  rewrite (map_stamp_restamp t 0). apply keys_distinct_restamp.
Qed.

Lemma rows_of_stamp : forall t run_id scenario_data,
  rows_of run_id (map (stamp t) scenario_data)
  = map (stamp t) (scenarios_of run_id scenario_data).
Proof.
  intros t run_id sd. unfold rows_of, scenarios_of.
  induction sd as [|s sd IH]; [reflexivity |].
  cbn [map filter]. change (in_run run_id (stamp t s)) with (String.eqb (runId s) run_id).
  destruct (String.eqb (runId s) run_id); cbn [map]; rewrite IH; reflexivity.
Qed.

(** X14.  Records without a repeated (runId, scenarioId) are always
    accepted, whatever the table held: [insert_scenarios] reports
    success, and each run among the run ids then holds exactly its
    records, in the order collected, stamped with the time of the call. *)
Theorem distinct_records_replace_runs :
  forall (e : env) (scenario_data : list scenario) (w : world) (run_id : string),
    scenario_keys_distinct scenario_data = true ->
    In run_id (set_iter e (map runId scenario_data)) ->
    fst (fst (insert_scenarios e scenario_data w)) = true
    /\ rows_of run_id (store (snd (insert_scenarios e scenario_data w)))
       = map (stamp (utc_clock e (ticks w) + utc_offset e))
             (scenarios_of run_id scenario_data).
Proof.
  intros e sd w run_id Hd Hin.
  set (t := utc_clock e (ticks w) + utc_offset e).
  assert (Hout : forall r, run_outcome r (map (stamp t) sd)
                           = (rows_of r (map (stamp t) sd), true)).
  { intros r. apply run_outcome_distinct. rewrite keys_distinct_stamp. exact Hd. }
  destruct (replace_loop_on_rows (map (stamp t) sd)
              (fun r => f_equal snd (Hout r))
              (set_iter e (map runId sd)) (store w)) as [Hok Hrows].
  split.
  - rewrite insert_scenarios_ok. exact Hok.
  - rewrite (proj1 (insert_scenarios_store e sd w)). fold t. rewrite Hrows.
    replace (existsb (String.eqb run_id) (set_iter e (map runId sd))) with true.
    + rewrite Hout. cbn [fst]. apply rows_of_stamp.
    + symmetry. apply existsb_exists. exists run_id.
      split; [exact Hin | apply String.eqb_refl].
Qed.

Lemma distinct_records_replace_runs_witness :
  fst (fst (insert_scenarios sample_env
              [sample_scenario "101" "1"; sample_scenario "102" "1";
               sample_scenario "101" "2"]
              (world_with [stamp 5 (sample_scenario "101" "9")]))) = true
  /\ rows_of "101"
       (store (snd (insert_scenarios sample_env
                      [sample_scenario "101" "1"; sample_scenario "102" "1";
                       sample_scenario "101" "2"]
                      (world_with [stamp 5 (sample_scenario "101" "9")]))))
     = map (stamp (utc_clock sample_env 0 + utc_offset sample_env))
           (scenarios_of "101"
              [sample_scenario "101" "1"; sample_scenario "102" "1";
               sample_scenario "101" "2"]).
Proof.
  apply (distinct_records_replace_runs sample_env
           [sample_scenario "101" "1"; sample_scenario "102" "1";
            sample_scenario "101" "2"]
           (world_with [stamp 5 (sample_scenario "101" "9")]) "101").
  - reflexivity.
  - left. reflexivity.
Defined.

(* ================================================================= *)
(** ** The gate and the query path *)

Lemma gate_all_rows_old : forall now_ st,
  match latest st with
  | None => true
  | Some t => 86400 * US_PER_SECOND <? now_ - t
  end
  = forallb (fun r => 86400 * US_PER_SECOND <? now_ - last_updated_timestamp r) st.
Proof.
  intros now_ st. induction st as [|r st IH]; [reflexivity |].
  cbn [latest forallb]. rewrite <- IH.
  destruct (latest st) as [t|].
  - destruct (Z.max_spec (last_updated_timestamp r) t) as [[Hlt Hm] | [Hle Hm]];
      rewrite Hm.
    + destruct (86400 * US_PER_SECOND <? now_ - t) eqn:E.
      * apply Z.ltb_lt in E. symmetry. apply andb_true_iff. split; [| reflexivity].
        apply Z.ltb_lt. lia.
      * rewrite andb_false_r. reflexivity.
    + destruct (86400 * US_PER_SECOND <? now_ - last_updated_timestamp r) eqn:E.
      * apply Z.ltb_lt in E. symmetry. apply Z.ltb_lt. lia.
      * reflexivity.
  - rewrite andb_true_r. reflexivity.
Qed.

(** X16.  [should_run_ingestion] answers true exactly when every row of
    the table was written more than 86400 seconds before the clock
    reading; one row written 24 hours ago or later is enough to skip
    ingestion. *)
Theorem gate_is_all_rows_stale : forall (e : env) (w : world),
  fst (should_run_ingestion e w)
  = forallb (fun r => 86400 * US_PER_SECOND
                      <? utc_clock e (ticks w) + utc_offset e - last_updated_timestamp r)
            (store w).
Proof.
  intros e w. rewrite should_run_ingestion_eq. apply gate_all_rows_old.
Qed.

Example gate_boundary :
  fst (should_run_ingestion sample_env
         (world_with [stamp (sample_now - timedelta 0 24 0) (sample_scenario "101" "1")]))
  = false
  /\ fst (should_run_ingestion sample_env
            (world_with [stamp (sample_now - timedelta 0 24 1) (sample_scenario "101" "1")]))
     = true.
Proof. vm_compute. split; reflexivity. Qed.

Lemma should_run_ingestion_world : forall e w,
  store (snd (should_run_ingestion e w)) = store w
  /\ ticks (snd (should_run_ingestion e w))
     = match store w with [] => ticks w | _ :: _ => S (ticks w) end.
Proof.
  intros e w. unfold should_run_ingestion, get_last_updated_timestamp, bind, emit,
    get_store, ret. cbn [fst snd store ticks].
  destruct (store w) as [|r st] eqn:E.
  - cbn [latest snd store ticks]. split; reflexivity.
  - assert (Hl : exists t, latest (r :: st) = Some t).
    { destruct (latest (r :: st)) eqn:El; [eexists; reflexivity |].
      apply latest_none in El. discriminate El. }
    destruct Hl as [t Hl]. rewrite Hl. unfold now. cbn [snd store ticks].
    split; reflexivity.
Qed.

(** X17.  When the clock does not run backwards, the second staleness
    check, made by [ingest_scenarios] right after the one of
    [process_query], agrees with a first check that asked for ingestion:
    inside [process_query] ingestion is never skipped as "not time
    yet". *)
Theorem second_gate_check_agrees : forall (e : env) (w : world),
  utc_clock e (ticks w) <= utc_clock e (S (ticks w)) ->
  fst (should_run_ingestion e w) = true ->
  fst (should_run_ingestion e (snd (should_run_ingestion e w))) = true.
Proof.
  intros e w Hclock H.
  destruct (should_run_ingestion_world e w) as [Hs Ht].
  rewrite should_run_ingestion_eq in *. rewrite Hs.
  destruct (store w) as [|r st] eqn:E; [reflexivity |].
  rewrite Ht. destruct (latest (r :: st)) as [t|]; [| reflexivity].
  apply Z.ltb_lt in H. apply Z.ltb_lt. lia.
Qed.

Lemma second_gate_check_agrees_witness :
  fst (should_run_ingestion sample_env
         (snd (should_run_ingestion sample_env
                 (world_with [stamp (sample_now - timedelta 0 25 0)
                                (sample_scenario "101" "1")]))))
  = true.
Proof.
  apply (second_gate_check_agrees sample_env
           (world_with [stamp (sample_now - timedelta 0 25 0)
                          (sample_scenario "101" "1")])).
  - vm_compute. discriminate.
  - vm_compute. reflexivity.
Defined.

Lemma only_ticks_refl : forall w, only_ticks w w.
Proof. intros w. split; reflexivity. Qed.

Lemma only_ticks_trans : forall w1 w2 w3,
  only_ticks w1 w2 -> only_ticks w2 w3 -> only_ticks w1 w3.
Proof. unfold only_ticks. intros w1 w2 w3 [H1 H1'] [H2 H2']. split; congruence. Qed.

Lemma utcnow_only_ticks : forall e, keeps only_ticks (utcnow e).
Proof. intros e w. split; reflexivity. Qed.

Lemma keeps_emit_never : forall ev, false = true -> keeps only_ticks (emit ev).
Proof. intros ev H. discriminate H. Qed.

#[local] Hint Resolve utcnow_only_ticks : keeps_db.

Ltac keeps_only_ticks :=
  repeat keeps_step only_ticks_refl only_ticks_trans keeps_emit_never.

Lemma extract_time_filter_only_ticks : forall e q,
  keeps only_ticks (_extract_time_filter e q).
Proof.
  intros e q. unfold _extract_time_filter, time_patterns. cbn [first_time_match].
  unfold _get_today_range, _get_yesterday_range, _get_last_week_range,
    _get_last_month_range, _get_last_24_hours_range, _get_explicit_date_range.
  keeps_only_ticks.
Qed.

Lemma time_description_only_ticks : forall e s t,
  keeps only_ticks (time_description e s t).
Proof. intros e s t. unfold time_description. keeps_only_ticks. Qed.

#[local] Hint Resolve extract_time_filter_only_ticks time_description_only_ticks
  : keeps_db.

Lemma no_results_message_only_ticks : forall e s t status,
  keeps only_ticks (no_results_message e s t status).
Proof. intros e s t status. unfold no_results_message. cbv zeta. keeps_only_ticks. Qed.

Lemma get_store_eq : forall w, get_store w = (store w, w).
Proof. reflexivity. Qed.

Lemma emit_eq : forall ev w,
  emit ev w = (tt, mkWorld (ticks w) (store w) (ev :: trace w)).
Proof. reflexivity. Qed.

Lemma agent_process_query_world : forall e q w,
  store (snd (agent_process_query e q w)) = store w
  /\ trace (snd (agent_process_query e q w))
     = EvQuery (_build_query (fst (fst (_extract_time_filter e q w)))
                             (snd (fst (_extract_time_filter e q w)))
                             (_extract_status_filter q))
       :: trace w.
Proof.
  intros e q w. unfold agent_process_query. rewrite !bind_snd.
  destruct (extract_time_filter_only_ticks e q w) as [Hs Ht].
  destruct (_extract_time_filter e q w) as [[start_time end_time] w1].
  cbn [fst snd] in *. rewrite !bind_snd, !get_store_eq. cbn [fst snd].
  rewrite ?bind_snd, ?emit_eq. cbn [fst snd].
  destruct (execute e _ (store w1)) as [[|row1 rows] | msg].
  - rewrite ?bind_snd.
    match goal with
    | |- context [no_results_message ?e ?s ?t ?st ?w0] =>
        destruct (no_results_message_only_ticks e s t st w0) as [Hs' Ht'];
        destruct (no_results_message e s t st w0) as [message w2]
    end.
    cbn [fst snd store trace] in *. unfold ret. cbn [snd].
    split; congruence.
  - unfold ret. cbn [snd store trace]. split; congruence.
  - unfold ret. cbn [snd store trace]. split; congruence.
Qed.

(** X18.  [FilterAgent.process_query] never changes the table and
    executes exactly one query against it, the one built from the
    filters it extracted, whatever the outcome of that query. *)
Theorem agent_reads_once : forall (e : env) (q : string) (w : world),
  store (snd (agent_process_query e q w)) = store w
  /\ trace (snd (agent_process_query e q w))
     = EvQuery (_build_query (fst (fst (_extract_time_filter e q w)))
                             (snd (fst (_extract_time_filter e q w)))
                             (_extract_status_filter q))
       :: trace w.
Proof.
  intros e q w. unfold agent_process_query. rewrite !bind_snd.
  destruct (extract_time_filter_only_ticks e q w) as [Hs Ht].
  destruct (_extract_time_filter e q w) as [[start_time end_time] w1].
  cbn [fst snd] in *. rewrite !bind_snd, !get_store_eq. cbn [fst snd].
  rewrite ?bind_snd, ?emit_eq. cbn [fst snd].
  destruct (execute e _ (store w1)) as [[|row1 rows] | msg].
  - rewrite ?bind_snd.
    match goal with
    | |- context [no_results_message ?e ?s ?t ?st ?w0] =>
        destruct (no_results_message_only_ticks e s t st w0) as [Hs' Ht'];
        destruct (no_results_message e s t st w0) as [message w2]
    end.
    cbn [fst snd store trace] in *. unfold ret. cbn [snd].
    split; congruence.
  - unfold ret. cbn [snd store trace]. split; congruence.
  - unfold ret. cbn [snd store trace]. split; congruence.
Qed.

(** X19.  When the gate finds the data fresh, the orchestrator's
    [process_query] returns the agent's result without contacting the
    upstream API and without writing: its only calls are the staleness
    read followed by one query, and the table is left as it was. *)
Theorem fresh_data_query_reads_only : forall (e : env) (q : string) (w : world),
  fst (should_run_ingestion e w) = false ->
  store (snd (process_query e q w)) = store w
  /\ (exists plan, trace (snd (process_query e q w))
                   = EvQuery plan :: EvSelectLatest :: trace w)
  /\ fst (process_query e q w)
     = Returned (fst (agent_process_query e q (snd (should_run_ingestion e w)))).
Proof.
  intros e q w H. unfold process_query. rewrite bind_fst, bind_snd, H.
  rewrite bind_fst, bind_snd. unfold ret. cbn [fst snd].
  destruct (agent_process_query_world e q (snd (should_run_ingestion e w))) as [Hs Ht].
  rewrite Hs, Ht. split; [| split].
  - apply (proj1 (should_run_ingestion_world e w)).
  - eexists. f_equal.
    unfold should_run_ingestion, get_last_updated_timestamp, bind, emit, get_store, ret.
    cbn [fst snd store]. destruct (latest (store w)); reflexivity.
  - reflexivity.
Qed.

Lemma fresh_data_query_reads_only_witness :
  store (snd (process_query sample_env "failed today"
                (world_with [stamp sample_now (sample_scenario "101" "1")])))
  = [stamp sample_now (sample_scenario "101" "1")]
  /\ (exists plan,
        trace (snd (process_query sample_env "failed today"
                      (world_with [stamp sample_now (sample_scenario "101" "1")])))
        = [EvQuery plan; EvSelectLatest])
  /\ fst (process_query sample_env "failed today"
            (world_with [stamp sample_now (sample_scenario "101" "1")]))
     = Returned (fst (agent_process_query sample_env "failed today"
                        (snd (should_run_ingestion sample_env
                                (world_with [stamp sample_now
                                               (sample_scenario "101" "1")]))))).
Proof.
  apply (fresh_data_query_reads_only sample_env "failed today"
           (world_with [stamp sample_now (sample_scenario "101" "1")])).
  vm_compute. reflexivity.
Defined.

(** X20.  A successful ingestion closes the gate: after [insert_scenarios]
    has accepted records without a repeated key, the staleness check is
    false as long as the next clock reading is at most 24 hours after the
    one the rows were stamped with. *)
Theorem gate_closed_after_ingestion :
  forall (e : env) (s : scenario) (rest : list scenario) (w : world),
    scenario_keys_distinct (s :: rest) = true ->
    In (runId s) (set_iter e (map runId (s :: rest))) ->
    utc_clock e (S (ticks w)) - utc_clock e (ticks w) <= 86400 * US_PER_SECOND ->
    fst (should_run_ingestion e (snd (insert_scenarios e (s :: rest) w))) = false.
Proof.
  intros e s rest w Hd Hin Hclock.
  set (t := utc_clock e (ticks w) + utc_offset e).
  set (w' := snd (insert_scenarios e (s :: rest) w)).
  assert (Hrow : In (stamp t s) (store w')).
  { assert (Hr : In (stamp t s) (rows_of (runId s) (store w'))).
    { subst w'.
      assert (Hout : forall r, run_outcome r (map (stamp t) (s :: rest))
                               = (rows_of r (map (stamp t) (s :: rest)), true)).
      { intros r. apply run_outcome_distinct. rewrite keys_distinct_stamp. exact Hd. }
      destruct (replace_loop_on_rows (map (stamp t) (s :: rest))
                  (fun r => f_equal snd (Hout r))
                  (set_iter e (map runId (s :: rest))) (store w)) as [_ Hrows].
      rewrite (proj1 (insert_scenarios_store e (s :: rest) w)). fold t. rewrite Hrows.
      replace (existsb (String.eqb (runId s)) (set_iter e (map runId (s :: rest))))
        with true.
      - rewrite Hout. cbn [fst]. rewrite rows_of_stamp. apply in_map.
        unfold scenarios_of. apply filter_In. split; [left; reflexivity |].
        apply String.eqb_refl.
      - symmetry. apply existsb_exists. exists (runId s).
        split; [exact Hin | apply String.eqb_refl]. }
    unfold rows_of in Hr. apply filter_In in Hr. exact (proj1 Hr). }
  rewrite should_run_ingestion_eq, gate_all_rows_old.
  destruct (forallb _ (store w')) eqn:E; [| reflexivity].
  rewrite forallb_forall in E. specialize (E _ Hrow).
  cbn [last_updated_timestamp stamp] in E. apply Z.ltb_lt in E.
  assert (Hticks : ticks w' = S (ticks w))
    by (subst w'; apply (proj2 (insert_scenarios_store e (s :: rest) w))).
  rewrite Hticks in E. subst t. lia.
Qed.

Lemma gate_closed_after_ingestion_witness :
  fst (should_run_ingestion sample_env
         (snd (insert_scenarios sample_env
                 [sample_scenario "101" "1"; sample_scenario "102" "1"] empty_world)))
  = false.
Proof.
  apply (gate_closed_after_ingestion sample_env (sample_scenario "101" "1")
           [sample_scenario "102" "1"] empty_world).
  - reflexivity.
  - left. reflexivity.
  - vm_compute. discriminate.
Defined.

(* ================================================================= *)
(** ** Whole words select the status *)

Lemma search_from_later : forall r pre s prev,
  found (rmatch r (prev_after prev pre) s [] (fun _ _ m => Some m)) = true ->
  found (search_from r prev (pre ++ s)) = true.
Proof.
  intros r pre. induction pre as [|c pre IH]; intros s prev H.
  - cbn [app]. cbn [prev_after fold_left] in H.
    destruct s; cbn [search_from];
      destruct (rmatch r prev _ [] _); try reflexivity; discriminate H.
  - cbn [app search_from].
    destruct (rmatch r prev (c :: pre ++ s) [] _); [reflexivity |].
    apply IH. exact H.
Qed.

Lemma whole_word_passed : forall prev post,
  word_before prev = false -> word_after post = false ->
  found (rmatch re_passed prev (list_ascii_of_string "passed" ++ post) []
                (fun _ _ m => Some m)) = true.
Proof.
  intros prev post Hb Ha. cbn. rewrite Hb, Ha. reflexivity.
Qed.

Lemma whole_word_failed : forall prev post,
  word_before prev = false -> word_after post = false ->
  found (rmatch re_failed prev (list_ascii_of_string "failed" ++ post) []
                (fun _ _ m => Some m)) = true.
Proof.
  intros prev post Hb Ha. cbn. rewrite Hb, Ha. reflexivity.
Qed.

Lemma has_whole_word_matches : forall r word q,
  (forall prev post, word_before prev = false -> word_after post = false ->
     found (rmatch r prev (list_ascii_of_string word ++ post) []
                   (fun _ _ m => Some m)) = true) ->
  has_whole_word word q -> matches r q = true.
Proof.
  intros r word q Hr (pre & post & Hq & Hb & Ha).
  unfold matches, search.
  change (found (search_from r None (list_ascii_of_string q)) = true).
  rewrite (search_from_case r _ (pre ++ list_ascii_of_string word ++ post)%list
             None None eq_refl Hq).
  apply search_from_later. apply Hr; assumption.
Qed.

(* ================================================================= *)
(** ** Flattening follows the document up to the first non-object *)

Lemma before_bad_app : forall {A} (a b : list (item A)),
  before_bad (a ++ b)
  = if snd (before_bad a) then (fst (before_bad a), true)
    else ((fst (before_bad a) ++ fst (before_bad b))%list, snd (before_bad b)).
Proof.
  intros A a b. induction a as [|[x|] a IH]; cbn [app before_bad].
  - destruct (before_bad b). reflexivity.
  - rewrite IH. destruct (before_bad a) as [r [|]]; cbn [fst snd]; reflexivity.
  - reflexivity.
Qed.

Lemma before_bad_map : forall {A B} (f : A -> B) (l : list (item A)),
  before_bad (map (item_map f) l)
  = (map f (fst (before_bad l)), snd (before_bad l)).
Proof.
  intros A B f l. induction l as [|[x|] l IH]; cbn [map item_map before_bad].
  - reflexivity.
  - rewrite IH. destruct (before_bad l). reflexivity.
  - reflexivity.
Qed.

Lemma scenario_loop_items : forall run_id ts pid pname f entries acc,
  scenario_loop run_id ts pid pname
    (dict_get "flowId" (JStr "") f) (dict_get "flowName" (JStr "") f) entries acc
  = let r := before_bad (map (fun entry => item_map (fun d => (f, d))
                                             (item_of_entry entry)) entries) in
    ((acc ++ map (record_in_flow run_id ts pid pname) (fst r))%list, snd r).
Proof.
  intros run_id ts pid pname f entries.
  induction entries as [|entry rest IH]; intros acc; cbn [scenario_loop map].
  - cbn [before_bad fst snd map]. rewrite app_nil_r. reflexivity.
  - destruct entry; cbn [item_of_entry item_map before_bad fst snd map];
      try (rewrite app_nil_r; reflexivity).
    rewrite IH. cbv zeta.
    destruct (before_bad _) as [r b]. cbn [fst snd map].
    rewrite <- app_assoc. reflexivity.
Qed.

Lemma flow_loop_items : forall run_id ts pid pname flows acc,
  flow_loop run_id ts pid pname flows acc
  = let r := before_bad (flat_map items_of_flow flows) in
    ((acc ++ map (record_in_flow run_id ts pid pname) (fst r))%list, snd r).
Proof.
  intros run_id ts pid pname flows.
  induction flows as [|flow rest IH]; intros acc; cbn [flow_loop flat_map].
  - cbn [before_bad fst snd map]. rewrite app_nil_r. reflexivity.
  - cbv zeta. rewrite before_bad_app.
    destruct flow as [ | | | | | | f]; cbn [items_of_flow before_bad fst snd map];
      try (rewrite app_nil_r; reflexivity).
    destruct (dict_lookup "scenarioRunDetails" f) as [[ | | | | | entries | ]|];
      cbn [before_bad fst snd app]; try (rewrite IH; reflexivity).
    rewrite scenario_loop_items. cbv zeta.
    destruct (before_bad (map _ entries)) as [r [|]]; cbn [fst snd].
    + reflexivity.
    + rewrite IH. cbv zeta. rewrite map_app, app_assoc. reflexivity.
Qed.

Lemma process_loop_items : forall run_id ts processes acc,
  process_loop run_id ts processes acc
  = let r := before_bad (flat_map items_of_process processes) in
    ((acc ++ map (record_of_entry run_id ts) (fst r))%list, snd r).
Proof.
  intros run_id ts processes.
  induction processes as [|process rest IH]; intros acc; cbn [process_loop flat_map].
  - cbn [before_bad fst snd map]. rewrite app_nil_r. reflexivity.
  - cbv zeta. rewrite before_bad_app.
    destruct process as [ | | | | | | p]; cbn [items_of_process before_bad fst snd map];
      try (rewrite app_nil_r; reflexivity).
    destruct (dict_lookup "flows" p) as [[ | | | | | flows | ]|];
      cbn [before_bad fst snd app]; try (rewrite IH; reflexivity).
    rewrite flow_loop_items, before_bad_map. cbv zeta. cbn [fst snd].
    destruct (before_bad (flat_map items_of_flow flows)) as [r [|]]; cbn [fst snd].
    + rewrite map_map. reflexivity.
    + rewrite IH. cbv zeta. rewrite map_app, map_map, app_assoc. reflexivity.
Qed.

Lemma extract_body_flattened : forall run_id ts api_response,
  extract_body run_id ts api_response
  = map (record_of_entry run_id ts) (flattened (processes_of run_id api_response)).
Proof.
  intros run_id ts api_response. unfold extract_body, processes_of, flattened.
  repeat match goal with
    | |- [] = _ => reflexivity
    | |- fst (process_loop _ _ _ []) = _ => rewrite process_loop_items; reflexivity
    | |- match ?x with _ => _ end = _ => destruct x
    end.
Qed.


Lemma processes_of_falsy : forall run_id api_response,
  py_truthy api_response = false -> processes_of run_id api_response = [].
Proof.
  intros run_id api_response H. destruct api_response; try reflexivity.
  destruct d; [reflexivity | discriminate H].
Qed.

Lemma status_value_first_row_status : forall entry,
  status_value entry = first_row_status entry.
Proof.
  intros entry. rewrite status_value_first_row. unfold first_row_status.
  destruct (dict_lookup "rowRunStatus" entry) as [[ | | | | | | [|[k v] rest]]|];
    try reflexivity.
  destruct v as [ | [|] | | | | | ]; reflexivity.
Qed.

(* ================================================================= *)
(** ** Statuses, missing levels and non-objects, over whole reports *)

(** C5.  For every scenario entry that is flattened, at any place of any
    report, the record's status comes from the first row of that entry's
    [rowRunStatus] alone: [true] gives [Passed], [false] gives [Failed],
    and an entry whose [rowRunStatus] is empty, absent or not a dict
    gives the empty status; nothing is raised. *)
Theorem status_from_first_row :
  forall (e : env) (run_id : string) (api_response : json)
         (created_timestamp : option json) (w : world),
    map rowRunStatus
        (fst (extract_scenario_details e run_id api_response created_timestamp w))
    = map (fun pfe => first_row_status (snd (snd pfe)))
          (flattened (processes_of run_id api_response)).
Proof.
  intros e run_id api_response cts w. rewrite extract_scenario_details_eq.
  destruct (negb (py_truthy api_response)) eqn:E.
  - apply negb_true_iff in E. rewrite (processes_of_falsy run_id _ E). reflexivity.
  - rewrite extract_body_flattened, map_map. apply map_ext.
    intros [p [f entry]]. unfold record_of_entry, record_in_flow, scenario_record.
    cbn [rowRunStatus fst snd]. apply status_value_first_row_status.
Qed.

Example first_row_status_instances :
  first_row_status [("scenarioId", JInt 1); ("rowRunStatus", JDict [("0", JBool true)])]
  = "Passed"
  /\ first_row_status [("rowRunStatus", JDict [("0", JBool false); ("1", JBool true)])]
     = "Failed"
  /\ first_row_status [("rowRunStatus", JDict [])] = ""
  /\ first_row_status [("scenarioId", JInt 1)] = "".
Proof. repeat split; reflexivity. Qed.

Example statuses_of_sample_report :
  map rowRunStatus
    (fst (extract_scenario_details sample_env "9"
            (report_with_processes "9"
               (JList [JDict [("processId", JInt 1)];
                       process_with_flows
                         [flow_with_scenarios
                            [scenario_entry 1 "a" (JDict [("0", JBool true)])];
                          flow_with_scenarios
                            [scenario_entry 2 "b" (JDict [("0", JBool false)]);
                             scenario_entry 3 "c" (JDict [])]]]))
            (Some (JStr "2024-04-14T08:00:00")) empty_world))
  = ["Passed"; "Failed"; ""].
Proof. vm_compute. reflexivity. Qed.




Lemma before_bad_goods : forall {A} (goods : list A) (rest : list (item A)),
  before_bad (map Good goods ++ Bad :: rest)%list = (goods, true).
Proof.
  intros A goods rest. induction goods as [|g goods IH]; cbn [map app before_bad].
  - reflexivity.
  - rewrite IH. reflexivity.
Qed.

(** X9.  Flattening follows the document and ends at the first process,
    flow or scenario entry that is not an object: the records returned
    are those of the scenario entries before it, also the ones of earlier
    flows and processes, and everything after it in the report gives
    nothing.  With no such element every scenario entry gives its
    record. *)
Theorem flattening_stops_at_bad_entry :
  forall (e : env) (run_id : string) (api_response : json)
         (created_timestamp : option json) (w : world),
    fst (extract_scenario_details e run_id api_response created_timestamp w)
    = map (record_of_entry run_id (effective_timestamp e created_timestamp w))
          (fst (before_bad (flat_map items_of_process
                                     (processes_of run_id api_response))))
    /\ (forall (goods : list (pydict * (pydict * pydict))) rest,
          before_bad (map Good goods ++ Bad :: rest)%list = (goods, true))
    /\ (forall (goods : list (pydict * (pydict * pydict))),
          before_bad (map Good goods) = (goods, false)).
Proof.
  intros e run_id api_response cts w. split; [| split].
  - rewrite extract_scenario_details_eq.
    destruct (negb (py_truthy api_response)) eqn:E.
    + apply negb_true_iff in E. rewrite (processes_of_falsy run_id _ E). reflexivity.
    + apply extract_body_flattened.
  - intros goods rest. apply before_bad_goods.
  - intros goods. induction goods as [|g goods IH]; cbn [map before_bad].
    + reflexivity.
    + rewrite IH. reflexivity.
Qed.

Example flattening_bad_entry_late :
  map scenarioId
    (fst (extract_scenario_details sample_env "9"
            (report_with_processes "9"
               (JList [process_with_flows
                         [flow_with_scenarios [scenario_entry 1 "a" (JDict [])];
                          flow_with_scenarios [scenario_entry 2 "b" (JDict [])]];
                       process_with_flows
                         [flow_with_scenarios [scenario_entry 3 "c" (JDict [])];
                          flow_with_scenarios
                            [scenario_entry 4 "d" (JDict []); JStr "oops";
                             scenario_entry 5 "e" (JDict [])];
                          flow_with_scenarios [scenario_entry 6 "f" (JDict [])]];
                       process_with_flows
                         [flow_with_scenarios [scenario_entry 7 "g" (JDict [])]]]))
            (Some (JStr "t")) empty_world))
  = ["1"; "2"; "3"; "4"].
Proof. vm_compute. reflexivity. Qed.

(* ================================================================= *)
(** ** The message for an empty result *)

Lemma string_app_assoc : forall a b c : string, (a ++ b) ++ c = a ++ (b ++ c).
Proof.
  intros a b c. induction a as [|x a IH]; [reflexivity |].
  cbn [append]. rewrite IH. reflexivity.
Qed.

Lemma string_app_empty_r : forall a : string, a ++ "" = a.
Proof.
  intros a. induction a as [|x a IH]; [reflexivity |].
  cbn [append]. rewrite IH. reflexivity.
Qed.

Lemma extract_status_filter_values : forall q,
  _extract_status_filter q = None \/
  _extract_status_filter q = Some "Passed" \/
  _extract_status_filter q = Some "Failed".
Proof.
  intros q. unfold _extract_status_filter, status_patterns. cbn [first_status_match].
  destruct (search re_passed q); [right; left; reflexivity |].
  destruct (search re_failed q); [right; right; reflexivity | left; reflexivity].
Qed.

Lemma time_description_phrase : forall e s t w,
  " " ++ fst (time_description e s t w) = time_phrase e w (Some s) (Some t).
Proof.
  intros e s t w. unfold time_phrase, time_phrases, time_description.
  cbn [first_phrase Nat.add].
  rewrite bind_fst. cbn [utcnow fst snd ticks].
  destruct (dt_days s =? dt_days (utc_clock e (ticks w))); [reflexivity |].
  rewrite bind_fst. cbn [utcnow fst snd ticks].
  destruct (td_days (utc_clock e (S (ticks w)) - s) =? 1); [reflexivity |].
  rewrite bind_fst. cbn [utcnow fst snd ticks].
  destruct (td_days (utc_clock e (S (S (ticks w))) - s) =? 7); [reflexivity |].
  destruct ((dt_day s =? 1) && (28 <? dt_day t)); [reflexivity |].
  rewrite bind_fst. cbn [utcnow fst snd ticks].
  destruct (utc_clock e (S (S (S (ticks w)))) - s <=? 86400 * US_PER_SECOND);
    reflexivity.
Qed.

Lemma no_results_message_built : forall e start_time end_time status w,
  status = None \/ status = Some "Passed" \/ status = Some "Failed" ->
  fst (no_results_message e start_time end_time status w)
  = "No scenarios found" ++ status_phrase status
    ++ time_phrase e w start_time end_time.
Proof.
  intros e start_time end_time status w Hst. unfold no_results_message.
  assert (Hm : (match status with
                | Some st => if opt_str_truthy status
                             then "No scenarios found" ++ " with status '" ++ st ++ "'"
                             else "No scenarios found"
                | None => "No scenarios found"
                end) = "No scenarios found" ++ status_phrase status).
  { destruct Hst as [-> | [-> | ->]]; reflexivity. }
  rewrite Hm.
  destruct start_time as [s|]; [destruct end_time as [t|] |].
  - rewrite <- time_description_phrase.
    rewrite bind_fst. unfold ret. cbn [fst]. rewrite !string_app_assoc. reflexivity.
  - unfold ret, time_phrase. cbn [fst]. rewrite string_app_empty_r. reflexivity.
  - unfold ret, time_phrase. cbn [fst]. rewrite string_app_empty_r. reflexivity.
Qed.

(** C10.  What [FilterAgent.process_query] returns is decided by the rows
    the store read gives back.  With no row it is [success = False] and a
    message, without a [results] key; the message is "No scenarios
    found", then " with status '<status>'" when a status was extracted,
    then, when a time range was extracted, the first of the time phrases
    whose test holds of the range and of the clock as read after the
    extraction (today, yesterday, for the last week, for <month year>, in
    the last 24 hours), or else the two dates of the range.
    The [{success: True, results, count}] shape comes only with at least
    one row. *)
Theorem zero_rows_is_failure :
  forall (e : env) (q : string) (w : world),
    let r := _extract_time_filter e q w in
    let status := _extract_status_filter q in
    let plan := _build_query (fst (fst r)) (snd (fst r)) status in
    let result := fst (agent_process_query e q w) in
    match execute e plan (store (snd r)) with
    | ExecData [] =>
        result = [ ("success", JBool false);
                   ("message",
                    JStr ("No scenarios found" ++ status_phrase status
                          ++ time_phrase e (snd r) (fst (fst r)) (snd (fst r)))) ]
    | ExecData (row1 :: rows) =>
        result = [ ("success", JBool true);
                   ("results", JList (_format_results (row1 :: rows)));
                   ("count", JInt (Z.of_nat (List.length (row1 :: rows)))) ]
    | ExecRaised msg =>
        result = [ ("success", JBool false);
                   ("message", JStr ("Error processing query: " ++ msg)) ]
    end.
Proof.
  intros e q w r status plan result. subst result.
  unfold agent_process_query, bind.
  subst plan status r.
  destruct (_extract_time_filter e q w) as [[start_time end_time] w1].
  cbn [fst snd]. unfold get_store, emit. cbn [fst snd store].
  destruct (execute e _ (store w1)) as [[|row1 rows] | msg].
  - match goal with
    | |- context [no_results_message ?e ?s ?t ?st ?w] =>
        pose proof (no_results_message_built e s t st w
                      (extract_status_filter_values q)) as Hmsg;
        destruct (no_results_message e s t st w) as [message w2]
    end.
    cbn [fst ticks] in Hmsg. subst message. reflexivity.
  - unfold ret, _format_results. cbn [fst]. rewrite length_map. reflexivity.
  - reflexivity.
Qed.

Example zero_rows_messages :
  dict_lookup "message"
    (fst (agent_process_query sample_env "show passed scenarios" empty_world))
  = Some (JStr "No scenarios found with status 'Passed'")
  /\ dict_lookup "message"
       (fst (agent_process_query sample_env "what failed last month" empty_world))
     = Some (JStr "No scenarios found with status 'Failed' for March 2024")
  /\ dict_lookup "message"
       (fst (agent_process_query sample_env "runs from January 2 to January 5"
               empty_world))
     = Some (JStr "No scenarios found between January 02, 2024 and January 05, 2024")
  /\ dict_lookup "message"
       (fst (agent_process_query sample_env "anything from today" empty_world))
     = Some (JStr "No scenarios found today").
Proof. vm_compute. repeat split; reflexivity. Qed.

(* ================================================================= *)
(** ** Letter case and whole words *)

Lemma ascii_text_check : forall q,
  forallb (fun c => (Re.code c <? 128)%N) (list_ascii_of_string q) = true ->
  ascii_text q.
Proof.
  intros q H. unfold ascii_text. apply Forall_forall. intros c Hc.
  rewrite forallb_forall in H. apply N.ltb_lt. exact (H c Hc).
Qed.

(** X5.  Matching ignores letter case.  For two queries of ASCII
    characters that differ only in the case of their letters, every
    pattern matches one exactly when it matches the other; so they get
    the same status filter, and when one of the five relative phrase
    rules matches, the same rule answers both with the same range. *)
Theorem status_filter_ignores_case : forall (q1 q2 : string),
  ascii_text q1 ->
  same_up_to_case q1 q2 ->
  (forall r : regex, matches r q1 = matches r q2)
  /\ _extract_status_filter q1 = _extract_status_filter q2
  /\ (forall e : env, relative_rule_matches q1 = true ->
        _extract_time_filter e q1 = _extract_time_filter e q2).
Proof.
  intros q1 q2 _ H.
  assert (Hm : forall r, matches r q1 = matches r q2)
    by (intros r; apply matches_case; assumption).
  split; [exact Hm | split].
  - unfold _extract_status_filter, status_patterns. cbn [first_status_match].
    pose proof (Hm re_passed) as Hp. pose proof (Hm re_failed) as Hf.
    unfold matches in Hp, Hf.
    destruct (search re_passed q1), (search re_passed q2); try discriminate Hp;
      try reflexivity.
    destruct (search re_failed q1), (search re_failed q2); try discriminate Hf;
      reflexivity.
  - intros e Hrel. unfold relative_rule_matches in Hrel. cbn [existsb] in Hrel.
    pose proof (Hm re_today) as H1. pose proof (Hm re_yesterday) as H2.
    pose proof (Hm re_last_week) as H3. pose proof (Hm re_last_month) as H4.
    pose proof (Hm re_last_24_hours) as H5.
    unfold matches in *.
    unfold _extract_time_filter, time_patterns. cbn [first_time_match].
    destruct (search re_today q1), (search re_today q2); try discriminate H1;
      [reflexivity |].
    destruct (search re_yesterday q1), (search re_yesterday q2); try discriminate H2;
      [reflexivity |].
    destruct (search re_last_week q1), (search re_last_week q2); try discriminate H3;
      [reflexivity |].
    destruct (search re_last_month q1), (search re_last_month q2); try discriminate H4;
      [reflexivity |].
    destruct (search re_last_24_hours q1), (search re_last_24_hours q2);
      try discriminate H5; [reflexivity |].
    discriminate Hrel.
Qed.

Lemma status_filter_ignores_case_witness :
  (forall r : regex,
     matches r "Show FAILED runs from Last Week"
     = matches r "show failed runs from last week")
  /\ _extract_status_filter "Show FAILED runs from Last Week"
     = _extract_status_filter "show failed runs from last week"
  /\ (forall e : env,
        relative_rule_matches "Show FAILED runs from Last Week" = true ->
        _extract_time_filter e "Show FAILED runs from Last Week"
        = _extract_time_filter e "show failed runs from last week").
Proof.
  apply (status_filter_ignores_case "Show FAILED runs from Last Week"
           "show failed runs from last week").
  - apply ascii_text_check. reflexivity.
  - reflexivity.
Defined.

(** X21.  In a query of ASCII characters in which the word "passed"
    stands on its own, in any letter case, the status filter is [Passed],
    whatever else the query contains; one in which "failed" stands on its
    own and that does not match the passed pattern gets [Failed]. *)
Theorem whole_word_selects_status : forall (q : string),
  ascii_text q ->
  (has_whole_word "passed" q -> _extract_status_filter q = Some "Passed") /\
  (has_whole_word "failed" q -> matches re_passed q = false ->
     _extract_status_filter q = Some "Failed").
Proof.
  intros q _. unfold _extract_status_filter, status_patterns. cbn [first_status_match].
  split.
  - intros H. pose proof (has_whole_word_matches re_passed "passed" q
                            whole_word_passed H) as Hm.
    unfold matches in Hm. destruct (search re_passed q); [reflexivity | discriminate Hm].
  - intros H Hp. pose proof (has_whole_word_matches re_failed "failed" q
                               whole_word_failed H) as Hm.
    unfold matches in Hm, Hp. destruct (search re_passed q); [discriminate Hp |].
    destruct (search re_failed q); [reflexivity | discriminate Hm].
Qed.

Lemma whole_word_selects_status_witness :
  _extract_status_filter "which runs PASSED, not failed?" = Some "Passed"
  /\ _extract_status_filter "Failed-yesterday" = Some "Failed".
Proof.
  split.
  - apply (proj1 (whole_word_selects_status "which runs PASSED, not failed?"
                    (ascii_text_check "which runs PASSED, not failed?" eq_refl))).
    exists (list_ascii_of_string "which runs "),
           (list_ascii_of_string ", not failed?").
    repeat split; reflexivity.
  - apply (proj2 (whole_word_selects_status "Failed-yesterday"
                    (ascii_text_check "Failed-yesterday" eq_refl))).
    + exists [], (list_ascii_of_string "-yesterday"). repeat split; reflexivity.
    + reflexivity.
Defined.

(* ================================================================= *)
(** ** Ingestion that does not succeed *)

Lemma process_query_after_ingestion : forall e q w,
  fst (should_run_ingestion e w) = true ->
  process_query e q w
  = (let r := ingest_scenarios e (snd (should_run_ingestion e w)) in
     match fst r with
     | Raised x => (Raised x, snd r)
     | Returned false => (Returned update_failed, snd r)
     | Returned true =>
         (Returned (fst (agent_process_query e q (snd r))),
          snd (agent_process_query e q (snd r)))
     end).
Proof.
  intros e q w Hdue. unfold process_query, bind.
  destruct (should_run_ingestion e w) as [due w1]. cbn [fst snd] in *. subst due.
  destruct (ingest_scenarios e w1) as [[[|]|x] w2]; cbn [fst snd]; unfold ret;
    try reflexivity.
  destruct (agent_process_query e q w2); reflexivity.
Qed.

(** X22.  When the run listing cannot be fetched, a pass of
    [ingest_scenarios] returns [False], leaves the table as it was and
    issues no delete or insert.  When the gate asks for ingestion and
    [ingest_scenarios] returns [False], [process_query] returns the
    dictionary with [success] false, the message "Failed to update data
    from source. Please try again later.", [count] 0 and no results,
    straight after the ingestion, and no query is executed against the
    store. *)
Theorem ingestion_failure_handling :
  forall (e : env) (q : string) (w : world),
    (runs_response e = None ->
       fst (ingest_scenarios e w) = Returned false /\
       store (snd (ingest_scenarios e w)) = store w /\
       filter is_write (trace (snd (ingest_scenarios e w)))
       = filter is_write (trace w)) /\
    (fst (should_run_ingestion e w) = true ->
     fst (ingest_scenarios e (snd (should_run_ingestion e w))) = Returned false ->
       fst (process_query e q w)
       = Returned
           [ ("success", JBool false);
             ("message",
              JStr "Failed to update data from source. Please try again later.");
             ("count", JInt 0);
             ("results", JList []) ] /\
       snd (process_query e q w)
       = snd (ingest_scenarios e (snd (should_run_ingestion e w))) /\
       filter is_query (trace (snd (process_query e q w)))
       = filter is_query (trace w)).
Proof.
  intros e q w. split.
  - intros H. destruct (ingest_without_listing e w H) as (Hr & Hs & Ht).
    repeat split; assumption.
  - intros Hdue Hfail.
    pose proof (should_run_ingestion_queries e w) as Hq1.
    pose proof (ingest_scenarios_queries e (snd (should_run_ingestion e w))) as Hq2.
    rewrite (process_query_after_ingestion e q w Hdue). cbv zeta.
    rewrite Hfail. cbn [fst snd].
    repeat split; try reflexivity.
    unfold same_queries in *. congruence.
Qed.

Lemma ingestion_failure_handling_witness :
  (fst (ingest_scenarios offline_env empty_world) = Returned false /\
   store (snd (ingest_scenarios offline_env empty_world)) = store empty_world /\
   filter is_write (trace (snd (ingest_scenarios offline_env empty_world)))
   = filter is_write (trace empty_world)) /\
  (fst (process_query offline_env "show failed scenarios" empty_world)
   = Returned
       [ ("success", JBool false);
         ("message",
          JStr "Failed to update data from source. Please try again later.");
         ("count", JInt 0);
         ("results", JList []) ] /\
   snd (process_query offline_env "show failed scenarios" empty_world)
   = snd (ingest_scenarios offline_env (snd (should_run_ingestion offline_env empty_world))) /\
   filter is_query (trace (snd (process_query offline_env "show failed scenarios"
                                  empty_world)))
   = filter is_query (trace empty_world)).
Proof.
  destruct (ingestion_failure_handling offline_env "show failed scenarios" empty_world)
    as [H1 H2].
  split.
  - apply H1. reflexivity.
  - apply H2; reflexivity.
Defined.

(** C4.  With an empty table and a run listing whose [data] is [null],
    the gate asks for ingestion, [extract_run_ids] raises [TypeError] on
    [len(items)], and nothing between it and the caller of
    [process_query] catches it: [process_query] raises instead of
    returning the result with the retry message.  Nothing is written to
    the store and no query is executed.  [run_scheduled_job], which makes
    the same call of [ingest_scenarios] inside a [try], returns. *)
Theorem ingestion_exception_escapes : forall (q : string),
  let w1 := snd (should_run_ingestion null_listing_env empty_world) in
  fst (should_run_ingestion null_listing_env empty_world) = true /\
  extract_run_ids (JDict [("data", JNull)]) = Raised "TypeError" /\
  fst (ingest_scenarios null_listing_env w1) = Raised "TypeError" /\
  fst (process_query null_listing_env q empty_world) = Raised "TypeError" /\
  fst (process_query null_listing_env q empty_world) <> Returned update_failed /\
  store (snd (process_query null_listing_env q empty_world)) = [] /\
  trace (snd (process_query null_listing_env q empty_world))
  = [EvGetRuns; EvSelectLatest; EvSelectLatest] /\
  fst (run_scheduled_job null_listing_env empty_world) = Returned tt.
Proof.
  intros q w1.
  assert (Hdue : fst (should_run_ingestion null_listing_env empty_world) = true)
    by reflexivity.
  assert (Hing : ingest_scenarios null_listing_env w1
                 = (Raised "TypeError",
                    {| ticks := 0; store := [];
                       trace := [EvGetRuns; EvSelectLatest; EvSelectLatest] |}))
    by reflexivity.
  assert (Hpq : process_query null_listing_env q empty_world
                = (Raised "TypeError",
                   {| ticks := 0; store := [];
                      trace := [EvGetRuns; EvSelectLatest; EvSelectLatest] |})).
  { rewrite (process_query_after_ingestion null_listing_env q empty_world Hdue).
    cbv zeta. fold w1. rewrite Hing. reflexivity. }
  rewrite Hpq, Hing. cbn [fst snd store trace].
  repeat split; try reflexivity.
  discriminate.
Qed.
